(** * Arudhra Fashions backend: invoice renderer and password-reset flow

    A shallow embedding of [generateInvoicePDF] (the PDF invoice service) and
    of the [forgot-password] / [reset-password] routes of [authRoutes.js],
    with the properties of the specification stated over it.

    Conventions of the embedding.
    - JavaScript values are the inductive [JsVal]; objects are association
      lists of fields, so a field the code never reads can be present.
    - JavaScript numbers are [Num]: NaN, the two infinities, or an exact
      rational.  Rounding to 53 bits is not modelled; overflow to Infinity is.
    - The PDFKit document is a graphics state plus the chronological list of
      [Event]s the code caused; exceptions keep the events emitted so far.
      An event is a call of the code with the position it asked for.  How
      PDFKit flows a text that does not fit on the page is not modelled:
      the properties speak of the pages the code starts and of whether a
      text ends above the lower edge of the page, not of the number of
      pages of the file.
    - [order] and [user] are objects, as the JSDoc of the function says;
      their fields are arbitrary values.  [generateInvoicePDFOf] is the
      function on arguments of any value, [undefined] and [null] among
      them.
    - Everything the code obtains from its runtime (clock, file system, text
      measurement, date parsing) is a field of [Env]. *)

From Stdlib Require Import ZArith QArith Qround Qabs Qminmax Lqa.
From Stdlib Require Import String Ascii List Bool Lia DecimalString DecimalPos DecimalN.
Import ListNotations.

Set Warnings "-register-all".
Local Open Scope string_scope.
Local Open Scope Z_scope.

(* ================================================================== *)
(** ** JavaScript numbers *)
(* ================================================================== *)

Module Js.

Inductive Num : Type :=
| NaN
| Inf (neg : bool)
| Fin (q : Q).

(** Doubles overflow to Infinity at [2^1024 - 2^970] (round to nearest). *)
Definition overflowBound : Q := inject_Z (2 ^ 1024 - 2 ^ 970).

Definition clip (q : Q) : Num :=
  if Qle_bool overflowBound (Qabs q) then Inf (Qle_bool q 0 && negb (Qeq_bool q 0))
  else Fin q.

Definition isZero (q : Q) : bool := Qeq_bool q 0.
Definition isNeg (q : Q) : bool := negb (Qle_bool 0 q).

(** [a * b] on numbers. *)
Definition mul (a b : Num) : Num :=
  match a, b with
  | NaN, _ | _, NaN => NaN
  | Inf s, Inf t => Inf (xorb s t)
  | Inf s, Fin q | Fin q, Inf s =>
      if isZero q then NaN else Inf (xorb s (isNeg q))
  | Fin p, Fin q => clip (p * q)
  end.

(** [a > 0]. *)
Definition gt0 (a : Num) : bool :=
  match a with
  | NaN => false
  | Inf neg => negb neg
  | Fin q => negb (Qle_bool q 0)
  end.

(* ------------------------------------------------------------------ *)
(** *** Decimal digits *)

Definition decimal (n : Z) : string :=
  NilZero.string_of_uint (N.to_uint (Z.to_N n)).

Definition isDigit (c : ascii) : bool :=
  (48 <=? nat_of_ascii c)%nat && (nat_of_ascii c <=? 57)%nat.

Fixpoint allDigits (s : string) : bool :=
  match s with
  | EmptyString => true
  | String c r => isDigit c && allDigits r
  end.

Fixpoint repeatChar (c : ascii) (n : nat) : string :=
  match n with
  | O => EmptyString
  | S k => String c (repeatChar c k)
  end.

Definition strlen := String.length.

(** First [n] characters and the rest. *)
Definition takeStr (n : nat) (s : string) : string := substring 0 n s.
Definition dropStr (n : nat) (s : string) : string := substring n (strlen s - n) s.

(* ------------------------------------------------------------------ *)
(** *** Number.prototype.toFixed(2)

    Follows ECMA-262: sign, then for magnitudes of [10^21] and above the
    general number-to-string conversion (supplied by the caller), otherwise
    the nearest integer [n] to [x * 10^2] (the larger on a tie), its digits
    left-padded with zeros to three characters, and a point before the last
    two. *)

Definition toFixedThreshold : Q := inject_Z (10 ^ 21).

Definition nearestHundredths (x : Q) : Z := Qfloor (x * 100 + (1 # 2)).

Definition fixedDigits (x : Q) : string :=
  let m := decimal (nearestHundredths x) in
  let k := strlen m in
  let m' := if (k <=? 2)%nat then repeatChar "0" (3 - k) ++ m else m in
  let k' := strlen m' in
  takeStr (k' - 2) m' ++ "." ++ dropStr (k' - 2) m'.

Definition toFixed2 (numberToString : Q -> string) (a : Num) : string :=
  match a with
  | NaN => "NaN"
  | Inf false => "Infinity"
  | Inf true => "-Infinity"
  | Fin q =>
      let s := if isNeg q then "-" else "" in
      let x := Qabs q in
      if Qle_bool toFixedThreshold x then s ++ numberToString x
      else s ++ fixedDigits x
  end.

(* ------------------------------------------------------------------ *)
(** *** What the JavaScript runtime supplies *)

Record Runtime : Type := {
  (** successive readings of the system clock, in ms since the epoch *)
  clock : nat -> Z;
  (** offset of local time from UTC, in minutes *)
  tzOffsetMinutes : Z;
  (** [Date.parse]: the time value of a date string, if it has one *)
  dateParse : string -> option Z;
  (** [Date.prototype.toString] of a valid time value *)
  dateToString : Z -> string;
  (** [Number::toString] outside the range of plain integers *)
  numberToString : Q -> string
}.

(* ------------------------------------------------------------------ *)
(** *** Numeric literals in strings *)

Definition isWhite (c : ascii) : bool :=
  match nat_of_ascii c with
  | 9%nat | 10%nat | 11%nat | 12%nat | 13%nat | 32%nat => true
  | _ => false
  end.

Fixpoint skipWhite (s : string) : string :=
  match s with
  | String c r => if isWhite c then skipWhite r else s
  | EmptyString => s
  end.

Fixpoint allWhite (s : string) : bool :=
  match s with
  | String c r => isWhite c && allWhite r
  | EmptyString => true
  end.

Fixpoint spanDigits (s : string) : string * string :=
  match s with
  | String c r =>
      if isDigit c then let (d, t) := spanDigits r in (String c d, t)
      else (EmptyString, s)
  | EmptyString => (EmptyString, EmptyString)
  end.

Fixpoint digitsValue (acc : Z) (s : string) : Z :=
  match s with
  | EmptyString => acc
  | String c r => digitsValue (10 * acc + Z.of_nat (nat_of_ascii c - 48)) r
  end.

Definition isEmpty (s : string) : bool :=
  match s with EmptyString => true | _ => false end.

(** Optional sign: [true] when negative. *)
Definition spanSign (s : string) : bool * string :=
  match s with
  | String "+" r => (false, r)
  | String "-" r => (true, r)
  | _ => (false, s)
  end.

(** [ExponentPart]: the exponent and the rest, when one is present. *)
Definition spanExponent (s : string) : Z * string :=
  match s with
  | String c r =>
      if (Ascii.eqb c "e" || Ascii.eqb c "E")%bool then
        let (neg, r1) := spanSign r in
        let (d, r2) := spanDigits r1 in
        if isEmpty d then (0, s)
        else ((if neg then -1 else 1) * digitsValue 0 d, r2)
      else (0, s)
  | EmptyString => (0, s)
  end.

(** Longest prefix that is an unsigned decimal literal (digits, optional
    fraction, optional exponent): its value and the rest. *)
Definition spanDecimal (s : string) : option (Q * string) :=
  let (ip, r1) := spanDigits s in
  let (fp, r2) :=
    match r1 with
    | String "." t => spanDigits t
    | _ => (EmptyString, r1)
    end in
  if isEmpty ip && isEmpty fp then None
  else
    let (e, r3) := spanExponent r2 in
    let mant := (inject_Z (digitsValue 0 (ip ++ fp))
                 / inject_Z (10 ^ Z.of_nat (strlen fp)))%Q in
    Some ((mant * Qpower 10 e)%Q, r3).

Definition signed (neg : bool) (q : Q) : Q := if neg then (- q)%Q else q.

(** The global [parseFloat] on a string: leading white space is skipped,
    the longest numeric prefix is taken, anything after it is ignored. *)
Definition parseFloatStr (s : string) : Num :=
  let (neg, u) := spanSign (skipWhite s) in
  if prefix "Infinity" u then Inf neg
  else match spanDecimal u with
       | Some (q, _) => clip (signed neg q)
       | None => NaN
       end.

(** Digits in a radix up to 16, for the [0x], [0o] and [0b] literals. *)
Definition radixDigit (c : ascii) : option Z :=
  let n := nat_of_ascii c in
  if ((48 <=? n) && (n <=? 57))%nat then Some (Z.of_nat (n - 48))
  else if ((97 <=? n) && (n <=? 102))%nat then Some (Z.of_nat (n - 87))
  else if ((65 <=? n) && (n <=? 70))%nat then Some (Z.of_nat (n - 55))
  else None.

Fixpoint radixValue (radix acc : Z) (s : string) : option Z :=
  match s with
  | EmptyString => Some acc
  | String c r =>
      match radixDigit c with
      | Some d => if d <? radix then radixValue radix (radix * acc + d) r else None
      | None => None
      end
  end.

Fixpoint trimRight (s : string) : string :=
  match s with
  | EmptyString => EmptyString
  | String c r => if allWhite s then EmptyString else String c (trimRight r)
  end.

Definition radixLiteral (s : string) : option Z :=
  match s with
  | String "0" (String c (String d r)) =>
      let body := String d r in
      if (Ascii.eqb c "x" || Ascii.eqb c "X")%bool then radixValue 16 0 body
      else if (Ascii.eqb c "o" || Ascii.eqb c "O")%bool then radixValue 8 0 body
      else if (Ascii.eqb c "b" || Ascii.eqb c "B")%bool then radixValue 2 0 body
      else None
  | _ => None
  end.

(** [ToNumber] on a string: the whole trimmed string must be a literal. *)
Definition stringToNumber (s : string) : Num :=
  let t := trimRight (skipWhite s) in
  if isEmpty t then Fin 0
  else match radixLiteral t with
       | Some n => clip (inject_Z n)
       | None =>
           let (neg, u) := spanSign t in
           if String.eqb u "Infinity" then Inf neg
           else match spanDecimal u with
                | Some (q, EmptyString) => clip (signed neg q)
                | _ => NaN
                end
       end.

(* ------------------------------------------------------------------ *)
(** *** Values *)

Inductive JsVal : Type :=
| VUndef
| VNull
| VBool (b : bool)
| VNum (n : Num)
| VStr (s : string)
| VDate (t : option Z)            (* a Date object; [None] is Invalid Date *)
| VArr (l : list JsVal)
| VObj (fields : list (string * JsVal)).

Definition Obj : Type := list (string * JsVal).

(** Truthiness, as [||], [!] and [if] see it. *)
Definition truthy (v : JsVal) : bool :=
  match v with
  | VUndef | VNull => false
  | VBool b => b
  | VNum NaN => false
  | VNum (Inf _) => true
  | VNum (Fin q) => negb (isZero q)
  | VStr s => negb (isEmpty s)
  | VDate _ | VArr _ | VObj _ => true
  end.

(** [a || b] *)
Definition jsOr (a b : JsVal) : JsVal := if truthy a then a else b.

(** Own-property lookup in an object literal. *)
Fixpoint field (fs : Obj) (k : string) : JsVal :=
  match fs with
  | [] => VUndef
  | (k', v) :: r => if String.eqb k' k then v else field r k
  end.

(** [v.k] for the data properties the code reads; [None] is the TypeError
    of reading a property of [undefined] or [null]. *)
Definition getProp (v : JsVal) (k : string) : option JsVal :=
  match v with
  | VUndef | VNull => None
  | VObj fs => Some (field fs k)
  | _ => Some VUndef
  end.

(** [v?.k] *)
Definition getOpt (v : JsVal) (k : string) : JsVal :=
  match getProp v k with
  | Some x => x
  | None => VUndef
  end.

Definition isArray (v : JsVal) : bool :=
  match v with VArr _ => true | _ => false end.

Definition isInteger (q : Q) : bool := Qeq_bool q (inject_Z (Qfloor q)).

Section Conversions.
Variable rt : Runtime.

(** [Number::toString] *)
Definition numToStr (a : Num) : string :=
  match a with
  | NaN => "NaN"
  | Inf false => "Infinity"
  | Inf true => "-Infinity"
  | Fin q =>
      if isInteger q && negb (Qle_bool toFixedThreshold (Qabs q)) then
        (if isNeg q then "-" else "") ++ decimal (Qfloor (Qabs q))
      else numberToString rt q
  end.

Definition dateStr (t : option Z) : string :=
  match t with
  | Some tv => dateToString rt tv
  | None => "Invalid Date"
  end.

Fixpoint joinWith (sep : string) (l : list string) : string :=
  match l with
  | [] => EmptyString
  | [x] => x
  | x :: r => x ++ sep ++ joinWith sep r
  end.

(** [ToString], as template literals and [String(v)] apply it.  Objects
    are plain data objects, arrays join their elements with commas. *)
Fixpoint toStr (v : JsVal) : string :=
  match v with
  | VUndef => "undefined"
  | VNull => "null"
  | VBool true => "true"
  | VBool false => "false"
  | VNum n => numToStr n
  | VStr s => s
  | VDate t => dateStr t
  | VArr l =>
      joinWith ","
        (map (fun x => match x with
                       | VUndef | VNull => EmptyString
                       | _ => toStr x
                       end) l)
  | VObj _ => "[object Object]"
  end.

(** The global [parseFloat]: [ToString], then the numeric prefix. *)
Definition parseFloat (v : JsVal) : Num :=
  match v with
  | VNum n => n
  | _ => parseFloatStr (toStr v)
  end.

(** [ToNumber], as the operands of [*] undergo it. *)
Definition toNumber (v : JsVal) : Num :=
  match v with
  | VUndef => NaN
  | VNull => Fin 0
  | VBool true => Fin 1
  | VBool false => Fin 0
  | VNum n => n
  | VStr s => stringToNumber s
  | VDate (Some tv) => Fin (inject_Z tv)
  | VDate None => NaN
  | VArr _ | VObj _ => stringToNumber (toStr v)
  end.

(* ---------------------------------------------------------------- *)
(** *** Dates *)

(** Largest time value of a Date, in ms. *)
Definition maxTime : Z := 8640000000000000.

Definition timeClip (a : Num) : option Z :=
  match a with
  | Fin q =>
      let t := if isNeg q then - Qfloor (Qabs q) else Qfloor q in
      if Z.abs t <=? maxTime then Some t else None
  | _ => None
  end.

(** [new Date(v)] for one argument. *)
Definition newDate (v : JsVal) : option Z :=
  match v with
  | VDate t => t
  | VStr s => dateParse rt s
  | VArr _ | VObj _ => dateParse rt (toStr v)
  | _ => timeClip (toNumber v)
  end.

(** Days since 1970-01-01 to (year, month, day) of the Gregorian calendar. *)
Definition civilFromDays (days : Z) : Z * Z * Z :=
  let z := days + 719468 in
  let era := z / 146097 in
  let doe := z - era * 146097 in
  let yoe := (doe - doe / 1460 + doe / 36524 - doe / 146096) / 365 in
  let doy := doe - (365 * yoe + yoe / 4 - yoe / 100) in
  let mp := (5 * doy + 2) / 153 in
  let d := doy - (153 * mp + 2) / 5 + 1 in
  let m := if mp <? 10 then mp + 3 else mp - 9 in
  let y := yoe + era * 400 + (if m <=? 2 then 1 else 0) in
  (y, m, d).

Definition monthName (m : Z) : string :=
  match m with
  | 1 => "January" | 2 => "February" | 3 => "March" | 4 => "April"
  | 5 => "May" | 6 => "June" | 7 => "July" | 8 => "August"
  | 9 => "September" | 10 => "October" | 11 => "November"
  | _ => "December"
  end.

(** [toLocaleDateString('en-IN', { year: 'numeric', month: 'long',
    day: 'numeric' })]: day, month name, year of the local date; an
    invalid Date gives the text [Invalid Date] and does not throw. *)
Definition toLocaleDateString (t : option Z) : string :=
  match t with
  | None => "Invalid Date"
  | Some tv =>
      let local := tv + tzOffsetMinutes rt * 60000 in
      let '(y, m, d) := civilFromDays (local / 86400000) in
      decimal d ++ " " ++ monthName m ++ " " ++ decimal y
  end.

End Conversions.

End Js.

(* ================================================================== *)
(** ** The PDFKit document, the file system and exceptions *)
(* ================================================================== *)

Module Pdf.

Local Open Scope Q_scope.

Inductive Align : Type := AlignLeft | AlignCenter | AlignRight.

Record Rect : Type := {
  rx : Q; ry : Q; rw : Q; rh : Q
}.

(** One [doc.text] call, with the graphics state it was drawn in. *)
Record TextRun : Type := {
  content : string;
  tx : Q;
  ty : Q;
  width : option Q;
  align : option Align;
  font : string;
  size : Z;
  color : string;
  alpha : Q
}.

Definition Path : Type := list string.

Inductive Exn : Type :=
| TypeError (msg : string)
| Error (msg : string)
| SystemError (msg : string).

(** What the code does to the outside world, in the order it does it. *)
Inductive Event : Type :=
| Mkdir (dir : Path)                               (* fs.mkdirSync(dir, { recursive: true }) *)
| NewDocument (pageSize : string) (pageMargin : Z) (layout : string)
| CreateWriteStream (file : Path) (flags : option string)
| Pipe (file : Path)
| Image (file : Path) (x y w h : Q)
| Text (t : TextRun)
| Fill (rects : list Rect) (fillColor : string)
| Stroke (rects : list Rect) (strokeColor : string) (lineWidth : Q)
| AddPage
| EndDocument
| ConsoleError (msg : string) (error : Exn).

(** Graphics state of the document, and the number of clock readings. *)
Record St : Type := {
  gFont : string;
  gSize : Z;
  gFill : string;
  gStroke : string;
  gLineWidth : Q;
  gOpacity : Q;
  gPath : list Rect;
  gY : Q;
  ticks : nat
}.

Definition initial : St := {|
  gFont := "Helvetica"; gSize := 12; gFill := "black"; gStroke := "black";
  gLineWidth := 1; gOpacity := 1; gPath := []; gY := 0; ticks := 0
|}.

Record Env : Type := {
  rt : Js.Runtime;
  (** directory of the module, as path segments *)
  dirname : Path;
  existsSync : Path -> bool;
  (** the error [fs.mkdirSync] raises, if it does *)
  mkdirError : option string;
  (** the error [doc.image] raises, if it does *)
  imageError : option string;
  (** [doc.heightOfString(text, { width })] in a given font and size;
      the width is absent when the call gives none *)
  heightOfString : string -> option Q -> string -> Z -> Q;
  (** the error the write stream emits instead of [finish], if it does *)
  streamError : option string
}.

(* ------------------------------------------------------------------ *)
(** *** State, events and exceptions *)

Inductive Outcome (A : Type) : Type :=
| Ok (a : A)
| Throw (e : Exn).
Arguments Ok {A} a.
Arguments Throw {A} e.

(** A computation reads and updates the state, emits events, and returns or
    throws.  Events emitted before a throw are kept. *)
Definition M (A : Type) : Type := St -> Outcome A * list Event * St.

Definition ret {A} (a : A) : M A := fun s => (Ok a, [], s).

Definition bind {A B} (m : M A) (f : A -> M B) : M B :=
  fun s =>
    match m s with
    | (Ok a, ev1, s1) =>
        match f a s1 with
        | (r, ev2, s2) => (r, (ev1 ++ ev2)%list, s2)
        end
    | (Throw e, ev1, s1) => (Throw e, ev1, s1)
    end.

Definition throw {A} (e : Exn) : M A := fun s => (Throw e, [], s).

Definition tryCatch {A} (m : M A) (handler : Exn -> M A) : M A :=
  fun s =>
    match m s with
    | (Ok a, ev1, s1) => (Ok a, ev1, s1)
    | (Throw e, ev1, s1) =>
        match handler e s1 with
        | (r, ev2, s2) => (r, (ev1 ++ ev2)%list, s2)
        end
    end.

Definition emit (e : Event) : M unit := fun s => (Ok tt, [e], s).
Definition gets {A} (f : St -> A) : M A := fun s => (Ok (f s), [], s).
Definition modify (f : St -> St) : M unit := fun s => (Ok tt, [], f s).

Definition when (b : bool) (m : M unit) : M unit := if b then m else ret tt.

Declare Scope js_scope.
Delimit Scope js_scope with js.
Notation "x <- m ;; k" := (bind m (fun x => k))
  (at level 61, m at next level, right associativity) : js_scope.
Notation "m ;; k" := (bind m (fun _ => k))
  (at level 61, right associativity) : js_scope.
Local Open Scope js_scope.

(* ------------------------------------------------------------------ *)
(** *** The document methods the invoice service calls *)

Definition setFont (f : string) (s : St) : St :=
  {| gFont := f; gSize := gSize s; gFill := gFill s; gStroke := gStroke s;
     gLineWidth := gLineWidth s; gOpacity := gOpacity s; gPath := gPath s;
     gY := gY s; ticks := ticks s |}.
Definition setSize (n : Z) (s : St) : St :=
  {| gFont := gFont s; gSize := n; gFill := gFill s; gStroke := gStroke s;
     gLineWidth := gLineWidth s; gOpacity := gOpacity s; gPath := gPath s;
     gY := gY s; ticks := ticks s |}.
Definition setFill (c : string) (s : St) : St :=
  {| gFont := gFont s; gSize := gSize s; gFill := c; gStroke := gStroke s;
     gLineWidth := gLineWidth s; gOpacity := gOpacity s; gPath := gPath s;
     gY := gY s; ticks := ticks s |}.
Definition setStroke (c : string) (s : St) : St :=
  {| gFont := gFont s; gSize := gSize s; gFill := gFill s; gStroke := c;
     gLineWidth := gLineWidth s; gOpacity := gOpacity s; gPath := gPath s;
     gY := gY s; ticks := ticks s |}.
Definition setLineWidth (w : Q) (s : St) : St :=
  {| gFont := gFont s; gSize := gSize s; gFill := gFill s; gStroke := gStroke s;
     gLineWidth := w; gOpacity := gOpacity s; gPath := gPath s;
     gY := gY s; ticks := ticks s |}.
Definition setOpacity (o : Q) (s : St) : St :=
  {| gFont := gFont s; gSize := gSize s; gFill := gFill s; gStroke := gStroke s;
     gLineWidth := gLineWidth s; gOpacity := o; gPath := gPath s;
     gY := gY s; ticks := ticks s |}.
Definition setPath (p : list Rect) (s : St) : St :=
  {| gFont := gFont s; gSize := gSize s; gFill := gFill s; gStroke := gStroke s;
     gLineWidth := gLineWidth s; gOpacity := gOpacity s; gPath := p;
     gY := gY s; ticks := ticks s |}.
Definition setY (y : Q) (s : St) : St :=
  {| gFont := gFont s; gSize := gSize s; gFill := gFill s; gStroke := gStroke s;
     gLineWidth := gLineWidth s; gOpacity := gOpacity s; gPath := gPath s;
     gY := y; ticks := ticks s |}.
Definition tick (s : St) : St :=
  {| gFont := gFont s; gSize := gSize s; gFill := gFill s; gStroke := gStroke s;
     gLineWidth := gLineWidth s; gOpacity := gOpacity s; gPath := gPath s;
     gY := gY s; ticks := S (ticks s) |}.

Section Document.
Variable env : Env.

Definition fontSize (n : Z) : M unit := modify (setSize n).
Definition fontName (f : string) : M unit := modify (setFont f).
Definition fillColor (c : string) : M unit := modify (setFill c).
Definition strokeColor (c : string) : M unit := modify (setStroke c).
Definition lineWidth (w : Q) : M unit := modify (setLineWidth w).
Definition opacity (o : Q) : M unit := modify (setOpacity o).

(** [doc.rect] extends the current path; [fill] and [stroke] paint it. *)
Definition rect (x y w h : Q) : M unit :=
  modify (fun s => setPath (gPath s ++ [{| rx := x; ry := y; rw := w; rh := h |}])%list s).

Definition fill : M unit :=
  s <- gets (fun s => s) ;;
  emit (Fill (gPath s) (gFill s)) ;;
  modify (setPath []).

Definition stroke : M unit :=
  s <- gets (fun s => s) ;;
  emit (Stroke (gPath s) (gStroke s) (gLineWidth s)) ;;
  modify (setPath []).

Definition measure (str : string) (w : Q) : M Q :=
  gets (fun s => heightOfString env str (Some w) (gFont s) (gSize s)).

(** [doc.text(str, x, y, { width, align })]: draws in the current font,
    size, colour and opacity, and leaves [doc.y] below the text.  PDFKit
    converts what it is given to a string; the callers pass [toStr] of a
    value where the source passes the value.

    The event records the call, with the position the code asked for.
    What PDFKit does with a text that does not fit above the lower edge of
    the page - it continues on a page that it starts itself - is not
    modelled: the events say what the code drew and where, not how many
    pages the file has.  The code never reads [doc.y] after a text (every
    read follows an assignment of its own), so the positions of the later
    calls do not depend on it. *)
Definition text (str : string) (x y : Q) (w : option Q) (a : option Align) : M unit :=
  s <- gets (fun s => s) ;;
  emit (Text {| content := str; tx := x; ty := y; width := w; align := a;
                font := gFont s; size := gSize s; color := gFill s;
                alpha := gOpacity s |}) ;;
  modify (setY (y + heightOfString env str w (gFont s) (gSize s))).

Definition image (file : Path) (x y w h : Q) : M unit :=
  match imageError env with
  | Some msg => throw (Error msg)
  | None => emit (Image file x y w h)
  end.

(** [doc.addPage()]: a new page with the document's options (margin 0). *)
Definition addPage : M unit := emit AddPage ;; modify (setY 0).

Definition endDocument : M unit := emit EndDocument.

Definition getY : M Q := gets gY.
Definition putY (y : Q) : M unit := modify (setY y).

(** [Date.now()] and [new Date()]: the next reading of the clock. *)
Definition dateNow : M Z :=
  n <- gets ticks ;;
  modify tick ;;
  ret (Js.clock (rt env) n).

Definition mkdirSync (dir : Path) : M unit :=
  match mkdirError env with
  | Some msg => throw (SystemError msg)
  | None => emit (Mkdir dir)
  end.

Definition consoleError (msg : string) (error : Exn) : M unit :=
  emit (ConsoleError msg error).

(** [v.k], throwing when [v] is [undefined] or [null]. *)
Definition prop (v : Js.JsVal) (k : string) : M Js.JsVal :=
  match Js.getProp v k with
  | Some x => ret x
  | None =>
      throw (TypeError ("Cannot read properties of " ++ Js.toStr (rt env) v
                        ++ " (reading '" ++ k ++ "')"))
  end.

(** [a || b] where evaluating [b] has effects. *)
Definition orElse (a : Js.JsVal) (b : M Js.JsVal) : M Js.JsVal :=
  if Js.truthy a then ret a else b.

End Document.

(** [path.join]: segments appended, [..] removing the one before it. *)
Fixpoint pathJoin (base : Path) (segs : list string) : Path :=
  match segs with
  | [] => base
  | seg :: r =>
      if String.eqb seg ".." then pathJoin (removelast base) r
      else pathJoin (base ++ [seg])%list r
  end.

(** The flags a write stream is opened with when none are given. *)
Definition effectiveFlags (flags : option string) : string :=
  match flags with
  | Some f => f
  | None => "w"
  end.

End Pdf.

(* ================================================================== *)
(** ** The invoice service: [generateInvoicePDF] *)
(* ================================================================== *)

Module Invoice.

Import Js Pdf.
Local Open Scope Q_scope.
Local Open Scope string_scope.
Local Open Scope js_scope.

(** Brand color palette *)
Module colors.
Definition primary : string := "#C89E7E".
Definition primaryDark : string := "#7A5051".
Definition primaryLight : string := "#CAB19B".
Definition secondary : string := "#AB8A8A".
Definition background : string := "#FAF8F5".
Definition textPrimary : string := "#3A1F23".
Definition textSecondary : string := "#7A5051".
Definition white : string := "#FFFFFF".
End colors.

(** Helper function to convert hex to RGB: an optional [#] and exactly six
    hexadecimal digits, or [null]. *)
Definition hexToRgb (hex : string) : option (Z * Z * Z) :=
  let h := match hex with String "#" r => r | _ => hex end in
  match h with
  | String a (String b (String c (String d (String e (String f EmptyString))))) =>
      match radixValue 16 0 (String a (String b EmptyString)),
            radixValue 16 0 (String c (String d EmptyString)),
            radixValue 16 0 (String e (String f EmptyString)) with
      | Some r, Some g, Some bl => Some (r, g, bl)
      | _, _, _ => None
      end
  | _ => None
  end.

(** Page dimensions *)
Definition pageWidth : Q := 59528 # 100.
Definition pageHeight : Q := 84189 # 100.
Definition margin : Q := 40.
Definition contentWidth : Q := pageWidth - margin * 2.

Definition logoSize : Q := 130.
Definition logoX : Q := pageWidth - margin - logoSize.
Definition logoY : Q := margin.

Definition invoiceTitleY : Q := margin + 30.
Definition invoiceInfoY : Q := invoiceTitleY + 35.

Definition billToBoxY : Q := invoiceInfoY + 90.
Definition billToBoxHeight : Q := 100.

Definition tableStartY : Q := billToBoxY + billToBoxHeight + 20 + 10.
Definition headerRowHeight : Q := 32.

(** Column positions *)
Definition colItem : Q := margin + 10.
Definition colItemWidth : Q := 180.
Definition colSize : Q := colItem + colItemWidth + 8.
Definition colSizeWidth : Q := 42.
Definition colColor : Q := colSize + colSizeWidth + 8.
Definition colColorWidth : Q := 52.
Definition colQty : Q := colColor + colColorWidth + 8.
Definition colQtyWidth : Q := 32.
Definition colPrice : Q := colQty + colQtyWidth + 8.
Definition colPriceWidth : Q := 70.
Definition colTotal : Q := colPrice + colPriceWidth + 8.
Definition colTotalWidth : Q := 80.

Definition totalsStartX : Q := colTotal.
Definition totalsLabelWidth : Q := 100.
Definition totalsValueWidth : Q := colTotalWidth.

(** [Math.max] *)
Definition mathMax (a b : Q) : Q := if Qle_bool a b then b else a.

(** [a > b] on coordinates *)
Definition gtb (a b : Q) : bool := negb (Qle_bool a b).

(** A [`Rs. ${n.toFixed(2)}`] template. *)
Definition rupees (r : Runtime) (n : Num) : string :=
  "Rs. " ++ toFixed2 (numberToString r) n.

(** How the returned promise settles. *)
Inductive Settled : Type :=
| Resolved (reference : string)
| Rejected (error : Exn).

Section Render.
Variable env : Env.
Variables order user : Obj.

Let r := rt env.

(* ---------------------------------------------------------------- *)
(** Output directory, file name, document and stream (lines 41-60). *)

Definition invoicesDir : Path := pathJoin (dirname env) [".."; "uploads"; "invoices"].

(** Create invoices directory if it doesn't exist (lines 42-45). *)
Definition ensureDirectory : M unit :=
  when (negb (existsSync env invoicesDir)) (mkdirSync env invoicesDir).

(** The file name, the document and the stream piped to the file
    (lines 48-60). *)
Definition createOutput : M string :=
  now <- dateNow env ;;
  let filename := "invoice-" ++ toStr r (field order "orderId") ++ "-"
                  ++ numToStr r (Fin (inject_Z now)) ++ ".pdf" in
  let filepath := pathJoin invoicesDir [filename] in
  emit (NewDocument "A4" 0 "portrait") ;;
  emit (CreateWriteStream filepath None) ;;
  emit (Pipe filepath) ;;
  ret filename.

Definition openOutput : M string :=
  ensureDirectory ;;
  createOutput.

(** Logo path - try multiple locations *)
Definition logoPaths : list Path :=
  [ pathJoin (dirname env) [".."; ".."; "public"; "Logo.png"];
    pathJoin (dirname env) [".."; ".."; "Logo.png"];
    pathJoin (dirname env) [".."; ".."; "Logo.PNG"] ].

Definition logoPath : option Path := find (existsSync env) logoPaths.

(* ---------------------------------------------------------------- *)
(** HEADER SECTION (lines 83-160) *)

Definition drawLogo : M unit :=
  match logoPath with
  | Some lp =>
      when (existsSync env lp)
        (tryCatch (image env lp logoX logoY logoSize logoSize)
                  (fun error => consoleError "Error loading logo:" error))
  | None => ret tt
  end.

(** Format date properly - check multiple possible date fields *)
Definition dateValue : M JsVal :=
  orElse (field order "createdAt")
    (orElse (field order "orderDate")
       (orElse (field order "date")
          (now <- dateNow env ;; ret (VDate (Some now))))).

Definition formatInvoiceDate : M string :=
  v <- dateValue ;;
  tryCatch
    (ret (toLocaleDateString r (newDate r v)))
    (fun error =>
       consoleError "Error formatting date:" error ;;
       now <- dateNow env ;;
       ret (toLocaleDateString r (Some now))).

Definition headerSection : M unit :=
  drawLogo ;;
  fontSize 36 ;; fontName "Helvetica-Bold" ;;
  fillColor colors.primaryDark ;;
  text env "INVOICE" margin invoiceTitleY (Some contentWidth) (Some AlignCenter) ;;
  fontSize 10 ;; fontName "Helvetica" ;;
  fillColor colors.textSecondary ;;
  text env "Invoice No:" margin invoiceInfoY (Some contentWidth) (Some AlignCenter) ;;
  fontSize 12 ;; fontName "Helvetica-Bold" ;;
  fillColor colors.textPrimary ;;
  text env (toStr r (jsOr (field order "orderId") (VStr "N/A")))
       margin (invoiceInfoY + 15) (Some contentWidth) (Some AlignCenter) ;;
  invoiceDate <- formatInvoiceDate ;;
  fontSize 10 ;; fontName "Helvetica" ;;
  fillColor colors.textSecondary ;;
  text env "Date:" margin (invoiceInfoY + 35) (Some contentWidth) (Some AlignCenter) ;;
  fontSize 12 ;; fontName "Helvetica-Bold" ;;
  fillColor colors.textPrimary ;;
  text env invoiceDate margin (invoiceInfoY + 50) (Some contentWidth) (Some AlignCenter).

(* ---------------------------------------------------------------- *)
(** CUSTOMER DETAILS SECTION (lines 162-226) *)

Definition customerName : JsVal :=
  jsOr (field user "name")
     (jsOr (getOpt (field order "shippingAddress") "name") (VStr "Customer")).
Definition customerAddress : JsVal := field order "shippingAddress".
Definition customerMobile : JsVal :=
  jsOr (field user "mobile")
     (jsOr (getOpt (field order "shippingAddress") "mobile") (VStr "")).
Definition customerEmail : JsVal :=
  jsOr (field user "email")
     (jsOr (getOpt (field order "shippingAddress") "email") (VStr "")).

(** The two optional address lines of the box, each drawn at [currentY],
    which then moves down by 15; returns the updated [currentY]. *)
Definition addressLines (currentY : Q) : M Q :=
  if truthy customerAddress then
    address <- prop env customerAddress "address" ;;
    currentY <- (if truthy address then
                   text env (toStr r address) (margin + 10) currentY (Some 260) None ;;
                   ret (currentY + 15)
                 else ret currentY) ;;
    city <- prop env customerAddress "city" ;;
    state <- prop env customerAddress "state" ;;
    zipCode <- prop env customerAddress "zipCode" ;;
    zip <- (if truthy zipCode then ret VUndef else prop env customerAddress "zip") ;;
    let cityStateZip :=
      joinWith ", "
        (map (toStr r)
             (filter truthy [ jsOr city (VStr ""); jsOr state (VStr "");
                              jsOr (jsOr zipCode zip) (VStr "") ])) in
    if negb (isEmpty cityStateZip) then
      text env cityStateZip (margin + 10) currentY (Some 260) None ;;
      ret (currentY + 15)
    else ret currentY
  else ret currentY.

(** The box of the customer block and its heading (lines 169-183). *)
Definition billToHeading : M unit :=
  rect margin billToBoxY 280 billToBoxHeight ;;
  fillColor colors.background ;;
  fill ;;
  rect margin billToBoxY 280 billToBoxHeight ;;
  strokeColor colors.primaryLight ;;
  lineWidth (15 # 10) ;;
  stroke ;;
  fontSize 12 ;; fontName "Helvetica-Bold" ;;
  fillColor colors.primaryDark ;;
  text env "Bill To:" (margin + 10) (billToBoxY + 10) None None.

(** The name of the customer and the lines below it (lines 185-224). *)
Definition customerLines : M unit :=
  let currentY := billToBoxY + 25 in
  fontSize 11 ;; fontName "Helvetica-Bold" ;;
  fillColor colors.textPrimary ;;
  text env (toStr r customerName) (margin + 10) currentY (Some 260) None ;;
  let currentY := currentY + 18 in
  fontSize 9 ;; fontName "Helvetica" ;;
  fillColor colors.textSecondary ;;
  currentY <- addressLines currentY ;;
  currentY <- (if truthy customerMobile then
                 text env ("Mobile: " ++ toStr r customerMobile)
                      (margin + 10) currentY (Some 260) None ;;
                 ret (currentY + 15)
               else ret currentY) ;;
  when (truthy customerEmail)
    (text env ("Email: " ++ toStr r customerEmail)
          (margin + 10) currentY (Some 260) None).

Definition customerSection : M unit :=
  billToHeading ;;
  customerLines.

(* ---------------------------------------------------------------- *)
(** ITEMS TABLE (lines 228-338) *)

Definition elements (v : JsVal) : list JsVal :=
  match v with VArr l => l | _ => [] end.

(** Validate items array *)
Definition validateItems : M (list JsVal) :=
  let items := field order "items" in
  if negb (truthy items) || negb (isArray items)
     || Nat.eqb (List.length (elements items)) 0
  then throw (Error "Order items are missing or invalid")
  else ret (elements items).

(** The [rgb(r, g, b)] template over the result of [hexToRgb]. *)
Definition rgbTemplate (c : option (Z * Z * Z)) : M string :=
  match c with
  | Some (cr, cg, cb) =>
      ret ("rgb(" ++ decimal cr ++ ", " ++ decimal cg ++ ", " ++ decimal cb ++ ")")
  | None => throw (TypeError "Cannot read properties of null (reading 'r')")
  end.

Definition primaryLightRgb : option (Z * Z * Z) := hexToRgb colors.primaryLight.
Definition primaryDarkRgb : option (Z * Z * Z) := hexToRgb colors.primaryDark.

(** The filled bar and the six column titles; drawn once below the
    customer box and again on every page the rows continue on. *)
Definition tableHeader (barY textY : Q) : M unit :=
  rect margin barY contentWidth headerRowHeight ;;
  c <- rgbTemplate primaryDarkRgb ;;
  fillColor c ;;
  fill ;;
  fontSize 11 ;; fontName "Helvetica-Bold" ;;
  fillColor colors.white ;;
  text env "Item" colItem textY (Some colItemWidth) (Some AlignLeft) ;;
  text env "Size" colSize textY (Some colSizeWidth) (Some AlignCenter) ;;
  text env "Color" colColor textY (Some colColorWidth) (Some AlignCenter) ;;
  text env "Qty" colQty textY (Some colQtyWidth) (Some AlignCenter) ;;
  text env "Price" colPrice textY (Some colPriceWidth) (Some AlignRight) ;;
  text env "Total" colTotal textY (Some colTotalWidth) (Some AlignRight).

(** Check if we need a new page; the position of the row that follows. *)
Definition pageBreak (itemsY : Q) : M Q :=
  if gtb itemsY (pageHeight - 250) then
    addPage ;;
    let itemsY := margin + 20 in
    tableHeader (itemsY - 10) (itemsY - 2) ;;
    ret (itemsY + (headerRowHeight + 12))
  else ret itemsY.

(** The body of [order.items.forEach((item, index) => ...)]; returns the
    updated [itemsY]. *)
Definition itemRow (item : JsVal) (index : nat) (itemsY : Q) : M Q :=
  name <- prop env item "name" ;;
  product <- (if truthy name then ret VUndef else prop env item "product") ;;
  let itemName := jsOr name (jsOr (getOpt product "name") (VStr "Product")) in
  size0 <- prop env item "size" ;;
  let size := jsOr size0 (VStr "-") in
  color0 <- prop env item "color" ;;
  let color := jsOr color0 (VStr "-") in
  quantity0 <- prop env item "quantity" ;;
  let quantity := jsOr quantity0 (VNum (Fin 1)) in
  price0 <- prop env item "price" ;;
  let price := parseFloat r (jsOr price0 (VNum (Fin 0))) in
  let total := mul price (toNumber r quantity) in
  itemsY <- pageBreak itemsY ;;
  itemNameHeight <- measure env (toStr r itemName) colItemWidth ;;
  let rowHeight := mathMax 24 (itemNameHeight + 12) in
  when (Nat.eqb (index mod 2) 0)
    (rect margin (itemsY - 3) contentWidth rowHeight ;;
     fillColor colors.background ;;
     fill) ;;
  fillColor colors.textPrimary ;;
  fontSize 10 ;;
  fontName "Helvetica" ;;
  text env (toStr r itemName) colItem itemsY (Some colItemWidth) (Some AlignLeft) ;;
  text env (toStr r (jsOr size (VStr "-"))) colSize itemsY (Some colSizeWidth) (Some AlignCenter) ;;
  text env (toStr r (jsOr color (VStr "-"))) colColor itemsY (Some colColorWidth) (Some AlignCenter) ;;
  text env (toStr r quantity) colQty itemsY (Some colQtyWidth) (Some AlignCenter) ;;
  text env (rupees r price) colPrice itemsY (Some colPriceWidth) (Some AlignRight) ;;
  text env (rupees r total) colTotal itemsY (Some colTotalWidth) (Some AlignRight) ;;
  ret (itemsY + rowHeight).

Fixpoint forEachItem (items : list JsVal) (index : nat) (itemsY : Q) : M Q :=
  match items with
  | [] => ret itemsY
  | item :: rest =>
      itemsY <- itemRow item index itemsY ;;
      forEachItem rest (S index) itemsY
  end.

Definition itemsTable : M unit :=
  putY tableStartY ;;
  items <- validateItems ;;
  headerY <- getY ;;
  tableHeader headerY (headerY + 10) ;;
  putY (headerY + headerRowHeight + 12) ;;
  itemsY <- getY ;;
  fontSize 10 ;; fontName "Helvetica" ;;
  fillColor colors.textPrimary ;;
  itemsY <- forEachItem items 0 itemsY ;;
  putY (itemsY + 20).

(* ---------------------------------------------------------------- *)
(** TOTALS SECTION (lines 340-396) *)

Definition subtotal : Num := parseFloat r (jsOr (field order "subtotal") (VNum (Fin 0))).
Definition shippingCost : Num := parseFloat r (jsOr (field order "shippingCost") (VNum (Fin 0))).
Definition tax : Num := parseFloat r (jsOr (field order "tax") (VNum (Fin 0))).
Definition grandTotal : Num := parseFloat r (jsOr (field order "total") (VNum (Fin 0))).

(** One label/value pair in the regular style. *)
Definition totalsLine (label : string) (value : Num) (totalsY : Q) : M unit :=
  fillColor colors.textSecondary ;;
  fontSize 10 ;;
  fontName "Helvetica" ;;
  text env label (totalsStartX - totalsLabelWidth - 10) totalsY
       (Some totalsLabelWidth) (Some AlignRight) ;;
  fillColor colors.textPrimary ;;
  fontSize 10 ;;
  fontName "Helvetica" ;;
  text env (rupees r value) totalsStartX totalsY
       (Some totalsValueWidth) (Some AlignRight).

Definition totalsSection : M unit :=
  totalsY <- getY ;;
  fontSize 10 ;; fontName "Helvetica" ;;
  fillColor colors.textSecondary ;;
  text env "Subtotal:" (totalsStartX - totalsLabelWidth - 10) totalsY
       (Some totalsLabelWidth) (Some AlignRight) ;;
  fillColor colors.textPrimary ;;
  fontSize 10 ;;
  fontName "Helvetica" ;;
  text env (rupees r subtotal) totalsStartX totalsY
       (Some totalsValueWidth) (Some AlignRight) ;;
  let totalsY := totalsY + 20 in
  totalsY <- (if gt0 shippingCost then
                totalsLine "Shipping:" shippingCost totalsY ;;
                ret (totalsY + 20)
              else ret totalsY) ;;
  totalsY <- (if gt0 tax then
                totalsLine "Tax (GST):" tax totalsY ;;
                ret (totalsY + 20)
              else ret totalsY) ;;
  let totalsY := totalsY + 8 in
  fontSize 13 ;; fontName "Helvetica-Bold" ;;
  fillColor colors.primaryDark ;;
  text env "Total:" (totalsStartX - totalsLabelWidth - 10) totalsY
       (Some totalsLabelWidth) (Some AlignRight) ;;
  fontSize 13 ;;
  fontName "Helvetica-Bold" ;;
  fillColor colors.textPrimary ;;
  text env (rupees r grandTotal) totalsStartX totalsY
       (Some totalsValueWidth) (Some AlignRight) ;;
  putY (totalsY + 30).

(* ---------------------------------------------------------------- *)
(** FOOTER SECTION (lines 398-428) *)

Definition footerSection : M unit :=
  y <- getY ;;
  let footerY := y + 20 in
  fontSize 18 ;; fontName "Helvetica-Bold" ;;
  fillColor colors.primaryDark ;;
  text env "Thank You for Shopping with Arudhra Fashions!" margin footerY
       (Some contentWidth) (Some AlignCenter) ;;
  let footerTextY := footerY + 30 in
  fontSize 9 ;; fontName "Helvetica" ;;
  fillColor colors.textSecondary ;;
  opacity (8 # 10) ;;
  text env "This computer-generated document is valid without signature or company stamp."
       margin footerTextY (Some contentWidth) (Some AlignCenter) ;;
  opacity 1 ;;
  let brandY := footerTextY + 25 in
  fontSize 15 ;; fontName "Times-Italic" ;;
  fillColor colors.primaryDark ;;
  text env "Arudhra Fashions" (pageWidth - margin - 150) brandY
       (Some 150) (Some AlignRight).

(* ---------------------------------------------------------------- *)
(** The synchronous body of the promise executor (the [try] block). *)

Definition render : M string :=
  filename <- openOutput ;;
  headerSection ;;
  customerSection ;;
  itemsTable ;;
  totalsSection ;;
  footerSection ;;
  endDocument ;;
  ret filename.

(** [generateInvoicePDF(order, user)]: the events caused and how the
    promise settles.  A throw in the body rejects at once; otherwise the
    stream's [finish] resolves with the reference and its [error]
    rejects. *)
Definition generateInvoicePDF : Settled * list Event :=
  match render initial with
  | (Ok filename, events, _) =>
      match streamError env with
      | None => (Resolved ("/uploads/invoices/" ++ filename), events)
      | Some msg => (Rejected (SystemError msg), events)
      end
  | (Throw error, events, _) => (Rejected error, events)
  end.

End Render.

(* ---------------------------------------------------------------- *)
(** Arguments of any value.

    The JSDoc asks for objects, and the sections above take [order] and
    [user] as such.  JavaScript passes whatever the caller has.  Reading a
    property of [undefined] or [null] throws a TypeError; reading one of
    any other value does not, and gives [undefined] unless the value is an
    object that has it.  The first property the code reads of [order] is
    [order.orderId], for the file name (line 48); the first it reads of
    [user] is [user.name], in the customer block (line 187).  A value that
    passes its first read is neither [undefined] nor null, and is read as
    an object from then on. *)


Section Arguments.
Variable env : Env.
Variables order user : JsVal.





End Arguments.

End Invoice.

(* ================================================================== *)
(** ** Password reset: [authRoutes.js] *)
(* ================================================================== *)

Module Auth.

Import Js.
Local Open Scope string_scope.
Local Open Scope Z_scope.

(** The columns of the [User] model the two routes touch. *)
Record User : Type := {
  id : Z;
  email : string;
  name : string;
  password : string;
  passwordResetToken : option string;
  passwordResetExpires : option Z
}.

(** The users table.  Queries and saves are taken not to fail. *)
Definition Db : Type := list User.

Record Response : Type := {
  status : Z;
  message : string;
  (** the two extra fields of the development-mode reply *)
  resetToken : option string;
  resetLink : option string
}.

Definition reply (code : Z) (msg : string) : Response :=
  {| status := code; message := msg; resetToken := None; resetLink := None |}.

Inductive Effect : Type :=
| SendPasswordResetEmail (to token userName : string)
| ConsoleLog (msg : string)
| ConsoleError (msg : string).

Record Env : Type := {
  (** [crypto.createHash('sha256').update(s).digest('hex')] *)
  sha256 : string -> string;
  (** [crypto.randomBytes(32).toString('hex')] of this request *)
  randomHex : string;
  (** [Date.now()], the time of [new Date()] *)
  now : Z;
  (** [process.env.NODE_ENV] and [process.env.FRONTEND_URL] *)
  nodeEnv : option string;
  frontendUrl : option string;
  (** the error [sendPasswordResetEmail] raises, if it does *)
  mailError : option string
}.

(** [String.prototype.trim] *)
Definition trim (s : string) : string := trimRight (skipWhite s).

(** [/^[^\s@]+@[^\s@]+\.[^\s@]+$/.test(s)] *)
Definition plainChar (c : ascii) : bool := negb (isWhite c) && negb (Ascii.eqb c "@").

Fixpoint allPlain (s : string) : bool :=
  match s with
  | EmptyString => true
  | String c r => plainChar c && allPlain r
  end.

Fixpoint splitAtSign (s : string) : option (string * string) :=
  match s with
  | EmptyString => None
  | String c r =>
      if Ascii.eqb c "@" then Some (EmptyString, r)
      else match splitAtSign r with
           | Some (l, t) => Some (String c l, t)
           | None => None
           end
  end.

Fixpoint dotThenMore (s : string) : bool :=
  match s with
  | EmptyString => false
  | String c r => (Ascii.eqb c "." && negb (isEmpty r)) || dotThenMore r
  end.

Definition validEmail (s : string) : bool :=
  match splitAtSign s with
  | Some (l, String c r) =>
      negb (isEmpty l) && allPlain l && allPlain (String c r) && dotThenMore r
  | _ => false
  end.

(** [user.save()]: the row with the user's primary key is replaced. *)
Definition save (u : User) (db : Db) : Db :=
  map (fun v => if id v =? id u then u else v) db.

(** [Op.gt] on a nullable timestamp column. *)
Definition laterThan (t : Z) (column : option Z) : bool :=
  match column with
  | Some e => t <? e
  | None => false
  end.

Definition sameToken (h : string) (column : option string) : bool :=
  match column with
  | Some x => String.eqb x h
  | None => false
  end.

Section Routes.
Variable env : Env.

(** POST /api/auth/forgot-password *)
Definition forgotPassword (db : Db) (bodyEmail : option string)
  : Response * Db * list Effect :=
  let trimmedEmail := match bodyEmail with Some e => trim e | None => "" end in
  if isEmpty trimmedEmail then
    (reply 400 "Please provide an email address", db, [])
  else if negb (validEmail trimmedEmail) then
    (reply 400 "Please provide a valid email address.", db, [])
  else
    match find (fun u => String.eqb (email u) trimmedEmail) db with
    | None => (reply 404 "No account found with that email address.", db, [])
    | Some user =>
        let resetToken := randomHex env in
        let hashedResetToken := sha256 env resetToken in
        let resetTokenExpires := now env + 60 * 60 * 1000 in
        let frontendUrl :=
          match frontendUrl env with
          | Some u => if isEmpty u then "http://localhost:5173" else u
          | None => "http://localhost:5173"
          end in
        let resetLink := frontendUrl ++ "/reset-password?token=" ++ resetToken in
        let user' := {| id := id user; email := email user; name := name user;
                        password := password user;
                        passwordResetToken := Some hashedResetToken;
                        passwordResetExpires := Some resetTokenExpires |} in
        let db' := save user' db in
        match mailError env with
        | Some msg =>
            (reply 500 "Server error", db', [ConsoleError "Forgot password error:"])
        | None =>
            let mail := SendPasswordResetEmail (email user') resetToken (name user') in
            let development :=
              match nodeEnv env with
              | Some e => String.eqb e "development"
              | None => false
              end in
            if development then
              ({| status := 200;
                  message := "Password reset instructions have been sent to your email address";
                  resetToken := Some resetToken;
                  resetLink := Some resetLink |},
               db',
               [ mail;
                 ConsoleLog ("Password reset requested for email: " ++ trimmedEmail);
                 ConsoleLog ("Reset token (for development): " ++ resetToken);
                 ConsoleLog ("Reset link: " ++ resetLink) ])
            else
              (reply 200 "Password reset instructions have been sent to your email address",
               db', [mail])
        end
    end.

(** POST /api/auth/reset-password *)
Definition resetPassword (db : Db) (bodyToken bodyNewPassword : option string)
  : Response * Db :=
  match bodyToken, bodyNewPassword with
  | Some token, Some newPassword =>
      if isEmpty token || isEmpty newPassword then
        (reply 400 "Token and new password are required", db)
      else if (strlen newPassword <? 8)%nat then
        (reply 400 "Password must be at least 8 characters", db)
      else
        let hashedToken := sha256 env token in
        match find (fun u => sameToken hashedToken (passwordResetToken u)
                             && laterThan (now env) (passwordResetExpires u)) db with
        | None => (reply 400 "Reset token is invalid or has expired", db)
        | Some user =>
            let user' := {| id := id user; email := email user; name := name user;
                            password := newPassword;
                            passwordResetToken := None;
                            passwordResetExpires := None |} in
            (reply 200 "Password reset successful", save user' db)
        end
  | _, _ => (reply 400 "Token and new password are required", db)
  end.

End Routes.

End Auth.

(* ================================================================== *)
(** ** Session tokens: [generateToken] *)
(* ================================================================== *)

Module Token.

Import Js.
Local Open Scope string_scope.
Local Open Scope Z_scope.

(** An error object, as a [catch] block sees it. *)
Record JsError : Type := {
  errorName : string;
  errorMessage : string
}.

Record Env : Type := {
  (** [process.env.JWT_SECRET] *)
  JWT_SECRET : option string;
  (** [jwt.sign({ id }, secret, { expiresIn: '30d' })] at the time of the
      call.  The library stamps the token with the clock ([iat], [exp]):
      an [Env] stands for one moment, and two requests served at
      different times are served under two environments, whose tokens
      for one key need not agree. *)
  sign : Z -> string -> string
}.

Definition configurationError : JsError := {|
  errorName := "ConfigurationError";
  errorMessage :=
    "JWT_SECRET is not configured. Set JWT_SECRET in your environment variables before starting the server."
|}.

Definition generateToken (env : Env) (id : Z) : JsError + string :=
  match JWT_SECRET env with
  | None => inl configurationError
  | Some jwtSecret =>
      if isEmpty jwtSecret || isEmpty (Auth.trim jwtSecret) then inl configurationError
      else inr (sign env id jwtSecret)
  end.

End Token.

(* ================================================================== *)
(** ** Accounts: the other routes of [authRoutes.js]

    Request fields are strings or absent, as for the password-reset routes.
    Queries, [save] and [update] are taken not to fail; [User.create] can,
    since the handler tells its errors apart.  The [User] model itself is
    not part of the routes: what it contributes ([create], [matchPassword])
    is a field of [Env], and a column holds the value the route assigned
    to it. *)
(* ================================================================== *)

Module Accounts.

Import Js.
Local Open Scope string_scope.
Local Open Scope Z_scope.

(** A row of the users table: the columns of [Auth.User], the mobile
    number and the JSON column of preferences ([null] or an object). *)
Record Account : Type := {
  base : Auth.User;
  mobile : string;
  preferences : option Obj
}.

Definition Table : Type := list Account.

Definition id (a : Account) : Z := Auth.id (base a).
Definition email (a : Account) : string := Auth.email (base a).
Definition name (a : Account) : string := Auth.name (base a).
Definition password (a : Account) : string := Auth.password (base a).

(** Assignments to a column of an instance. *)
Definition setName (n : string) (a : Account) : Account := {|
  base := {| Auth.id := id a; Auth.email := email a; Auth.name := n;
             Auth.password := password a;
             Auth.passwordResetToken := Auth.passwordResetToken (base a);
             Auth.passwordResetExpires := Auth.passwordResetExpires (base a) |};
  mobile := mobile a;
  preferences := preferences a
|}.

Definition setEmail (e : string) (a : Account) : Account := {|
  base := {| Auth.id := id a; Auth.email := e; Auth.name := name a;
             Auth.password := password a;
             Auth.passwordResetToken := Auth.passwordResetToken (base a);
             Auth.passwordResetExpires := Auth.passwordResetExpires (base a) |};
  mobile := mobile a;
  preferences := preferences a
|}.

Definition setPassword (p : string) (a : Account) : Account := {|
  base := {| Auth.id := id a; Auth.email := email a; Auth.name := name a;
             Auth.password := p;
             Auth.passwordResetToken := Auth.passwordResetToken (base a);
             Auth.passwordResetExpires := Auth.passwordResetExpires (base a) |};
  mobile := mobile a;
  preferences := preferences a
|}.

Definition setMobile (m : string) (a : Account) : Account := {|
  base := base a; mobile := m; preferences := preferences a
|}.

Definition setPreferences (p : Obj) (a : Account) : Account := {|
  base := base a; mobile := mobile a; preferences := Some p
|}.

(** [user.save()] and [user.update(...)]: the row with the instance's
    primary key is replaced. *)
Definition save (a : Account) (table : Table) : Table :=
  map (fun v => if id v =? id a then a else v) table.

(** [User.findByPk(id)] *)
Definition findByPk (k : Z) (table : Table) : option Account :=
  find (fun a => id a =? k) table.

Inductive Body : Type :=
| Message (message : string)
  (** [{ _id, id, mobile, name, email, token }] *)
| Session (_id id : Z) (mobile name email token : string)
  (** [user.toJSON()] *)
| Profile (user : Account)
| Preferences (preferences : Obj).

Record Response : Type := {
  status : Z;
  body : Body
}.

Definition reply (code : Z) (msg : string) : Response :=
  {| status := code; body := Message msg |}.

Definition session (code : Z) (user : Account) (token : string) : Response :=
  {| status := code;
     body := Session (id user) (id user) (mobile user) (name user) (email user) token |}.

Inductive Effect : Type :=
| ConsoleError (label : string) (error : Token.JsError).

Record Env : Type := {
  tokens : Token.Env;
  (** the instance [User.create] starts from: the primary key the database
      assigns and the model's defaults for the columns the route does not
      give *)
  fresh : Account;
  (** the error [User.create] raises, if it does *)
  createError : option Token.JsError;
  (** [user.matchPassword(entered)] *)
  matchPassword : Account -> string -> bool
}.

(** [v?.trim() || ''] *)
Definition trimmed (v : option string) : string :=
  match v with
  | Some s => Auth.trim s
  | None => ""
  end.

(** Truthiness of a field. *)
Definition present (v : option string) : bool :=
  match v with
  | Some s => negb (isEmpty s)
  | None => false
  end.

(** [!v || v.trim() === ''] *)
Definition isBlank (v : option string) : bool :=
  match v with
  | Some s => isEmpty s || isEmpty (Auth.trim s)
  | None => true
  end.

(** [/^[0-9]+$/.test(s)] *)
Definition digitsOnly (s : string) : bool := negb (isEmpty s) && allDigits s.

Section Routes.
Variable env : Env.

(** [User.create({ mobile, password, name, email })] *)
Definition created (mobile password name email : string) : Account :=
  setEmail email (setName name (setPassword password (setMobile mobile (fresh env)))).

(** The [catch] block of [register]. *)
Definition registerFailed (error : Token.JsError) (table : Table)
  : Response * Table * list Effect :=
  (if String.eqb (Token.errorName error) "SequelizeUniqueConstraintError"
   then reply 400 "Mobile number or email already registered"
   else reply 500 "Server error",
   table, [ConsoleError "Register error:" error]).

(** POST /api/auth/register.  [User.create] resolves to the instance, so
    the branch answering [Invalid user data] is not reached. *)
Definition register (table : Table) (mobile password name email : option string)
  : Response * Table * list Effect :=
  let trimmedMobile := trimmed mobile in
  let trimmedEmail := trimmed email in
  if isEmpty trimmedMobile || isEmpty trimmedEmail then
    (reply 400 "Please provide both mobile number and email address", table, [])
  else
    match password, name with
    | Some password, Some name =>
        if isEmpty password || isEmpty name then
          (reply 400 "Please provide password and name", table, [])
        else if negb (Nat.eqb (strlen trimmedMobile) 10) || negb (digitsOnly trimmedMobile) then
          (reply 400 "Please enter a valid 10-digit mobile number", table, [])
        else if negb (Auth.validEmail trimmedEmail) then
          (reply 400 "Please enter a valid email address", table, [])
        else if (strlen password <? 8)%nat then
          (reply 400 "Password must be at least 8 characters", table, [])
        else
          match find (fun u => String.eqb (Accounts.mobile u) trimmedMobile) table with
          | Some _ => (reply 400 "Mobile number already registered", table, [])
          | None =>
              match find (fun u => String.eqb (Accounts.email u) trimmedEmail) table with
              | Some _ => (reply 400 "Email address already registered", table, [])
              | None =>
                  match createError env with
                  | Some error => registerFailed error table
                  | None =>
                      let user := created trimmedMobile password name trimmedEmail in
                      let table' := (table ++ [user])%list in
                      match Token.generateToken (tokens env) (id user) with
                      | inr token => (session 201 user token, table', [])
                      | inl error => registerFailed error table'
                      end
                  end
              end
          end
    | _, _ => (reply 400 "Please provide password and name", table, [])
    end.

(** POST /api/auth/login *)
Definition login (table : Table) (mobile email password : option string)
  : Response * list Effect :=
  if isBlank mobile && isBlank email then
    (reply 400 "Please provide mobile number or email address", [])
  else
    match password with
    | Some password =>
        if isEmpty password then (reply 400 "Please provide password", [])
        else
          let user :=
            match mobile with
            | Some m =>
                if negb (isEmpty m) then
                  find (fun u => String.eqb (Accounts.mobile u) m) table
                else
                  match email with
                  | Some e =>
                      if negb (isEmpty e) then
                        find (fun u => String.eqb (Accounts.email u) e) table
                      else None
                  | None => None
                  end
            | None =>
                match email with
                | Some e =>
                    if negb (isEmpty e) then
                      find (fun u => String.eqb (Accounts.email u) e) table
                    else None
                | None => None
                end
            end in
          match user with
          | Some user =>
              if matchPassword env user password then
                match Token.generateToken (tokens env) (id user) with
                | inr token => (session 200 user token, [])
                | inl error =>
                    (reply 500 "Server error", [ConsoleError "Login error:" error])
                end
              else (reply 401 "Invalid credentials", [])
          | None => (reply 401 "Invalid credentials", [])
          end
    | None => (reply 400 "Please provide password", [])
    end.

(** PUT /api/auth/profile, for the authenticated user [userId]. *)
Definition updateProfile (table : Table) (userId : Z) (name email : option string)
  : Response * Table :=
  match findByPk userId table with
  | Some user =>
      let user := match name with
                  | Some n => if negb (isEmpty n) then setName n user else user
                  | None => user
                  end in
      let user := match email with
                  | Some e => if negb (isEmpty e) then setEmail e user else user
                  | None => user
                  end in
      ({| status := 200; body := Profile user |}, save user table)
  | None => (reply 404 "User not found", table)
  end.

(** PUT /api/auth/change-password, for the authenticated user [userId]. *)
Definition changePassword (table : Table) (userId : Z)
    (currentPassword newPassword : option string) : Response * Table :=
  match currentPassword, newPassword with
  | Some currentPassword, Some newPassword =>
      if isEmpty currentPassword || isEmpty newPassword then
        (reply 400 "Please provide both current and new password", table)
      else if (strlen newPassword <? 8)%nat then
        (reply 400 "Password must be at least 8 characters", table)
      else
        match findByPk userId table with
        | None => (reply 404 "User not found", table)
        | Some user =>
            if negb (matchPassword env user currentPassword) then
              (reply 401 "Current password is incorrect", table)
            else
              (reply 200 "Password changed successfully",
               save (setPassword newPassword user) table)
        end
  | _, _ => (reply 400 "Please provide both current and new password", table)
  end.

End Routes.

(** The preferences of a user who has none stored. *)
Definition defaultPreferences : Obj :=
  [ ("emailNotifications", VBool true);
    ("smsNotifications", VBool false);
    ("newsletter", VBool false) ].

(** [user.preferences || { ... }] *)
Definition currentPreferences (user : Account) : Obj :=
  match preferences user with
  | Some p => p
  | None => defaultPreferences
  end.

(** Defining the property [k] of an object literal: an existing property
    keeps its place and takes the new value, a new one goes last. *)
Fixpoint assign (k : string) (v : JsVal) (o : Obj) : Obj :=
  match o with
  | [] => [(k, v)]
  | (k', v') :: r => if String.eqb k' k then (k, v) :: r else (k', v') :: assign k v r
  end.

(** [...(v !== undefined && { k: v })] *)
Definition spreadDefined (k : string) (v : JsVal) (o : Obj) : Obj :=
  match v with
  | VUndef => o
  | _ => assign k v o
  end.

(** GET /api/auth/preferences *)
Definition getPreferences (table : Table) (userId : Z) : Response :=
  match findByPk userId table with
  | None => reply 404 "User not found"
  | Some user => {| status := 200; body := Preferences (currentPreferences user) |}
  end.

(** PUT /api/auth/preferences.  The three fields of the body are any JSON
    values, [VUndef] when absent. *)
Definition updatePreferences (table : Table) (userId : Z)
    (emailNotifications smsNotifications newsletter : JsVal) : Response * Table :=
  match findByPk userId table with
  | None => (reply 404 "User not found", table)
  | Some user =>
      let updatedPreferences :=
        spreadDefined "newsletter" newsletter
          (spreadDefined "smsNotifications" smsNotifications
             (spreadDefined "emailNotifications" emailNotifications
                (currentPreferences user))) in
      ({| status := 200; body := Preferences updatedPreferences |},
       save (setPreferences updatedPreferences user) table)
  end.

End Accounts.

(* ================================================================== *)
(** ** The server: CORS and the diagnostic endpoints of [server.js] *)
(* ================================================================== *)

Module Server.

Import Js.
Local Open Scope string_scope.
Local Open Scope Z_scope.

Record Config : Type := {
  (** [process.env.FRONTEND_URL] and [process.env.ADMIN_URL] *)
  FRONTEND_URL : option string;
  ADMIN_URL : option string
}.

(** [process.env.X || d] *)
Definition envOr (v : option string) (d : string) : string :=
  match v with
  | Some s => if isEmpty s then d else s
  | None => d
  end.

Definition allowedOrigins (cfg : Config) : list string :=
  [ envOr (FRONTEND_URL cfg) "https://arudhrafashions.com";
    envOr (ADMIN_URL cfg) (envOr (FRONTEND_URL cfg) "https://arudhrafashions.com");
    "http://localhost:5173" ].

(** [Array.prototype.includes] on strings. *)
Definition includes (l : list string) (s : string) : bool := existsb (String.eqb s) l.

(** [String.prototype.endsWith] *)
Definition endsWith (s suffix : string) : bool :=
  (strlen suffix <=? strlen s)%nat
  && String.eqb (substring (strlen s - strlen suffix) (strlen suffix) s) suffix.

Record Request : Type := {
  method : string;
  (** [req.headers.origin] *)
  origin : option string
}.

(** Response headers set so far, latest value per name. *)
Definition Headers : Type := list (string * string).

Fixpoint setHeader (k v : string) (hs : Headers) : Headers :=
  match hs with
  | [] => [(k, v)]
  | (k', v') :: r => if String.eqb k' k then (k, v) :: r else (k', v') :: setHeader k v r
  end.

Fixpoint header (hs : Headers) (k : string) : option string :=
  match hs with
  | [] => None
  | (k', v) :: r => if String.eqb k' k then Some v else header r k
  end.

Inductive Payload : Type :=
  (** [res.sendStatus(code)]: the status text as the body *)
| StatusText (text : string)
  (** [res.json(value)] *)
| Json (value : JsVal).

Record Response : Type := {
  status : Z;
  headers : Headers;
  payload : Payload
}.

(** What a middleware does: hands over to the next one, or answers. *)
Inductive Handled : Type :=
| Next (headers : Headers)
| Sent (response : Response).

Definition isAllowed (cfg : Config) (origin : string) : bool :=
  includes (allowedOrigins cfg) origin || endsWith origin ".arudhrafashions.com".

(** Dynamic CORS middleware: reflect allowed origins and handle preflight
    requests. *)
Definition corsMiddleware (cfg : Config) (req : Request) (hs : Headers) : Handled :=
  match origin req with
  | None => Next hs
  | Some origin =>
      if isEmpty origin then Next hs
      else if isAllowed cfg origin then
        let hs := setHeader "Access-Control-Allow-Origin" origin hs in
        let hs := setHeader "Access-Control-Allow-Credentials" "true" hs in
        let hs := setHeader "Access-Control-Allow-Methods" "GET,POST,PUT,DELETE,OPTIONS" hs in
        let hs := setHeader "Access-Control-Allow-Headers" "Content-Type,Authorization" hs in
        if String.eqb (method req) "OPTIONS" then
          Sent {| status := 200; headers := hs; payload := StatusText "OK" |}
        else Next hs
      else Next hs
  end.

(** Mark API responses so we can verify requests reach the backend server *)
Definition servedBy (hs : Headers) : Headers :=
  setHeader "X-Served-By" "arudhra-backend" hs.

(** [req.headers.origin || d] *)
Definition originOr (req : Request) (d : string) : string :=
  match origin req with
  | Some o => if isEmpty o then d else o
  | None => d
  end.

(** [app.options('/api/diagnostic', ...)] *)
Definition diagnosticOptions (req : Request) (hs : Headers) : Response :=
  let hs := setHeader "Access-Control-Allow-Origin" (originOr req "*") hs in
  let hs := setHeader "Access-Control-Allow-Methods" "GET,POST,PUT,DELETE,OPTIONS" hs in
  let hs := setHeader "Access-Control-Allow-Headers" "Content-Type,Authorization" hs in
  let hs := setHeader "Access-Control-Allow-Credentials" "true" hs in
  {| status := 200; headers := hs; payload := StatusText "OK" |}.

(** [app.get('/api/diagnostic', ...)] *)
Definition diagnosticGet (req : Request) (hs : Headers) : Response :=
  {| status := 200; headers := hs;
     payload := Json (VObj [ ("ok", VBool true);
                             ("servedBy", VStr "arudhra-backend");
                             ("originHeader",
                              match origin req with
                              | Some o => if isEmpty o then VNull else VStr o
                              | None => VNull
                              end) ]) |}.

(** [app.get('/api/health', ...)] *)
Definition health (hs : Headers) : Response :=
  {| status := 200; headers := hs;
     payload := Json (VObj [ ("status", VStr "OK");
                             ("message", VStr "Arudhra Fashions API is running") ]) |}.

(** A request for [/api/diagnostic] passes, in the order of registration,
    the CORS middleware, the body parsers (which leave the response alone),
    the [/api] marker and the handler registered for its method; [GET]
    handlers serve [HEAD] too.  [None]: no handler of this file answers. *)
Definition diagnostic (cfg : Config) (req : Request) : option Response :=
  match corsMiddleware cfg req [] with
  | Sent response => Some response
  | Next hs =>
      let hs := servedBy hs in
      if String.eqb (method req) "OPTIONS" then Some (diagnosticOptions req hs)
      else if String.eqb (method req) "GET" || String.eqb (method req) "HEAD" then
        Some (diagnosticGet req hs)
      else None
  end.

(** The same for [/api/health], where only [GET] is registered. *)
Definition healthCheck (cfg : Config) (req : Request) : option Response :=
  match corsMiddleware cfg req [] with
  | Sent response => Some response
  | Next hs =>
      let hs := servedBy hs in
      if String.eqb (method req) "GET" || String.eqb (method req) "HEAD" then
        Some (health hs)
      else None
  end.

End Server.

(* ================================================================== *)
(** ** Vocabulary of the properties

    The accumulation of column offsets and the pagination rule follow the
    words of the specification.  The lists of events name what each section
    of the code draws; they are proved below to be the events of the code. *)
(* ================================================================== *)

Import Js Pdf Invoice.
Local Open Scope Q_scope.

(** Column offsets as the specification words them: the first column at
    [x], every next one after the width of the previous one and the gap. *)
Fixpoint accumulatedOffsets (x gap : Q) (widths : list Q) : list Q :=
  match widths with
  | [] => []
  | w :: rest => x :: accumulatedOffsets (x + w + gap) gap rest
  end.

(** The near-bottom threshold and the position of the first row. *)
Definition threshold : Q := pageHeight - 250.
Definition firstRowY : Q := tableStartY + headerRowHeight + 12.

(** The state between two statements of the service: no pending path and
    full opacity. *)
Definition clean (s : St) : Prop := gPath s = [] /\ gOpacity s = 1.

(** A value whose properties can be read. *)
Definition isObject (v : JsVal) : bool :=
  match v with VUndef | VNull => false | _ => true end.

(** The condition of the items check. *)
Definition itemsInvalid (order : Obj) : bool :=
  let items := field order "items" in
  negb (truthy items) || negb (isArray items)
  || Nat.eqb (List.length (elements items)) 0.

(** A body cell and a header cell of the table. *)
Definition cell (str : string) (x y w : Q) (a : Align) : Event :=
  Text {| content := str; tx := x; ty := y; width := Some w; align := Some a;
          font := "Helvetica"; size := 10; color := colors.textPrimary; alpha := 1 |}.

Definition headerCell (str : string) (x y w : Q) (a : Align) : Event :=
  Text {| content := str; tx := x; ty := y; width := Some w; align := Some a;
          font := "Helvetica-Bold"; size := 11; color := colors.white; alpha := 1 |}.

(** The header row: the filled bar and the six column titles. *)
Definition headerEvents (barY textY : Q) : list Event :=
  [ Fill [{| rx := margin; ry := barY; rw := contentWidth; rh := headerRowHeight |}]
         "rgb(122, 80, 81)";
    headerCell "Item" colItem textY colItemWidth AlignLeft;
    headerCell "Size" colSize textY colSizeWidth AlignCenter;
    headerCell "Color" colColor textY colColorWidth AlignCenter;
    headerCell "Qty" colQty textY colQtyWidth AlignCenter;
    headerCell "Price" colPrice textY colPriceWidth AlignRight;
    headerCell "Total" colTotal textY colTotalWidth AlignRight ].

(** The header row of a continuation page, near its top margin. *)
Definition continuationHeader : list Event :=
  headerEvents (margin + 20 - 10) (margin + 20 - 2).

(** What a row shows of its item. *)
Definition itemName (item : JsVal) : JsVal :=
  jsOr (getOpt item "name") (jsOr (getOpt (getOpt item "product") "name") (VStr "Product")).
Definition itemPrice (r : Runtime) (item : JsVal) : Num :=
  parseFloat r (jsOr (getOpt item "price") (VNum (Fin 0))).
Definition itemQuantity (item : JsVal) : JsVal :=
  jsOr (getOpt item "quantity") (VNum (Fin 1)).
Definition lineTotal (r : Runtime) (item : JsVal) : Num :=
  mul (itemPrice r item) (toNumber r (itemQuantity item)).

(** The six cells of the row of [item], all at height [y]. *)
Definition cellEvents (r : Runtime) (item : JsVal) (y : Q) : list Event :=
  [ cell (toStr r (itemName item)) colItem y colItemWidth AlignLeft;
    cell (toStr r (jsOr (getOpt item "size") (VStr "-"))) colSize y colSizeWidth AlignCenter;
    cell (toStr r (jsOr (getOpt item "color") (VStr "-"))) colColor y colColorWidth AlignCenter;
    cell (toStr r (itemQuantity item)) colQty y colQtyWidth AlignCenter;
    cell (rupees r (itemPrice r item)) colPrice y colPriceWidth AlignRight;
    cell (rupees r (lineTotal r item)) colTotal y colTotalWidth AlignRight ].

(** Where a row is drawn when the cursor is at [y] before it. *)
Definition rowY (y : Q) : Q :=
  if gtb y threshold then margin + 20 + (headerRowHeight + 12) else y.

Definition breakEvents (y : Q) : list Event :=
  if gtb y threshold then AddPage :: continuationHeader else [].

Definition rowHeight (env : Env) (item : JsVal) (y : Q) (s : St) : Q :=
  mathMax 24 (heightOfString env (toStr (rt env) (itemName item)) (Some colItemWidth)
            (if gtb y threshold then "Helvetica-Bold" else gFont s)
            (if gtb y threshold then 11%Z else gSize s) + 12).

(** The background of every other row. *)
Definition stripeEvents (index : nat) (y h : Q) : list Event :=
  if Nat.eqb (index mod 2) 0 then
    [Fill [{| rx := margin; ry := y - 3; rw := contentWidth; rh := h |}] colors.background]
  else [].

(** The pagination rule of the specification, as a relation between the
    items, the index of the first of them, the cursor before it and the
    events of the table body: before each row the cursor is compared with
    the threshold; past it, a page is added and the header row redrawn
    before the row; the six cells of a row follow each other at one height,
    and the cursor moves down by the height of the row, at least 24.  The
    rule leaves the height of a row open beyond that; [rowsEvents] below
    gives the rows with the heights the code computes. *)
Inductive Paginated (r : Runtime) : list JsVal -> nat -> Q -> list Event -> Prop :=
| PaginatedEnd : forall index y, Paginated r [] index y []
| PaginatedRow : forall item rest index y h events,
    gtb y threshold = false ->
    24 <= h ->
    Paginated r rest (S index) (y + h) events ->
    Paginated r (item :: rest) index y
      (stripeEvents index y h ++ cellEvents r item y ++ events)%list
| PaginatedBreak : forall item rest index y h events,
    gtb y threshold = true ->
    24 <= h ->
    Paginated r rest (S index) (rowY y + h) events ->
    Paginated r (item :: rest) index y
      (AddPage :: continuationHeader
       ++ stripeEvents index (rowY y) h ++ cellEvents r item (rowY y) ++ events)%list.

(** The pages the code starts: the one the document begins with and one
    for each [doc.addPage()].  This is not the number of pages of the
    file: PDFKit starts pages of its own when a text reaches the lower
    edge of the page, and those are not calls of the code.  So the file
    has at least this many pages. *)
Fixpoint pagesStarted (events : list Event) : nat :=
  match events with
  | [] => 1
  | AddPage :: rest => S (pagesStarted rest)
  | _ :: rest => pagesStarted rest
  end.

(** The height of the row of [item] when the cursor is at [y] before it:
    24 points, or the height of the name in its column and 12 more when
    that is greater.  The name is measured in the font in force when the
    row starts: the 10 point regular of the rows, but the 11 point bold of
    the header row when the row is the first of a page the code starts. *)
Definition rowHeightAt (env : Env) (item : JsVal) (y : Q) : Q :=
  mathMax 24
    (heightOfString env (toStr (rt env) (itemName item)) (Some colItemWidth)
       (if gtb y threshold then "Helvetica-Bold" else "Helvetica")
       (if gtb y threshold then 11%Z else 10%Z) + 12).

(** The events of the rows of [items], the first of them of index [index],
    with the cursor at [y] before it: for each row the page break if the
    cursor is past the threshold, the stripe of an even row, the six
    cells; the cursor then moves down by the height of the row. *)
Fixpoint rowsEvents (env : Env) (items : list JsVal) (index : nat) (y : Q) : list Event :=
  match items with
  | [] => []
  | item :: rest =>
      (breakEvents y
       ++ stripeEvents index (rowY y) (rowHeightAt env item y)
       ++ cellEvents (rt env) item (rowY y)
       ++ rowsEvents env rest (S index) (rowY y + rowHeightAt env item y))%list
  end.

(** The height of a text as PDFKit measures it: [doc.heightOfString] of
    its content in its width, font and size. *)
Definition textHeight (env : Env) (t : TextRun) : Q :=
  heightOfString env (content t) (width t) (font t) (size t).

(** A text ends at or above the lower edge of the page: it lies wholly on
    the page it starts on.  A text that does not is one PDFKit continues
    on a page of its own. *)
Definition endsOnPage (env : Env) (e : Event) : Prop :=
  match e with
  | Text t => ty t + textHeight env t <= pageHeight
  | _ => True
  end.

(** A text ends on the page if it is at most [h] high. *)
Definition endsOnPageWithin (env : Env) (h : Q) (e : Event) : Prop :=
  match e with
  | Text t => textHeight env t <= h -> ty t + textHeight env t <= pageHeight
  | _ => True
  end.

(** A text starts at [y] or above. *)
Definition startsBy (y : Q) (e : Event) : Prop :=
  match e with
  | Text t => ty t <= y
  | _ => True
  end.

(** The strings drawn, in order. *)
Fixpoint contents (events : list Event) : list string :=
  match events with
  | [] => []
  | Text t :: rest => content t :: contents rest
  | _ :: rest => contents rest
  end.

(** The name of the output file when the clock is read for the [n]-th time. *)
Definition fileName (env : Env) (order : Obj) (n : nat) : string :=
  ("invoice-" ++ toStr (rt env) (field order "orderId") ++ "-"
   ++ numToStr (rt env) (Fin (inject_Z (clock (rt env) n))) ++ ".pdf")%string.

(** The events of opening the output. *)
Definition openEvents (env : Env) (order : Obj) (n : nat) : list Event :=
  ((if existsSync env (invoicesDir env) then [] else [Mkdir (invoicesDir env)])
   ++ [ NewDocument "A4" 0 "portrait";
        CreateWriteStream (pathJoin (invoicesDir env) [fileName env order n]) None;
        Pipe (pathJoin (invoicesDir env) [fileName env order n]) ])%list.

(** The directory step does not fail. *)
Definition directoryReady (env : Env) : Prop :=
  existsSync env (invoicesDir env) = true \/ mkdirError env = None.

(** The value the date is formatted from, when the clock is read for the
    [n]-th time: the first present of the three date fields, else now. *)
Definition dateSource (env : Env) (order : Obj) (n : nat) : JsVal :=
  jsOr (field order "createdAt")
     (jsOr (field order "orderDate")
         (jsOr (field order "date") (VDate (Some (clock (rt env) n))))).

Definition dateText (env : Env) (order : Obj) (n : nat) : string :=
  toLocaleDateString (rt env) (newDate (rt env) (dateSource env order n)).


(** A centred line of the heading. *)
Definition headingLine (str : string) (y : Q) (fnt : string) (sz : Z) (col : string) : Event :=
  Text {| content := str; tx := margin; ty := y; width := Some contentWidth;
          align := Some AlignCenter; font := fnt; size := sz; color := col; alpha := 1 |}.

(** The title, the invoice number and the date block. *)
Definition headingEvents (env : Env) (order : Obj) (n : nat) : list Event :=
  [ headingLine "INVOICE" invoiceTitleY "Helvetica-Bold" 36 colors.primaryDark;
    headingLine "Invoice No:" invoiceInfoY "Helvetica" 10 colors.textSecondary;
    headingLine (toStr (rt env) (jsOr (field order "orderId") (VStr "N/A")))
                (invoiceInfoY + 15) "Helvetica-Bold" 12 colors.textPrimary;
    headingLine "Date:" (invoiceInfoY + 35) "Helvetica" 10 colors.textSecondary;
    headingLine (dateText env order n) (invoiceInfoY + 50) "Helvetica-Bold" 12
                colors.textPrimary ].

(** A label or a value of the totals block. *)
Definition totalsCell (str : string) (x y w : Q) (fnt : string) (sz : Z) (col : string) : Event :=
  Text {| content := str; tx := x; ty := y; width := Some w; align := Some AlignRight;
          font := fnt; size := sz; color := col; alpha := 1 |}.

Definition totalsPair (r : Runtime) (label : string) (value : Num) (y : Q)
    (fnt : string) (sz : Z) (labelColor : string) : list Event :=
  [ totalsCell label (totalsStartX - totalsLabelWidth - 10) y totalsLabelWidth
               fnt sz labelColor;
    totalsCell (rupees r value) totalsStartX y totalsValueWidth
               fnt sz colors.textPrimary ].

Definition regularPair (r : Runtime) (label : string) (value : Num) (y : Q) : list Event :=
  totalsPair r label value y "Helvetica" 10 colors.textSecondary.

(** An amount of the order as the totals section reads it:
    [parseFloat(order.k || 0)] of the stored field [k]. *)
Definition amount (r : Runtime) (order : Obj) (k : string) : Num :=
  parseFloat r (jsOr (field order k) (VNum (Fin 0))).

(** The totals block drawn from height [y], from the four stored amounts
    of the order: Subtotal always, Shipping and Tax each only when its
    amount is greater than zero, then Total, emphasised. *)
Definition totalsEvents (env : Env) (order : Obj) (y : Q) : list Event :=
  let y1 := y + 20 in
  let y2 := if gt0 (amount (rt env) order "shippingCost") then y1 + 20 else y1 in
  let y3 := if gt0 (amount (rt env) order "tax") then y2 + 20 else y2 in
  (regularPair (rt env) "Subtotal:" (amount (rt env) order "subtotal") y
   ++ (if gt0 (amount (rt env) order "shippingCost")
       then regularPair (rt env) "Shipping:" (amount (rt env) order "shippingCost") y1 else [])
   ++ (if gt0 (amount (rt env) order "tax")
       then regularPair (rt env) "Tax (GST):" (amount (rt env) order "tax") y2 else [])
   ++ totalsPair (rt env) "Total:" (amount (rt env) order "total") (y3 + 8)
        "Helvetica-Bold" 13 colors.primaryDark)%list.

(** The logo, when one of the candidate files exists; a failure to load it
    is logged and skipped. *)
Definition logoEvents (env : Env) : list Event :=
  match logoPath env with
  | Some lp =>
      if existsSync env lp then
        match imageError env with
        | Some msg => [ConsoleError "Error loading logo:" (Error msg)]
        | None => [Image lp logoX logoY logoSize logoSize]
        end
      else []
  | None => []
  end.

(** Every text among the events starts at or above the threshold. *)
Definition aboveThreshold (e : Event) : Prop :=
  match e with
  | Text t => ty t <= threshold
  | _ => True
  end.

(** The regular style of the totals block, and the emphasised one. *)
Definition regularStyle (e : Event) : Prop :=
  match e with
  | Text t => font t = "Helvetica"%string /\ size t = 10%Z
  | _ => True
  end.

Definition emphasisedStyle (e : Event) : Prop :=
  match e with
  | Text t => font t = "Helvetica-Bold"%string /\ size t = 13%Z
  | _ => False
  end.

(** The properties of an item that a row reads. *)
Definition readKeys : list string :=
  ["name"; "product"; "size"; "color"; "quantity"; "price"]%string.

(** An amount printed with the prefix, an optional sign, at least one
    digit, a point and exactly two fraction digits. *)
Definition twoFractionDigits (str : string) : Prop :=
  exists sign whole d1 d2,
    str = ("Rs. " ++ sign ++ whole ++ "." ++ String d1 (String d2 ""))%string
    /\ (sign = ""%string \/ sign = "-"%string)
    /\ whole <> ""%string /\ allDigits whole = true
    /\ isDigit d1 = true /\ isDigit d2 = true.

(** The same environment with another clock. *)
Definition withClock (env : Env) (c : nat -> Z) : Env := {|
  rt := {| clock := c;
           tzOffsetMinutes := tzOffsetMinutes (rt env);
           dateParse := dateParse (rt env);
           dateToString := dateToString (rt env);
           numberToString := numberToString (rt env) |};
  dirname := dirname env;
  existsSync := existsSync env;
  mkdirError := mkdirError env;
  imageError := imageError env;
  heightOfString := heightOfString env;
  streamError := streamError env
|}.

(** The content of the document: what is drawn, as opposed to the file
    operations and the log. *)
Definition isDrawing (e : Event) : bool :=
  match e with
  | Image _ _ _ _ _ | Text _ | Fill _ _ | Stroke _ _ _ | AddPage | EndDocument => true
  | Mkdir _ | NewDocument _ _ _ | CreateWriteStream _ _ | Pipe _ | ConsoleError _ _ => false
  end.

Definition drawn (events : list Event) : list Event := filter isDrawing events.

(** One of the three date fields of the order is present. *)
Definition datePresent (order : Obj) : bool :=
  truthy (field order "createdAt") || truthy (field order "orderDate")
  || truthy (field order "date").

(** Everything after the output has been opened. *)
Definition afterOpening (env : Env) (order user : Obj) (filename : string) : M string :=
  bind (headerSection env order) (fun _ =>
  bind (customerSection env order user) (fun _ =>
  bind (itemsTable env order) (fun _ =>
  bind (totalsSection env order) (fun _ =>
  bind (footerSection env) (fun _ =>
  bind endDocument (fun _ => ret filename)))))).

(* ------------------------------------------------------------------ *)
(** *** Sample inputs

    A runtime in Indian Standard Time whose clock starts at
    2023-11-14T22:13:20Z and advances by one millisecond per reading.  None
    of the sample values carries a date string or a number outside the
    plain integers, so the three conversions supplied here are not reached. *)

Definition sampleRuntime : Runtime := {|
  clock := fun n => (1700000000000 + Z.of_nat n)%Z;
  tzOffsetMinutes := 330;
  dateParse := fun _ => None;
  dateToString := fun _ => "Wed Nov 15 2023"%string;
  numberToString := fun _ => "1e+21"%string
|}.

(** No invoices directory and no logo yet; one line of text is 1.156 times
    the font size high. *)
Definition sampleEnv : Env := {|
  rt := sampleRuntime;
  dirname := ["srv"; "backend"; "utils"]%string;
  existsSync := fun _ => false;
  mkdirError := None;
  imageError := None;
  heightOfString := fun _ _ _ sz => inject_Z sz * (1156 # 1000);
  streamError := None
|}.

Fixpoint samePath (p q : Path) : bool :=
  match p, q with
  | [], [] => true
  | a :: p', b :: q' => String.eqb a b && samePath p' q'
  | _, _ => false
  end.

(** The same machine a moment later: the directory exists, the clock reads
    the same millisecond. *)
Definition sampleEnvAgain : Env := {|
  rt := sampleRuntime;
  dirname := ["srv"; "backend"; "utils"]%string;
  existsSync := fun p => samePath p ["srv"; "backend"; "uploads"; "invoices"]%string;
  mkdirError := None;
  imageError := None;
  heightOfString := fun _ _ _ sz => inject_Z sz * (1156 # 1000);
  streamError := None
|}.

Definition sampleUser : Obj :=
  [ ("name", VStr "Asha"); ("email", VStr "asha@example.com");
    ("mobile", VStr "9876543210") ]%string.

Definition sampleItem : JsVal :=
  VObj [ ("name", VStr "Silk Saree"); ("size", VStr "M"); ("color", VStr "Red");
         ("quantity", VNum (Fin 2)); ("price", VStr "1299.50") ]%string.

(** An order created on 2020-01-01, whose stored total disagrees with its
    subtotal, shipping and tax. *)
Definition sampleOrder : Obj :=
  [ ("orderId", VStr "ORD-1"); ("createdAt", VDate (Some 1577836800000%Z));
    ("items", VArr [sampleItem]);
    ("subtotal", VStr "2599.00"); ("shippingCost", VNum (Fin 50));
    ("tax", VNum (Fin 0)); ("total", VStr "999.00") ]%string.

(** Forty line items. *)
Definition sampleOrder40 : Obj :=
  [ ("orderId", VStr "ORD-40"); ("createdAt", VDate (Some 1577836800000%Z));
    ("items", VArr (repeat sampleItem 40));
    ("subtotal", VStr "103960.00"); ("total", VStr "103960.00") ]%string.

(** An order with an empty list of items. *)
Definition sampleOrderNoItems : Obj :=
  [ ("orderId", VStr "ORD-2"); ("createdAt", VDate (Some 1577836800000%Z));
    ("items", VArr []); ("total", VStr "0") ]%string.



(** An order with tax and without shipping; the shipping cost is stored
    as the string [0]. *)
Definition sampleOrderTaxed : Obj :=
  [ ("orderId", VStr "ORD-7"); ("createdAt", VDate (Some 1577836800000%Z));
    ("items", VArr [sampleItem]);
    ("subtotal", VStr "2599.00"); ("shippingCost", VStr "0");
    ("tax", VStr "129.95"); ("total", VStr "2728.95") ]%string.

(** A machine that wraps a text after every 36 characters, a line being
    1.156 times the font size high. *)
Definition sampleEnvWrapping : Env := {|
  rt := sampleRuntime;
  dirname := ["srv"; "backend"; "utils"]%string;
  existsSync := fun _ => false;
  mkdirError := None;
  imageError := None;
  heightOfString := fun str _ _ sz =>
    inject_Z (Z.of_nat (1 + String.length str / 36)) * (inject_Z sz * (1156 # 1000));
  streamError := None
|}.

(** A product name of 1500 characters: 42 lines in the column of the
    names. *)
Definition tallName : string := repeatChar "x" 1500.

(** An order of one item with that name. *)
Definition sampleOrderTall : Obj :=
  [ ("orderId", VStr "ORD-8"); ("createdAt", VDate (Some 1577836800000%Z));
    ("items", VArr [VObj [ ("name", VStr tallName); ("quantity", VNum (Fin 1));
                           ("price", VStr "1299.50") ]]);
    ("total", VStr "1299.50") ]%string.

(** An order whose subtotal is not a number. *)
Definition sampleOrderBadAmount : Obj :=
  [ ("orderId", VStr "ORD-5"); ("createdAt", VDate (Some 1577836800000%Z));
    ("items", VArr [sampleItem]);
    ("subtotal", VStr "n/a"); ("total", VStr "2599.00") ]%string.

(* ------------------------------------------------------------------ *)
(** *** Password reset *)

(** The user stores the hash of [token] and an expiry later than now. *)
Definition tokenLive (env : Auth.Env) (token : string) (u : Auth.User) : Prop :=
  Auth.passwordResetToken u = Some (Auth.sha256 env token)
  /\ exists e, Auth.passwordResetExpires u = Some e /\ (Auth.now env < e)%Z.

(** The row of [u] after a successful reset, and after a reset request. *)
Definition afterReset (u : Auth.User) (newPassword : string) : Auth.User := {|
  Auth.id := Auth.id u; Auth.email := Auth.email u; Auth.name := Auth.name u;
  Auth.password := newPassword;
  Auth.passwordResetToken := None;
  Auth.passwordResetExpires := None
|}.

Definition afterForgot (env : Auth.Env) (u : Auth.User) : Auth.User := {|
  Auth.id := Auth.id u; Auth.email := Auth.email u; Auth.name := Auth.name u;
  Auth.password := Auth.password u;
  Auth.passwordResetToken := Some (Auth.sha256 env (Auth.randomHex env));
  Auth.passwordResetExpires := Some (Auth.now env + 60 * 60 * 1000)%Z
|}.

(** A request: a hash function that only tags its input stands in for
    SHA-256, which the properties treat as an arbitrary function. *)
Definition sampleAuthEnv : Auth.Env := {|
  Auth.sha256 := fun s => ("sha256:" ++ s)%string;
  Auth.randomHex := "5f2b9c"%string;
  Auth.now := 1700000000000%Z;
  Auth.nodeEnv := Some "production"%string;
  Auth.frontendUrl := None;
  Auth.mailError := None
|}.

Definition sampleAccount : Auth.User := {|
  Auth.id := 7; Auth.email := "asha@example.com"%string; Auth.name := "Asha"%string;
  Auth.password := "old-password"%string;
  Auth.passwordResetToken := Some "sha256:5f2b9c"%string;
  Auth.passwordResetExpires := Some 1700003600000%Z
|}.

(** The headers a request leaves the CORS middleware with. *)
Definition corsHeaders (h : Server.Handled) : Server.Headers :=
  match h with
  | Server.Next hs => hs
  | Server.Sent r => Server.headers r
  end.

(** A production configuration, and a preflight from a foreign origin. *)
Definition sampleConfig : Server.Config := {|
  Server.FRONTEND_URL := Some "https://arudhrafashions.com"%string;
  Server.ADMIN_URL := Some "https://admin.arudhrafashions.com"%string
|}.

Definition samplePreflight : Server.Request := {|
  Server.method := "OPTIONS"%string;
  Server.origin := Some "https://example.org"%string
|}.

(* ------------------------------------------------------------------ *)
(** *** Accounts *)

(** What [register] requires of a request, with [p] and [n] the password
    and the name it carries: both present, a password of at least 8
    characters, a trimmed mobile of 10 digits, a trimmed email of the
    accepted shape, and no row with that mobile or that email. *)
Definition Registrable (table : Accounts.Table)
    (mobile password name email : option string) (p n : string) : Prop :=
  password = Some p /\ name = Some n /\ n <> ""%string /\ (8 <= strlen p)%nat
  /\ strlen (Accounts.trimmed mobile) = 10%nat
  /\ allDigits (Accounts.trimmed mobile) = true
  /\ Auth.validEmail (Accounts.trimmed email) = true
  /\ (forall u, In u table -> Accounts.mobile u <> Accounts.trimmed mobile)
  /\ (forall u, In u table -> Accounts.email u <> Accounts.trimmed email).

(** The table a sequence of registrations leaves: keys, mobiles and emails
    are pairwise distinct, and every row has a mobile of 10 digits, an
    email of the accepted shape and a password of at least 8 characters. *)
Definition rowChecked (u : Accounts.Account) : Prop :=
  strlen (Accounts.mobile u) = 10%nat /\ allDigits (Accounts.mobile u) = true
  /\ Auth.validEmail (Accounts.email u) = true
  /\ (8 <= strlen (Accounts.password u))%nat.

Definition WellFormed (table : Accounts.Table) : Prop :=
  NoDup (map Accounts.id table)
  /\ NoDup (map Accounts.mobile table)
  /\ NoDup (map Accounts.email table)
  /\ Forall rowChecked table.

(** The same environment without a usable JWT secret. *)
Definition withoutSecret (env : Accounts.Env) : Accounts.Env := {|
  Accounts.tokens := {| Token.JWT_SECRET := None;
                        Token.sign := Token.sign (Accounts.tokens env) |};
  Accounts.fresh := Accounts.fresh env;
  Accounts.createError := Accounts.createError env;
  Accounts.matchPassword := Accounts.matchPassword env
|}.

(** The reset columns of the table, as the password-reset routes see it. *)
Definition resetView (table : Accounts.Table) : Auth.Db := map Accounts.base table.

(** A configured server: the signature only tags the key, the stored
    password matches itself. *)
Definition sampleTokens : Token.Env := {|
  Token.JWT_SECRET := Some "s3cret"%string;
  Token.sign := fun id secret => ("jwt:" ++ decimal id)%string
|}.

Definition sampleFresh : Accounts.Account := {|
  Accounts.base := {| Auth.id := 8; Auth.email := ""%string; Auth.name := ""%string;
                      Auth.password := ""%string;
                      Auth.passwordResetToken := None;
                      Auth.passwordResetExpires := None |};
  Accounts.mobile := ""%string;
  Accounts.preferences := None
|}.

Definition sampleAccounts : Accounts.Env := {|
  Accounts.tokens := sampleTokens;
  Accounts.fresh := sampleFresh;
  Accounts.createError := None;
  Accounts.matchPassword := fun u entered => String.eqb (Accounts.password u) entered
|}.

(** The same server at a later time: the token it signs for a key is
    stamped differently. *)
Definition sampleAccountsLater : Accounts.Env := {|
  Accounts.tokens := {| Token.JWT_SECRET := Some "s3cret"%string;
                        Token.sign := fun id secret =>
                                        ("jwt:" ++ decimal id ++ ":later")%string |};
  Accounts.fresh := sampleFresh;
  Accounts.createError := None;
  Accounts.matchPassword := fun u entered => String.eqb (Accounts.password u) entered
|}.

(** The account of the password-reset samples, as a full row. *)
Definition sampleRow : Accounts.Account := {|
  Accounts.base := sampleAccount;
  Accounts.mobile := "9876543210"%string;
  Accounts.preferences := None
|}.

(** A row with a reset pending: the token is the one of the sample
    request, the expiry an hour after it. *)
Definition sampleTable : Accounts.Table := [sampleRow].

(** The three preferences a request can set. *)
Definition preferenceKeys : list string :=
  ["emailNotifications"; "smsNotifications"; "newsletter"]%string.

(** The value a field of the body gives a preference: its own when it is
    defined, the current one otherwise. *)
Definition merged (sent current : JsVal) : JsVal :=
  match sent with
  | VUndef => current
  | _ => sent
  end.

(** A user with stored preferences, some of them outside the three. *)
Definition sampleSubscriber : Accounts.Account := {|
  Accounts.base := sampleAccount;
  Accounts.mobile := "9876543210"%string;
  Accounts.preferences :=
    Some [ ("emailNotifications", VBool false); ("theme", VStr "dark") ]%string
|}.

(** A later request for the same account, with another token. *)
Definition sampleAuthEnvLater : Auth.Env := {|
  Auth.sha256 := fun s => ("sha256:" ++ s)%string;
  Auth.randomHex := "a1b2c3"%string;
  Auth.now := 1700000060000%Z;
  Auth.nodeEnv := Some "production"%string;
  Auth.frontendUrl := None;
  Auth.mailError := None
|}.

(** The mail service is down. *)
Definition sampleAuthEnvNoMail : Auth.Env := {|
  Auth.sha256 := fun s => ("sha256:" ++ s)%string;
  Auth.randomHex := "5f2b9c"%string;
  Auth.now := 1700000000000%Z;
  Auth.nodeEnv := Some "production"%string;
  Auth.frontendUrl := None;
  Auth.mailError := Some "connect ECONNREFUSED"%string
|}.

(** Two hours after the sample request. *)
Definition sampleAuthEnvExpired : Auth.Env := {|
  Auth.sha256 := fun s => ("sha256:" ++ s)%string;
  Auth.randomHex := "000000"%string;
  Auth.now := 1700007200000%Z;
  Auth.nodeEnv := Some "production"%string;
  Auth.frontendUrl := None;
  Auth.mailError := None
|}.

(** An account with no reset pending. *)
Definition sampleAccountIdle : Auth.User := {|
  Auth.id := 7; Auth.email := "asha@example.com"%string; Auth.name := "Asha"%string;
  Auth.password := "old-password"%string;
  Auth.passwordResetToken := None;
  Auth.passwordResetExpires := None
|}.

(** The request is running in development mode. *)
Definition development (env : Auth.Env) : bool :=
  match Auth.nodeEnv env with
  | Some e => String.eqb e "development"
  | None => false
  end.

Definition sendsMail (e : Auth.Effect) : bool :=
  match e with
  | Auth.SendPasswordResetEmail _ _ _ => true
  | _ => false
  end.

(* ------------------------------------------------------------------ *)
(** *** The customer block and the footer *)

(** The box of the customer block. *)
Definition billToBox : Rect :=
  {| rx := margin; ry := billToBoxY; rw := 280; rh := billToBoxHeight |}.

(** A line of the customer block in the small regular style. *)
Definition detail (str : string) (y : Q) : Event :=
  Text {| content := str; tx := margin + 10; ty := y; width := Some 260; align := None;
          font := "Helvetica"; size := 9; color := colors.textSecondary; alpha := 1 |}.

(** Lines drawn one below the other, 15 points apart. *)
Fixpoint stack (lines : list string) (y : Q) : list Event :=
  match lines with
  | [] => []
  | l :: rest => detail l y :: stack rest (y + 15)
  end.

(** City, state and postal code, the ones present joined by commas. *)
Definition cityStateZip (r : Runtime) (order : Obj) : string :=
  joinWith ", "
    (map (toStr r)
       (filter truthy
          [ jsOr (getOpt (customerAddress order) "city") (VStr "");
            jsOr (getOpt (customerAddress order) "state") (VStr "");
            jsOr (jsOr (getOpt (customerAddress order) "zipCode")
                       (getOpt (customerAddress order) "zip")) (VStr "") ])).

(** The lines below the customer's name: street address, city line,
    mobile and email, each only when present. *)
Definition detailLines (r : Runtime) (order user : Obj) : list string :=
  ((if truthy (customerAddress order) then
      ((if truthy (getOpt (customerAddress order) "address")
        then [toStr r (getOpt (customerAddress order) "address")] else [])
       ++ (if negb (isEmpty (cityStateZip r order)) then [cityStateZip r order] else []))%list
    else [])
   ++ (if truthy (customerMobile order user)
       then [("Mobile: " ++ toStr r (customerMobile order user))%string] else [])
   ++ (if truthy (customerEmail order user)
       then [("Email: " ++ toStr r (customerEmail order user))%string] else []))%list.

Definition customerEvents (r : Runtime) (order user : Obj) : list Event :=
  ([ Fill [billToBox] colors.background;
     Stroke [billToBox] colors.primaryLight (15 # 10);
     Text {| content := "Bill To:"; tx := margin + 10; ty := billToBoxY + 10;
             width := None; align := None;
             font := "Helvetica-Bold"; size := 12; color := colors.primaryDark;
             alpha := 1 |};
     Text {| content := toStr r (customerName order user);
             tx := margin + 10; ty := billToBoxY + 25;
             width := Some 260; align := None;
             font := "Helvetica-Bold"; size := 11; color := colors.textPrimary;
             alpha := 1 |} ]
   ++ stack (detailLines r order user) (billToBoxY + 25 + 18))%list.

(** Where the totals block leaves the cursor when it starts at [y]. *)
Definition totalsEnd (env : Env) (order : Obj) (y : Q) : Q :=
  let y1 := y + 20 in
  let y2 := if gt0 (amount (rt env) order "shippingCost") then y1 + 20 else y1 in
  let y3 := if gt0 (amount (rt env) order "tax") then y2 + 20 else y2 in
  y3 + 8 + 30.

Definition disclaimer : string :=
  "This computer-generated document is valid without signature or company stamp.".

(** The footer drawn with the cursor at [y]: the thanks, the disclaimer
    at reduced opacity, the brand name. *)
Definition footerEvents (y : Q) : list Event :=
  [ headingLine "Thank You for Shopping with Arudhra Fashions!" (y + 20)
      "Helvetica-Bold" 18 colors.primaryDark;
    Text {| content := disclaimer; tx := margin; ty := y + 20 + 30;
            width := Some contentWidth; align := Some AlignCenter;
            font := "Helvetica"; size := 9; color := colors.textSecondary;
            alpha := 8 # 10 |};
    Text {| content := "Arudhra Fashions"; tx := pageWidth - margin - 150;
            ty := y + 20 + 30 + 25; width := Some 150; align := Some AlignRight;
            font := "Times-Italic"; size := 15; color := colors.primaryDark;
            alpha := 1 |} ].

(** The error of reading [name] from an item that is [undefined] or
    [null]. *)
Definition itemError (r : Runtime) (item : JsVal) : Exn :=
  TypeError ("Cannot read properties of " ++ toStr r item ++ " (reading 'name')")%string.




(** An order whose second item is [null]. *)
Definition sampleOrderNullItem : Obj :=
  [ ("orderId", VStr "ORD-6"); ("createdAt", VDate (Some 1577836800000%Z));
    ("items", VArr [sampleItem; VNull]); ("total", VStr "2599.00") ]%string.

(* ------------------------------------------------------------------ *)
(** *** Layout *)


(** A text lies between the left and the right margin of the page. *)
Definition withinMargins (e : Event) : Prop :=
  match e with
  | Text t =>
      margin <= tx t
      /\ match width t with
         | Some w => tx t + w <= pageWidth - margin
         | None => True
         end
  | _ => True
  end.

(** Full opacity, except for the disclaimer of the footer. *)
Definition fullOpacity (e : Event) : Prop :=
  match e with
  | Text t => alpha t = 1 \/ (alpha t = 8 # 10 /\ content t = disclaimer)
  | _ => True
  end.

(** A text or a shape of the customer block lies in its box. *)
Definition inBox (e : Event) : Prop :=
  match e with
  | Text t =>
      tx t = margin + 10
      /\ billToBoxY + 10 <= ty t
      /\ ty t <= billToBoxY + billToBoxHeight - 12
      /\ match width t with
         | Some w => tx t + w <= margin + 280
         | None => True
         end
  | Fill rects _ | Stroke rects _ _ => rects = [billToBox]
  | _ => False
  end.


(** An order of one item, without an order number. *)
Definition sampleOrderNoId : Obj :=
  [ ("createdAt", VDate (Some 1577836800000%Z));
    ("items", VArr [sampleItem]); ("total", VStr "2599.00") ]%string.

(** An item with quantity zero. *)
Definition sampleItemZeroQuantity : JsVal :=
  VObj [ ("name", VStr "Silk Saree"); ("quantity", VNum (Fin 0));
         ("price", VStr "1299.50") ]%string.

(** Six characters as a string. *)
Definition six (a1 a2 a3 a4 a5 a6 : ascii) : string :=
  String a1 (String a2 (String a3 (String a4 (String a5 (String a6 EmptyString))))).

(** The value of a pair of hexadecimal digits, as [parseInt(s, 16)]. *)
Definition hexPair (a b : ascii) : option Z :=
  radixValue 16 0 (String a (String b EmptyString)).

(** The colours of the palette. *)
Definition palette : list string :=
  [ colors.primary; colors.primaryDark; colors.primaryLight; colors.secondary;
    colors.background; colors.textPrimary; colors.textSecondary; colors.white ].

(* ================================================================== *)
(** * Properties *)
(* ================================================================== *)

(* ------------------------------------------------------------------ *)
(** ** Running the monad *)

Ltac mstep :=
  cbv beta iota zeta delta
      [bind ret emit modify gets throw when tryCatch text fontSize fontName fillColor
       strokeColor lineWidth opacity rect fill stroke measure addPage endDocument
       getY putY consoleError prop orElse image mkdirSync dateNow
       setFont setSize setFill setStroke setLineWidth setOpacity setPath setY tick
       gFont gSize gFill gStroke gLineWidth gOpacity gPath gY ticks];
  cbn [app].

Ltac mcase :=
  match goal with
  | |- context [if ?b then _ else _] => destruct b eqn:?
  | |- context [match ?b with Some _ => _ | None => _ end] => destruct b eqn:?
  end.

Ltac mrun := mstep; repeat (mcase; mstep).

Lemma bind_ok {A B} (m : M A) (f : A -> M B) s b events s' :
  bind m f s = (Ok b, events, s') ->
  exists a ev1 s1 ev2,
    m s = (Ok a, ev1, s1) /\ f a s1 = (Ok b, ev2, s') /\ events = (ev1 ++ ev2)%list.
Proof.
  unfold bind. destruct (m s) as [[[a | e] ev1] s1].
  - destruct (f a s1) as [[r ev2] s2] eqn:Ef. intros H. inversion H; subst.
    exists a, ev1, s1, ev2. auto.
  - discriminate.
Qed.

Lemma bind_run {A B} (m : M A) (f : A -> M B) s a ev1 s1 :
  m s = (Ok a, ev1, s1) ->
  bind m f s = (let '(r, ev2, s2) := f a s1 in (r, (ev1 ++ ev2)%list, s2)).
Proof. intros H. unfold bind. rewrite H. reflexivity. Qed.

Lemma bind_throw {A B} (m : M A) (f : A -> M B) s e ev1 s1 :
  m s = (Throw e, ev1, s1) -> bind m f s = (Throw e, ev1, s1).
Proof. intros H. unfold bind. rewrite H. reflexivity. Qed.

Lemma getProp_object v k : isObject v = true -> getProp v k = Some (getOpt v k).
Proof. destruct v; simpl; intros; try discriminate; reflexivity. Qed.

Lemma getProp_not_object v k : isObject v = false -> getProp v k = None.
Proof. destruct v; simpl; intros; try discriminate; reflexivity. Qed.

Lemma truthy_object v : truthy v = true -> isObject v = true.
Proof. destruct v; simpl; auto. Qed.

Lemma or_idem a b : jsOr (jsOr a b) b = jsOr a b.
Proof.
  unfold jsOr. destruct (truthy a) eqn:E; [rewrite E | destruct (truthy b)]; reflexivity.
Qed.

Lemma or_truthy a b : truthy a = true -> jsOr a b = a.
Proof. intros H. unfold jsOr. rewrite H. reflexivity. Qed.

Lemma or_falsy a b : truthy a = false -> jsOr a b = b.
Proof. intros H. unfold jsOr. rewrite H. reflexivity. Qed.

Lemma max_ge a b : a <= mathMax a b.
Proof.
  unfold mathMax. destruct (Qle_bool a b) eqn:E.
  - apply Qle_bool_iff; assumption.
  - apply Qle_refl.
Qed.

Lemma gtb_true a b : gtb a b = true <-> b < a.
Proof.
  unfold gtb. rewrite negb_true_iff. split; intros H.
  - apply Qnot_le_lt. intros L. apply Qle_bool_iff in L. congruence.
  - destruct (Qle_bool a b) eqn:E; auto. apply Qle_bool_iff in E.
    exfalso. apply (Qlt_not_le _ _ H E).
Qed.

Lemma gtb_false a b : gtb a b = false <-> a <= b.
Proof.
  unfold gtb. rewrite negb_false_iff. apply Qle_bool_iff.
Qed.

(* ------------------------------------------------------------------ *)
(** ** Column geometry *)

(** C1.  The x-offset of every column of the line-item table is the
    accumulated sum of the widths before it plus the gaps of 8, starting at
    [margin + 10]; the widths are 180, 42, 52, 32, 70 and 80; the last
    column ends at 546, within the page less its margin, 555.28.  The
    constants do not depend on the order or the user. *)
Theorem column_geometry :
  [colItem; colSize; colColor; colQty; colPrice; colTotal]
  = accumulatedOffsets (margin + 10) 8
      [colItemWidth; colSizeWidth; colColorWidth; colQtyWidth; colPriceWidth; colTotalWidth]
  /\ [colItemWidth; colSizeWidth; colColorWidth; colQtyWidth; colPriceWidth; colTotalWidth]
     = [180; 42; 52; 32; 70; 80]
  /\ margin == 40 /\ pageWidth == 59528 # 100
  /\ colTotal == 466
  /\ colTotal + colTotalWidth == 546
  /\ pageWidth - margin == 55528 # 100
  /\ colTotal + colTotalWidth <= pageWidth - margin.
Proof.
  repeat split; try reflexivity.
  vm_compute. discriminate.
Qed.

(* ------------------------------------------------------------------ *)
(** ** The rows of the table *)

Ltac fold_or :=
  repeat match goal with
         | H : truthy ?v = true |- context [jsOr ?v ?w] => rewrite (or_truthy v w H)
         | H : truthy ?v = false |- context [jsOr ?v ?w] => rewrite (or_falsy v w H)
         end.

(** One row: the page break if the cursor is past the threshold, the
    stripe, then the six cells. *)
Lemma itemRow_run env item index y s :
  isObject item = true -> clean s ->
  exists s',
    itemRow env item index y s
    = (Ok (rowY y + rowHeight env item y s),
       (breakEvents y
        ++ stripeEvents index (rowY y) (rowHeight env item y s)
        ++ cellEvents (rt env) item (rowY y))%list, s')
    /\ clean s' /\ gFont s' = "Helvetica" /\ gSize s' = 10%Z.
Proof.
  intros Hobj [Hp Ho]. destruct s as [f z fl st lw op pa gy tk].
  simpl in Hp, Ho. subst pa op.
  unfold itemRow, pageBreak, tableHeader, rgbTemplate, prop.
  rewrite !(getProp_object _ _ Hobj).
  unfold breakEvents, rowY, cellEvents, lineTotal, itemPrice, itemQuantity,
    rowHeight, stripeEvents, itemName, continuationHeader, clean.
  fold threshold.
  change primaryDarkRgb with (Some (122, 80, 81)%Z).
  mrun; rewrite ?or_idem;
    change ("rgb(" ++ decimal 122 ++ ", " ++ decimal 80 ++ ", " ++ decimal 81 ++ ")")%string
      with "rgb(122, 80, 81)"%string;
    unfold headerEvents, headerCell, cell; fold_or;
    (eexists; split; [ cbn [app]; reflexivity | ]); repeat split.
Qed.

(** A row whose item is [undefined] or [null] throws before drawing. *)
Lemma itemRow_throw env item index y s :
  isObject item = false ->
  exists e, itemRow env item index y s = (Throw e, [], s).
Proof.
  intros H. unfold itemRow, prop. rewrite (getProp_not_object _ _ H).
  eexists. reflexivity.
Qed.

Lemma rowHeight_ge env item y s : 24 <= rowHeight env item y s.
Proof. apply max_ge. Qed.

(** The loop over the items follows the pagination rule whenever it
    completes. *)
Lemma forEachItem_paginated env items :
  forall index y s y' events s',
    clean s ->
    forEachItem env items index y s = (Ok y', events, s') ->
    Paginated (rt env) items index y events /\ clean s' /\ Forall (fun v => isObject v = true) items.
Proof.
  induction items as [| item rest IH]; intros index y s y' events s' Hs Hrun.
  - simpl in Hrun. inversion Hrun; subst. split; [constructor | split; [assumption | constructor]].
  - simpl in Hrun. apply bind_ok in Hrun.
    destruct Hrun as (y1 & ev1 & s1 & ev2 & Hrow & Hrest & ->).
    destruct (isObject item) eqn:Hobj.
    + destruct (itemRow_run env item index y s Hobj Hs) as (s1' & Hrow' & Hs1 & _).
      rewrite Hrow' in Hrow. inversion Hrow; subst; clear Hrow.
      destruct (IH _ _ _ _ _ _ Hs1 Hrest) as (Hpag & Hclean & Hall).
      split; [ | split; [assumption | constructor; assumption] ].
      unfold breakEvents. destruct (gtb y threshold) eqn:Hg.
      * cbn [app]. rewrite <- !app_assoc.
        apply PaginatedBreak; [assumption | apply rowHeight_ge | assumption].
      * cbn [app]. rewrite <- !app_assoc.
        unfold rowY in *. rewrite Hg in *.
        apply PaginatedRow; [assumption | apply rowHeight_ge | assumption].
    + destruct (itemRow_throw env item index y s Hobj) as (e & He).
      rewrite He in Hrow. discriminate.
Qed.

(** Conversely the loop completes on items that are objects. *)
Lemma forEachItem_total env items :
  forall index y s,
    clean s -> Forall (fun v => isObject v = true) items ->
    exists y' events s', forEachItem env items index y s = (Ok y', events, s').
Proof.
  induction items as [| item rest IH]; intros index y s Hs Hall.
  - simpl. eexists; eexists; eexists. reflexivity.
  - inversion Hall as [| ? ? Hobj Hrest]; subst.
    destruct (itemRow_run env item index y s Hobj Hs) as (s1 & Hrow & Hs1 & _).
    destruct (IH (S index) (rowY y + rowHeight env item y s) s1 Hs1 Hrest)
      as (y' & ev & s' & Hrun).
    simpl. rewrite (bind_run _ _ _ _ _ _ Hrow). rewrite Hrun.
    eexists; eexists; eexists. reflexivity.
Qed.

(* ------------------------------------------------------------------ *)
(** ** Consequences of the pagination rule *)

Lemma pagesStarted_pos events : (1 <= pagesStarted events)%nat.
Proof.
  induction events as [| e rest IH]; simpl; [lia | ].
  destruct e; lia.
Qed.

Lemma pagesStarted_app events more :
  pagesStarted (events ++ more) = (pagesStarted events + pagesStarted more - 1)%nat.
Proof.
  induction events as [| e rest IH]; simpl.
  - lia.
  - pose proof (pagesStarted_pos rest). pose proof (pagesStarted_pos more).
    destruct e; simpl; lia.
Qed.

Lemma pagesStarted_stripe index y h : pagesStarted (stripeEvents index y h) = 1%nat.
Proof. unfold stripeEvents. destruct (Nat.eqb (index mod 2) 0); reflexivity. Qed.

Lemma pagesStarted_cells r item y : pagesStarted (cellEvents r item y) = 1%nat.
Proof. reflexivity. Qed.

(** With [k] more rows to come after the first, a cursor that [k] rows of
    the least height would carry past the threshold forces a page break. *)
Lemma paginated_pages r items index y events :
  Paginated r items index y events ->
  forall k, List.length items = S k ->
    threshold < y + 24 * inject_Z (Z.of_nat k) ->
    (2 <= pagesStarted events)%nat.
Proof.
  induction 1 as [ | item rest index y h events Hg Hh Hrest IH
                   | item rest index y h events Hg Hh Hrest IH ];
    intros k Hlen Hk.
  - discriminate.
  - apply gtb_false in Hg.
    rewrite !pagesStarted_app, pagesStarted_stripe, pagesStarted_cells.
    destruct k as [| k].
    + exfalso. simpl in Hk. apply (Qlt_not_le _ _ Hk).
      rewrite Qmult_0_r, Qplus_0_r. assumption.
    + simpl in Hlen. injection Hlen as Hlen.
      assert (2 <= pagesStarted events)%nat; [ | lia ].
      apply (IH k Hlen).
      rewrite Nat2Z.inj_succ, <- Z.add_1_r, inject_Z_plus in Hk.
      eapply Qlt_le_trans; [exact Hk | ].
      setoid_replace (y + 24 * (inject_Z (Z.of_nat k) + inject_Z 1))
        with (y + 24 + 24 * inject_Z (Z.of_nat k)) by (change (inject_Z 1) with 1; ring).
      apply Qplus_le_l. apply Qplus_le_r. assumption.
  - cbn [pagesStarted].
    match goal with
    | |- (2 <= S (pagesStarted ?l))%nat => pose proof (pagesStarted_pos l); lia
    end.
Qed.

Lemma cons_eq_inv {A} (a b : A) (l m : list A) : a :: l = b :: m -> a = b /\ l = m.
Proof. intros H. injection H as H1 H2. auto. Qed.

(** Splitting a list at an element that the first part does not contain. *)
Lemma split_at_page (front back pre post : list Event) :
  (front ++ back = pre ++ AddPage :: post)%list ->
  ~ In AddPage front ->
  exists pre', pre = (front ++ pre')%list /\ back = (pre' ++ AddPage :: post)%list.
Proof.
  revert pre. induction front as [| e front IH]; intros pre Heq Hnot.
  - exists pre. auto.
  - destruct pre as [| p pre]; simpl in Heq.
    + injection Heq as He _. subst. exfalso. apply Hnot. left. reflexivity.
    + injection Heq as He Heq. subst p.
      destruct (IH pre Heq) as (pre' & -> & Hb).
      * intros Hin. apply Hnot. right. assumption.
      * exists pre'. auto.
Qed.

Lemma stripe_cells_no_page r item index y h :
  ~ In AddPage (stripeEvents index y h ++ cellEvents r item y)%list.
Proof.
  unfold stripeEvents, cellEvents, cell.
  destruct (Nat.eqb (index mod 2) 0); simpl; intuition discriminate.
Qed.

Lemma header_no_page : ~ In AddPage continuationHeader.
Proof. simpl. intuition discriminate. Qed.

(** Every added page starts with the header row. *)
Lemma paginated_header r items index y events :
  Paginated r items index y events ->
  forall pre post, events = (pre ++ AddPage :: post)%list ->
    exists rest, post = (continuationHeader ++ rest)%list.
Proof.
  induction 1 as [ | item rest index y h events Hg Hh Hrest IH
                   | item rest index y h events Hg Hh Hrest IH ];
    intros pre post Heq.
  - destruct pre; discriminate.
  - rewrite app_assoc in Heq.
    destruct (split_at_page _ _ _ _ Heq (stripe_cells_no_page r item index y h))
      as (pre' & _ & Hev).
    exact (IH _ _ Hev).
  - destruct pre as [| p pre].
    + change ([] ++ AddPage :: post)%list with (AddPage :: post) in Heq.
      apply cons_eq_inv in Heq. destruct Heq as [_ Heq].
      eexists. symmetry. exact Heq.
    + change ((p :: pre) ++ AddPage :: post)%list
        with (p :: (pre ++ AddPage :: post))%list in Heq.
      apply cons_eq_inv in Heq. destruct Heq as [_ Heq].
      destruct (split_at_page _ _ _ _ Heq header_no_page) as (pre1 & _ & Hev1).
      rewrite app_assoc in Hev1.
      destruct (split_at_page _ _ _ _ Hev1 (stripe_cells_no_page r item index (rowY y) h))
        as (pre2 & _ & Hev2).
      exact (IH _ _ Hev2).
Qed.

(* ------------------------------------------------------------------ *)
(** ** The sections of the document, one by one *)

Lemma openOutput_run env order s :
  directoryReady env ->
  openOutput env order s
  = (Ok (fileName env order (ticks s)), openEvents env order (ticks s), tick s).
Proof.
  intros Hdir. destruct s as [f z fl st lw op pa gy tk].
  unfold openOutput, ensureDirectory, createOutput, openEvents, fileName.
  destruct (existsSync env (invoicesDir env)) eqn:Hex.
  - mstep. reflexivity.
  - destruct Hdir as [Hdir | Hdir]; [congruence | ].
    mstep. rewrite Hdir. mstep. reflexivity.
Qed.

Lemma openOutput_ok env order s filename events s' :
  openOutput env order s = (Ok filename, events, s') ->
  directoryReady env /\ filename = fileName env order (ticks s)
  /\ events = openEvents env order (ticks s) /\ s' = tick s.
Proof.
  intros H.
  assert (Hdir : directoryReady env).
  { unfold directoryReady. destruct (existsSync env (invoicesDir env)) eqn:Hex; auto.
    destruct (mkdirError env) eqn:Hmk; auto.
    exfalso. destruct s as [f z fl st lw op pa gy tk].
    unfold openOutput, ensureDirectory, createOutput in H. rewrite Hex in H. revert H. mstep. rewrite Hmk.
    mstep. discriminate. }
  rewrite (openOutput_run env order s Hdir) in H. inversion H; subst. auto.
Qed.


(** The header section never throws; after the logo, if any, it draws the
    title, the invoice number and the date block. *)
Lemma headerSection_run env order s :
  clean s ->
  exists s',
    headerSection env order s
    = (Ok tt, (logoEvents env ++ headingEvents env order (ticks s))%list, s')
    /\ clean s' /\ (ticks s <= ticks s')%nat.
Proof.
  intros [Hp Ho]. destruct s as [f z fl st lw op pa gy tk].
  simpl in Hp, Ho. subst pa op.
  unfold headerSection, drawLogo, formatInvoiceDate, dateValue, headingEvents,
    headingLine, dateText, dateSource, logoEvents, clean.
  mrun; fold_or;
    (eexists; split; [ reflexivity | split; [split; reflexivity | cbn [ticks]; lia ] ]).
Qed.

(** The customer block never throws. *)
Lemma customerSection_run env order user s :
  clean s ->
  exists events s',
    customerSection env order user s = (Ok tt, events, s')
    /\ clean s' /\ ticks s' = ticks s /\ pagesStarted events = 1%nat
    /\ ~ In EndDocument events.
Proof.
  intros [Hp Ho]. destruct s as [f z fl st lw op pa gy tk].
  simpl in Hp, Ho. subst pa op.
  unfold customerSection, billToHeading, customerLines, addressLines, prop, clean.
  destruct (truthy (customerAddress order)) eqn:Ha.
  - rewrite !(getProp_object _ _ (truthy_object _ Ha)).
    mrun; (eexists; eexists; split; [reflexivity | ]);
      (split; [split; reflexivity | ]); (split; [reflexivity | ]);
      (split; [reflexivity | cbn [In]; intuition discriminate]).
  - mrun; (eexists; eexists; split; [reflexivity | ]);
      (split; [split; reflexivity | ]); (split; [reflexivity | ]);
      (split; [reflexivity | cbn [In]; intuition discriminate]).
Qed.

(** The footer never throws. *)
Lemma footerSection_run env s :
  clean s ->
  exists events s',
    footerSection env s = (Ok tt, events, s') /\ clean s'
    /\ pagesStarted events = 1%nat.
Proof.
  intros [Hp Ho]. destruct s as [f z fl st lw op pa gy tk].
  simpl in Hp, Ho. subst pa op.
  unfold footerSection, clean. mrun.
  eexists; eexists; split; [reflexivity | repeat split].
Qed.

(** The totals block never throws; its events are [totalsEvents]. *)
Lemma totalsSection_run env order s :
  clean s ->
  exists s',
    totalsSection env order s = (Ok tt, totalsEvents env order (gY s), s')
    /\ clean s'.
Proof.
  intros [Hp Ho]. destruct s as [f z fl st lw op pa gy tk].
  simpl in Hp, Ho. subst pa op.
  unfold totalsSection, totalsLine, totalsEvents, regularPair, totalsPair,
    totalsCell, clean.
  unfold subtotal, shippingCost, tax, grandTotal, amount.
  mrun; (eexists; split; [reflexivity | split; reflexivity]).
Qed.

Lemma itemsValid_inv order :
  itemsInvalid order = false ->
  exists items, field order "items" = VArr items /\ items <> [].
Proof.
  unfold itemsInvalid. destruct (field order "items") as [ | | | | | | l | ];
    simpl; try discriminate.
  - destruct b; discriminate.
  - destruct n as [ | | q]; try discriminate. destruct (isZero q); discriminate.
  - destruct s; discriminate.
  - destruct l; [discriminate | ]. intros _. eexists. split; [reflexivity | discriminate].
Qed.

(** With missing, non-array or empty items the table section throws at
    its check, having drawn nothing. *)
Lemma itemsTable_invalid env order s :
  itemsInvalid order = true ->
  itemsTable env order s
  = (Throw (Error "Order items are missing or invalid"), [], setY tableStartY s).
Proof.
  intros H. destruct s as [f z fl st lw op pa gy tk].
  unfold itemsTable, validateItems. fold (itemsInvalid order). rewrite H.
  mstep. reflexivity.
Qed.

(** When the table section completes, the items were a non-empty array
    and its events are the header row followed by paginated rows. *)
Lemma itemsTable_ok env order s events s' :
  clean s ->
  itemsTable env order s = (Ok tt, events, s') ->
  exists items body,
    field order "items" = VArr items /\ items <> []
    /\ events = (headerEvents tableStartY (tableStartY + 10) ++ body)%list
    /\ Paginated (rt env) items 0 firstRowY body
    /\ Forall (fun v => isObject v = true) items
    /\ clean s'.
Proof.
  intros [Hp Ho] Hrun. destruct s as [f z fl st lw op pa gy tk].
  simpl in Hp, Ho. subst pa op.
  destruct (itemsInvalid order) eqn:Hinv.
  - rewrite (itemsTable_invalid env order _ Hinv) in Hrun. discriminate.
  - destruct (itemsValid_inv order Hinv) as (items & Hitems & Hne).
    exists items.
    unfold itemsTable, validateItems, tableHeader, rgbTemplate in Hrun.
    fold (itemsInvalid order) in Hrun. rewrite Hinv, Hitems in Hrun.
    change primaryDarkRgb with (Some (122, 80, 81)%Z) in Hrun.
    cbn [elements] in Hrun. revert Hrun. mstep.
    match goal with
    | |- context [forEachItem env items 0%nat ?y ?s0] =>
        destruct (forEachItem env items 0%nat y s0) as [[[y' | e] body] s1] eqn:Hloop
    end; [ | discriminate ].
    intros Hrun. inversion Hrun; subst; clear Hrun.
    apply forEachItem_paginated in Hloop; [ | split; reflexivity ].
    destruct Hloop as (Hpag & [Hp1 Ho1] & Hobj).
    exists body.
    split; [assumption | ]. split; [assumption | ].
    split; [rewrite app_nil_r; reflexivity | ].
    split; [exact Hpag | ]. split; [exact Hobj | split; assumption].
Qed.

(* ------------------------------------------------------------------ *)
(** ** The whole render *)

Lemma initial_clean : clean initial.
Proof. split; reflexivity. Qed.

Lemma tick_clean s : clean s -> clean (tick s).
Proof. intros [H1 H2]. split; assumption. Qed.

(** A render that completes is the sequence of its sections. *)
Lemma render_ok env order user filename events s :
  render env order user initial = (Ok filename, events, s) ->
  exists items body customer footer y,
    directoryReady env
    /\ filename = fileName env order 0
    /\ field order "items" = VArr items /\ items <> []
    /\ Paginated (rt env) items 0 firstRowY body
    /\ events
       = (openEvents env order 0
          ++ (logoEvents env ++ headingEvents env order 1)
          ++ customer
          ++ (headerEvents tableStartY (tableStartY + 10) ++ body)
          ++ totalsEvents env order y
          ++ footer ++ [EndDocument])%list
    /\ pagesStarted customer = 1%nat /\ pagesStarted footer = 1%nat
    /\ Forall (fun v => isObject v = true) items.
Proof.
  unfold render. intros H.
  apply bind_ok in H. destruct H as (fn & e1 & s1 & r1 & Hopen & H & ->).
  apply openOutput_ok in Hopen. destruct Hopen as (Hdir & -> & -> & ->).
  apply bind_ok in H. destruct H as ([] & e2 & s2 & r2 & Hhead & H & ->).
  destruct (headerSection_run env order (tick initial) (tick_clean _ initial_clean))
    as (s2' & Hhead' & Hc2 & _).
  rewrite Hhead' in Hhead. inversion Hhead; subst e2 s2'; clear Hhead.
  apply bind_ok in H. destruct H as ([] & e3 & s3 & r3 & Hcust & H & ->).
  destruct (customerSection_run env order user s2 Hc2)
    as (e3' & s3' & Hcust' & Hc3 & _ & Hpc3 & _).
  rewrite Hcust' in Hcust. inversion Hcust; subst e3' s3'; clear Hcust.
  apply bind_ok in H. destruct H as ([] & e4 & s4 & r4 & Htab & H & ->).
  apply (itemsTable_ok env order s3 e4 s4 Hc3) in Htab.
  destruct Htab as (items & body & Hitems & Hne & -> & Hpag & Hobj & Hc4).
  apply bind_ok in H. destruct H as ([] & e5 & s5 & r5 & Htot & H & ->).
  destruct (totalsSection_run env order s4 Hc4) as (s5' & Htot' & Hc5).
  rewrite Htot' in Htot. inversion Htot; subst e5 s5'; clear Htot.
  apply bind_ok in H. destruct H as ([] & e6 & s6 & r6 & Hfoot & H & ->).
  destruct (footerSection_run env s5 Hc5) as (e6' & s6' & Hfoot' & _ & Hpc6).
  rewrite Hfoot' in Hfoot. inversion Hfoot; subst e6' s6'; clear Hfoot.
  revert H. mstep. intros H. inversion H; subst; clear H.
  exists items, body, e3, e6, (gY s4).
  repeat (split; [assumption || reflexivity | ]).
  assumption.
Qed.

Lemma generate_resolved env order user reference events :
  generateInvoicePDF env order user = (Resolved reference, events) ->
  exists s,
    render env order user initial
    = (Ok (fileName env order 0), events, s)
    /\ reference = ("/uploads/invoices/" ++ fileName env order 0)%string
    /\ streamError env = None.
Proof.
  unfold generateInvoicePDF.
  destruct (render env order user initial) as [[[fn | e] ev] s] eqn:Hr;
    [ | discriminate ].
  destruct (streamError env) eqn:Hs; [discriminate | ].
  intros H. inversion H; subst; clear H.
  destruct (render_ok _ _ _ _ _ _ Hr) as (? & ? & ? & ? & ? & _ & -> & _).
  exists s. auto.
Qed.

(** In a render that succeeds the table body and the totals block are
    where the amounts are printed. *)
Lemma resolved_amounts env order user reference events :
  generateInvoicePDF env order user = (Resolved reference, events) ->
  exists items before body y footer,
    field order "items" = VArr items
    /\ events = (before ++ body ++ totalsEvents env order y ++ footer ++ [EndDocument])%list
    /\ Paginated (rt env) items 0 firstRowY body
    /\ Forall (fun v => isObject v = true) items.
Proof.
  intros H. destruct (generate_resolved _ _ _ _ _ H) as (s & Hr & _ & _).
  destruct (render_ok _ _ _ _ _ _ Hr)
    as (items & body & customer & footer & y & _ & _ & Hitems & _ & Hpag & Hev & _ & _ & Hobj).
  exists items,
    (openEvents env order 0 ++ (logoEvents env ++ headingEvents env order 1)
     ++ customer ++ headerEvents tableStartY (tableStartY + 10))%list,
    body, y, footer.
  split; [assumption | ]. split; [ | split; assumption ].
  rewrite Hev. rewrite <- !app_assoc. reflexivity.
Qed.

(* ------------------------------------------------------------------ *)
(** ** The events of every section *)

(** The customer block never throws; its events are [customerEvents]. *)
Lemma customerSection_events env order user s :
  clean s ->
  exists s',
    customerSection env order user s = (Ok tt, customerEvents (rt env) order user, s')
    /\ clean s' /\ ticks s' = ticks s.
Proof.
  intros [Hp Ho]. destruct s as [f z fl st lw op pa gy tk].
  simpl in Hp, Ho. subst pa op.
  unfold customerSection, billToHeading, customerLines, addressLines, prop, clean, customerEvents, detailLines,
    cityStateZip, billToBox, detail.
  destruct (truthy (customerAddress order)) eqn:Ha.
  - rewrite !(getProp_object _ _ (truthy_object _ Ha)).
    mstep; repeat (fold_or; mcase; mstep); fold_or; cbn [stack app]; unfold detail;
      (eexists; split; [reflexivity | split; [split; reflexivity | reflexivity] ]).
  - mrun; cbn [stack app]; unfold detail;
      (eexists; split; [reflexivity | split; [split; reflexivity | reflexivity] ]).
Qed.

(** The footer never throws; its events are [footerEvents]. *)
Lemma footerSection_events env s :
  clean s ->
  exists s', footerSection env s = (Ok tt, footerEvents (gY s), s') /\ clean s'.
Proof.
  intros [Hp Ho]. destruct s as [f z fl st lw op pa gy tk].
  simpl in Hp, Ho. subst pa op.
  unfold footerSection, footerEvents, headingLine, disclaimer, clean. mrun.
  eexists; split; [reflexivity | split; reflexivity].
Qed.

(** Where the totals block leaves the cursor. *)
Lemma totalsSection_end env order s :
  clean s ->
  exists s',
    totalsSection env order s = (Ok tt, totalsEvents env order (gY s), s')
    /\ clean s' /\ gY s' = totalsEnd env order (gY s).
Proof.
  intros [Hp Ho]. destruct s as [f z fl st lw op pa gy tk].
  simpl in Hp, Ho. subst pa op.
  unfold totalsSection, totalsLine, totalsEvents, totalsEnd, regularPair, totalsPair,
    totalsCell, clean.
  unfold subtotal, shippingCost, tax, grandTotal, amount.
  mrun; (eexists; split; [reflexivity | split; [split; reflexivity | reflexivity] ]).
Qed.

(** A row whose item is [undefined] or [null] throws the TypeError of
    reading its [name], before drawing anything. *)
Lemma itemRow_throws env item index y s :
  isObject item = false ->
  itemRow env item index y s = (Throw (itemError (rt env) item), [], s).
Proof.
  intros H. unfold itemRow, prop. rewrite (getProp_not_object _ _ H). reflexivity.
Qed.



(** The table section on a non-empty array of items: the header row, then
    the loop, whose outcome is the outcome of the section. *)
Lemma itemsTable_loop env order s items :
  clean s -> field order "items" = VArr items -> items <> [] ->
  exists s0,
    clean s0 /\ gFont s0 = "Helvetica"%string /\ gSize s0 = 10%Z
    /\ (forall y' body s1,
          forEachItem env items 0 firstRowY s0 = (Ok y', body, s1) ->
          itemsTable env order s
          = (Ok tt, (headerEvents tableStartY (tableStartY + 10) ++ body)%list,
             setY (y' + 20) s1))
    /\ (forall e body s1,
          forEachItem env items 0 firstRowY s0 = (Throw e, body, s1) ->
          itemsTable env order s
          = (Throw e, (headerEvents tableStartY (tableStartY + 10) ++ body)%list, s1)).
Proof.
  intros [Hp Ho] Hitems Hne. destruct s as [f z fl st lw op pa gy tk].
  simpl in Hp, Ho. subst pa op.
  destruct items as [| first rest]; [congruence | ].
  unfold itemsTable, validateItems, tableHeader, rgbTemplate. rewrite Hitems.
  cbn [truthy isArray negb orb elements List.length Nat.eqb].
  change primaryDarkRgb with (Some (122, 80, 81)%Z).
  unfold firstRowY. mstep.
  match goal with
  | |- context [forEachItem env (first :: rest) 0%nat _ ?s0] => exists s0
  end.
  split; [split; reflexivity | ]. split; [reflexivity | ]. split; [reflexivity | ].
  split.
  - intros y' body s1 H. rewrite H. mstep. rewrite app_nil_r. reflexivity.
  - intros e body s1 H. rewrite H. reflexivity.
Qed.


(** A render that completes, with the events of every section spelled out
    and the position the loop over the items ended at. *)
Lemma render_sections env order user filename events s :
  render env order user initial = (Ok filename, events, s) ->
  exists items body y' s0 s1,
    field order "items" = VArr items /\ items <> []
    /\ (clean s0 /\ gFont s0 = "Helvetica"%string /\ gSize s0 = 10%Z)
    /\ forEachItem env items 0 firstRowY s0 = (Ok y', body, s1)
    /\ events
       = (openEvents env order 0
          ++ logoEvents env ++ headingEvents env order 1
          ++ customerEvents (rt env) order user
          ++ headerEvents tableStartY (tableStartY + 10) ++ body
          ++ totalsEvents env order (y' + 20)
          ++ footerEvents (totalsEnd env order (y' + 20))
          ++ [EndDocument])%list.
Proof.
  unfold render. intros H.
  apply bind_ok in H. destruct H as (fn & e1 & s1 & r1 & Hopen & H & ->).
  apply openOutput_ok in Hopen. destruct Hopen as (Hdir & -> & -> & ->).
  apply bind_ok in H. destruct H as ([] & e2 & s2 & r2 & Hhead & H & ->).
  destruct (headerSection_run env order (tick initial) (tick_clean _ initial_clean))
    as (s2' & Hhead' & Hc2 & _).
  rewrite Hhead' in Hhead. inversion Hhead; subst e2 s2'; clear Hhead.
  apply bind_ok in H. destruct H as ([] & e3 & s3 & r3 & Hcust & H & ->).
  destruct (customerSection_events env order user s2 Hc2) as (s3' & Hcust' & Hc3 & _).
  rewrite Hcust' in Hcust. inversion Hcust; subst e3 s3'; clear Hcust.
  apply bind_ok in H. destruct H as ([] & e4 & s4 & r4 & Htab & H & ->).
  destruct (itemsInvalid order) eqn:Hinv;
    [rewrite (itemsTable_invalid env order _ Hinv) in Htab; discriminate Htab | ].
  destruct (itemsValid_inv order Hinv) as (items & Hitems & Hne).
  destruct (itemsTable_loop env order s3 items Hc3 Hitems Hne) as (s0 & Hc0 & Hf0 & Hz0 & Hok & Hthrow).
  destruct (forEachItem env items 0 firstRowY s0) as [[[y' | e] body] s1] eqn:Hloop;
    [ | rewrite (Hthrow _ _ _ eq_refl) in Htab; discriminate Htab ].
  rewrite (Hok _ _ _ eq_refl) in Htab. inversion Htab; subst e4 s4; clear Htab.
  destruct (forEachItem_paginated env items _ _ _ _ _ _ Hc0 Hloop) as (_ & Hc1 & _).
  assert (Hc4 : clean (setY (y' + 20) s1)) by (destruct Hc1; split; assumption).
  apply bind_ok in H. destruct H as ([] & e5 & s5 & r5 & Htot & H & ->).
  destruct (totalsSection_end env order _ Hc4) as (s5' & Htot' & Hc5 & Hy5).
  rewrite Htot' in Htot. inversion Htot; subst e5 s5'; clear Htot.
  apply bind_ok in H. destruct H as ([] & e6 & s6 & r6 & Hfoot & H & ->).
  destruct (footerSection_events env s5 Hc5) as (s6' & Hfoot' & _).
  rewrite Hfoot' in Hfoot. inversion Hfoot; subst e6 s6'; clear Hfoot.
  rewrite Hy5. cbn [gY setY].
  revert H. mstep. intros H. inversion H; subst; clear H.
  exists items, body, y', s0, s1.
  split; [assumption | ]. split; [assumption | ]. split; [auto | ].
  split; [exact Hloop | ].
  rewrite <- !app_assoc. reflexivity.
Qed.









(** The same of a render that succeeds. *)
Lemma resolved_sections env order user reference events :
  generateInvoicePDF env order user = (Resolved reference, events) ->
  exists items body y' s0 s1,
    field order "items" = VArr items /\ items <> []
    /\ (clean s0 /\ gFont s0 = "Helvetica"%string /\ gSize s0 = 10%Z)
    /\ forEachItem env items 0 firstRowY s0 = (Ok y', body, s1)
    /\ events
       = (openEvents env order 0
          ++ logoEvents env ++ headingEvents env order 1
          ++ customerEvents (rt env) order user
          ++ headerEvents tableStartY (tableStartY + 10) ++ body
          ++ totalsEvents env order (y' + 20)
          ++ footerEvents (totalsEnd env order (y' + 20))
          ++ [EndDocument])%list.
Proof.
  intros H. destruct (generate_resolved _ _ _ _ _ H) as (s & Hr & _).
  exact (render_sections _ _ _ _ _ _ Hr).
Qed.

(* ------------------------------------------------------------------ *)
(** ** The items check *)

(** C2, as stated, fails: with an empty list of items the promise is
    rejected, but by then the directory has been created, the output file
    opened and the heading drawn. *)
Lemma empty_items_rejected_after_io :
  itemsInvalid sampleOrderNoItems = true
  /\ fst (generateInvoicePDF sampleEnv sampleOrderNoItems sampleUser)
     = Rejected (Error "Order items are missing or invalid")
  /\ snd (generateInvoicePDF sampleEnv sampleOrderNoItems sampleUser) <> []
  /\ In (Mkdir ["srv"; "backend"; "uploads"; "invoices"]%string)
        (snd (generateInvoicePDF sampleEnv sampleOrderNoItems sampleUser))
  /\ In (CreateWriteStream
           ["srv"; "backend"; "uploads"; "invoices";
            "invoice-ORD-2-1700000000000.pdf"]%string None)
        (snd (generateInvoicePDF sampleEnv sampleOrderNoItems sampleUser))
  /\ In (headingLine "INVOICE" invoiceTitleY "Helvetica-Bold" 36 colors.primaryDark)
        (snd (generateInvoicePDF sampleEnv sampleOrderNoItems sampleUser)).
Proof.
  split; [reflexivity | ]. split; [vm_compute; reflexivity | ].
  split; [vm_compute; discriminate | ].
  split; [vm_compute; tauto | ]. split; vm_compute; tauto.
Qed.

(** C2, amended.  When [order.items] is missing, not an array or empty,
    and the directory step does not fail, the promise is rejected with the
    error [Order items are missing or invalid]; the check is made at the
    items table, so the events caused are exactly those of opening the
    output (directory, document, write stream), of the heading and of the
    customer block, and nothing of the table, the totals or the footer. *)
Theorem invalid_items_rejected env order user :
  itemsInvalid order = true ->
  directoryReady env ->
  exists customer s s',
    customerSection env order user s = (Ok tt, customer, s')
    /\ generateInvoicePDF env order user
       = (Rejected (Error "Order items are missing or invalid"),
          (openEvents env order 0
           ++ (logoEvents env ++ headingEvents env order 1)
           ++ customer)%list)
    /\ In (CreateWriteStream (pathJoin (invoicesDir env) [fileName env order 0]) None)
          (openEvents env order 0)
    /\ ~ In EndDocument
           (openEvents env order 0
            ++ (logoEvents env ++ headingEvents env order 1)
            ++ customer)%list.
Proof.
  intros Hinv Hdir.
  destruct (headerSection_run env order (tick initial) (tick_clean _ initial_clean))
    as (s2 & Hhead & Hc2 & _).
  destruct (customerSection_run env order user s2 Hc2)
    as (customer & s3 & Hcust & Hc3 & _ & _ & Hend).
  exists customer, s2, s3. split; [exact Hcust | ]. split; [ | split ].
  - unfold generateInvoicePDF, render.
    rewrite (bind_run _ _ _ _ _ _ (openOutput_run env order initial Hdir)).
    rewrite (bind_run _ _ _ _ _ _ Hhead).
    rewrite (bind_run _ _ _ _ _ _ Hcust).
    rewrite (bind_throw _ _ _ _ _ _ (itemsTable_invalid env order s3 Hinv)).
    rewrite !app_nil_r. reflexivity.
  - unfold openEvents. apply in_or_app. right. simpl. tauto.
  - intros Hin. apply in_app_or in Hin. destruct Hin as [Hin | Hin].
    + unfold openEvents in Hin.
      destruct (existsSync env (invoicesDir env)); simpl in Hin; intuition discriminate.
    + apply in_app_or in Hin. destruct Hin as [Hin | Hin]; [ | exact (Hend Hin) ].
      apply in_app_or in Hin. destruct Hin as [Hin | Hin].
      * unfold logoEvents in Hin. destruct (logoPath env); [ | destruct Hin ].
        destruct (existsSync env p); [ | destruct Hin ].
        destruct (imageError env); simpl in Hin; intuition discriminate.
      * simpl in Hin. intuition discriminate.
Qed.

Lemma invalid_items_rejected_witness :
  itemsInvalid sampleOrderNoItems = true
  /\ directoryReady sampleEnv
  /\ exists customer s s',
       customerSection sampleEnv sampleOrderNoItems sampleUser s = (Ok tt, customer, s')
       /\ generateInvoicePDF sampleEnv sampleOrderNoItems sampleUser
          = (Rejected (Error "Order items are missing or invalid"),
             (openEvents sampleEnv sampleOrderNoItems 0
              ++ (logoEvents sampleEnv ++ headingEvents sampleEnv sampleOrderNoItems 1)
              ++ customer)%list)
       /\ In (CreateWriteStream
                (pathJoin (invoicesDir sampleEnv) [fileName sampleEnv sampleOrderNoItems 0])
                None)
             (openEvents sampleEnv sampleOrderNoItems 0)
       /\ ~ In EndDocument
              (openEvents sampleEnv sampleOrderNoItems 0
               ++ (logoEvents sampleEnv ++ headingEvents sampleEnv sampleOrderNoItems 1)
               ++ customer)%list.
Proof.
  assert (H1 : itemsInvalid sampleOrderNoItems = true) by reflexivity.
  assert (H2 : directoryReady sampleEnv) by (right; reflexivity).
  split; [exact H1 | split; [exact H2 | ] ].
  exact (invalid_items_rejected sampleEnv sampleOrderNoItems sampleUser H1 H2).
Defined.

(* ------------------------------------------------------------------ *)
(** ** The date block *)


(** What the code does with a [createdAt] string that is not a date: the
    text is [Invalid Date]; the handler that would substitute today's date
    is never reached, because formatting an invalid Date does not throw. *)
Fact unparseable_createdAt_text env order n str :
  field order "createdAt" = VStr str -> str <> ""%string ->
  dateParse (rt env) str = None ->
  dateText env order n = "Invalid Date"%string.
Proof.
  intros Hf Hne Hp. unfold dateText, dateSource. rewrite Hf.
  rewrite or_truthy by (destruct str; [congruence | reflexivity]).
  simpl. rewrite Hp. reflexivity.
Qed.



(* ------------------------------------------------------------------ *)
(** ** Pagination *)

(** Ten rows after the first already carry the cursor past the threshold. *)
Lemma first_page_capacity k :
  (10 <= k)%nat -> threshold < firstRowY + 24 * inject_Z (Z.of_nat k).
Proof.
  intros Hk.
  assert (H : inject_Z 10 <= inject_Z (Z.of_nat k)) by (rewrite <- Zle_Qle; lia).
  change (inject_Z 10) with 10 in H.
  unfold threshold, firstRowY, tableStartY, billToBoxY, billToBoxHeight, invoiceInfoY,
    invoiceTitleY, headerRowHeight, pageHeight, margin.
  lra.
Qed.

Lemma continuation_row_above y : gtb y threshold = true -> rowY y <= threshold.
Proof.
  intros H. unfold rowY. rewrite H. vm_compute. discriminate.
Qed.

(** No row starts below the threshold, so none starts in the space
    reserved for the totals and the footer. *)
Lemma paginated_above r items index y events :
  Paginated r items index y events -> Forall aboveThreshold events.
Proof.
  induction 1 as [ | item rest index y h events Hg Hh Hrest IH
                   | item rest index y h events Hg Hh Hrest IH ].
  - constructor.
  - apply gtb_false in Hg.
    apply Forall_app. split.
    + unfold stripeEvents. destruct (Nat.eqb (index mod 2) 0); repeat constructor.
    + apply Forall_app. split; [ | assumption ].
      repeat constructor; simpl; assumption.
  - pose proof (continuation_row_above y Hg) as Hy.
    constructor; [exact I | ].
    apply Forall_app. split.
    + repeat constructor; simpl; vm_compute; discriminate.
    + apply Forall_app. split.
      * unfold stripeEvents. destruct (Nat.eqb (index mod 2) 0); repeat constructor.
      * apply Forall_app. split; [ | assumption ].
        repeat constructor; simpl; assumption.
Qed.

Lemma pagesStarted_open env order n : pagesStarted (openEvents env order n) = 1%nat.
Proof. unfold openEvents. destruct (existsSync env (invoicesDir env)); reflexivity. Qed.

Lemma pagesStarted_logo env : pagesStarted (logoEvents env) = 1%nat.
Proof.
  unfold logoEvents. destruct (logoPath env); [ | reflexivity ].
  destruct (existsSync env p); [ | reflexivity ].
  destruct (imageError env); reflexivity.
Qed.

Lemma pagesStarted_totals env order y : pagesStarted (totalsEvents env order y) = 1%nat.
Proof.
  unfold totalsEvents.
  destruct (gt0 (amount (rt env) order "shippingCost")); destruct (gt0 (amount (rt env) order "tax")); reflexivity.
Qed.

Lemma pagesStarted_customer r order user : pagesStarted (customerEvents r order user) = 1%nat.
Proof.
  unfold customerEvents. rewrite pagesStarted_app. cbn [pagesStarted].
  assert (H : forall lines y, pagesStarted (stack lines y) = 1%nat)
    by (induction lines; intros; simpl; auto).
  rewrite H. reflexivity.
Qed.

Lemma pagesStarted_footer y : pagesStarted (footerEvents y) = 1%nat.
Proof. reflexivity. Qed.

(** Among events that stay on one page there is no [doc.addPage()]. *)
Lemma no_page_started events : pagesStarted events = 1%nat -> ~ In AddPage events.
Proof.
  induction events as [| e rest IH]; simpl; [tauto | ].
  pose proof (pagesStarted_pos rest).
  destruct e; intros Hone [E | Hin]; try discriminate E; try lia; exact (IH Hone Hin).
Qed.

(** Splitting at an element that the second of two lists does not
    contain. *)
Lemma split_before_tail (l1 l2 pre post : list Event) :
  (l1 ++ l2 = pre ++ AddPage :: post)%list ->
  ~ In AddPage l2 ->
  exists post1, l1 = (pre ++ AddPage :: post1)%list /\ post = (post1 ++ l2)%list.
Proof.
  revert pre. induction l1 as [| e l1 IH]; intros pre Heq Hnot.
  - exfalso. apply Hnot. simpl in Heq. rewrite Heq.
    apply in_or_app. right. left. reflexivity.
  - destruct pre as [| p pre]; simpl in Heq; injection Heq as He Heq.
    + subst e. exists l1. split; [reflexivity | symmetry; exact Heq].
    + subst p. destruct (IH pre Heq Hnot) as (post1 & -> & ->).
      exists post1. split; reflexivity.
Qed.

(** In the loop the name of an item is measured in the regular 10 point
    font, or in the bold 11 point font of the header row that has just
    been redrawn. *)
Lemma rowHeight_measured env item y s :
  gFont s = "Helvetica"%string -> gSize s = 10%Z ->
  rowHeight env item y s = rowHeightAt env item y.
Proof. intros Hf Hz. unfold rowHeight, rowHeightAt. rewrite Hf, Hz. reflexivity. Qed.

(** The events of the loop over the items, when it completes. *)
Lemma forEachItem_rows env items :
  forall index y s y' events s',
    clean s -> gFont s = "Helvetica"%string -> gSize s = 10%Z ->
    forEachItem env items index y s = (Ok y', events, s') ->
    events = rowsEvents env items index y.
Proof.
  induction items as [| item rest IH]; intros index y s y' events s' Hs Hf Hz Hrun.
  - simpl in Hrun. injection Hrun as _ <- _. reflexivity.
  - simpl in Hrun. destruct (isObject item) eqn:Hobj.
    + destruct (itemRow_run env item index y s Hobj Hs) as (s1 & Hrow & Hs1 & Hf1 & Hz1).
      rewrite (bind_run _ _ _ _ _ _ Hrow) in Hrun.
      destruct (forEachItem env rest (S index) (rowY y + rowHeight env item y s) s1)
        as [[r ev2] s2] eqn:Hrest.
      injection Hrun as -> <- _.
      rewrite (IH _ _ _ _ _ _ Hs1 Hf1 Hz1 Hrest).
      rewrite (rowHeight_measured env item y s Hf Hz).
      cbn [rowsEvents]. rewrite <- !app_assoc. reflexivity.
    + destruct (itemRow_throw env item index y s Hobj) as (e & He).
      rewrite (bind_throw _ _ _ _ _ _ He) in Hrun. discriminate Hrun.
Qed.

(** A text that starts at or above the threshold and is at most 250
    points high ends on the page. *)
Lemma above_ends_within e env : aboveThreshold e -> endsOnPageWithin env 250 e.
Proof.
  destruct e; try (intros; exact I). cbn [aboveThreshold endsOnPageWithin].
  unfold threshold. intros Hy Hh. lra.
Qed.

(** C4, as stated, fails: a row can run past the end of the page it starts
    on.  On a machine that wraps after 36 characters, the name of 1500
    characters of the only item measures 485.52 points.  Its row is the
    first of the table and starts at 369 on the first page; the cursor is
    not past the threshold, so the code starts no page, and the name would
    end at 854.52, below the lower edge of the page at 841.89. *)
Lemma tall_row_leaves_page :
  fst (generateInvoicePDF sampleEnvWrapping sampleOrderTall sampleUser)
  = Resolved "/uploads/invoices/invoice-ORD-8-1700000000000.pdf"
  /\ ~ In AddPage (snd (generateInvoicePDF sampleEnvWrapping sampleOrderTall sampleUser))
  /\ In (cell tallName colItem firstRowY colItemWidth AlignLeft)
        (snd (generateInvoicePDF sampleEnvWrapping sampleOrderTall sampleUser))
  /\ firstRowY == 369
  /\ heightOfString sampleEnvWrapping tallName (Some colItemWidth) "Helvetica" 10
     == 48552 # 100
  /\ ~ endsOnPage sampleEnvWrapping
         (cell tallName colItem firstRowY colItemWidth AlignLeft).
Proof.
  assert (H : generateInvoicePDF sampleEnvWrapping sampleOrderTall sampleUser
              = (Resolved "/uploads/invoices/invoice-ORD-8-1700000000000.pdf",
                 snd (generateInvoicePDF sampleEnvWrapping sampleOrderTall sampleUser)))
    by (vm_compute; reflexivity).
  split; [rewrite H; reflexivity | ].
  destruct (resolved_sections _ _ _ _ _ H)
    as (items & body & y' & s0 & s1 & Hitems & _ & (Hc0 & Hf0 & Hz0) & Hloop & Hev).
  injection Hitems as <-.
  apply (forEachItem_rows _ _ _ _ _ _ _ _ Hc0 Hf0 Hz0) in Hloop. subst body.
  rewrite Hev. split; [ | split; [ | split; [ | split ] ] ].
  - intros Hin.
    repeat (apply in_app_or in Hin; destruct Hin as [Hin | Hin];
            [revert Hin; apply no_page_started;
             first [ apply pagesStarted_open | apply pagesStarted_logo
                   | apply pagesStarted_customer | apply pagesStarted_totals
                   | apply pagesStarted_footer | reflexivity ] | ]).
    revert Hin. apply no_page_started. reflexivity.
  - do 5 (apply in_or_app; right). apply in_or_app. left.
    cbn [rowsEvents]. apply in_or_app. right. apply in_or_app. right.
    apply in_or_app. left. left. reflexivity.
  - vm_compute. reflexivity.
  - vm_compute. reflexivity.
  - cbn [endsOnPage cell ty]. unfold textHeight. cbn [content width font size].
    intros Hfit. revert Hfit. vm_compute. intros Hfit. apply Hfit. reflexivity.
Qed.

(** C4, amended.  In every render that succeeds, the events of the table
    body are those of the rows of the order's items, in order, from the
    first row position.  Before each row the cursor is compared with
    [pageHeight - 250]; past it, [doc.addPage()] is called and the header
    row (bar and six column titles) is drawn near the top of the new page
    before the row.  The six cells of a row are drawn one after another at
    one height, at or above the threshold, and the cursor moves down by
    the height of the row, which follows the measured height of the name.
    The height of a row is not compared with the space left: a cell that
    is at most 250 points high ends on the page it starts on, a higher one
    need not.  The code starts pages nowhere but before a row, every page
    it starts begins with the header row, and for an order of 40 items or
    more it starts at least one, so that the file has two pages or more. *)
Theorem pagination env order user reference events :
  generateInvoicePDF env order user = (Resolved reference, events) ->
  exists items before body after,
    field order "items" = VArr items /\ items <> []
    /\ events = (before ++ body ++ after)%list
    /\ body = rowsEvents env items 0 firstRowY
    /\ Paginated (rt env) items 0 firstRowY body
    /\ Forall aboveThreshold body
    /\ Forall (endsOnPageWithin env 250) body
    /\ ~ In AddPage before /\ ~ In AddPage after
    /\ (forall pre post, events = (pre ++ AddPage :: post)%list ->
          exists rest, post = (continuationHeader ++ rest)%list)
    /\ ((40 <= List.length items)%nat -> (2 <= pagesStarted events)%nat).
Proof.
  intros H.
  destruct (resolved_sections _ _ _ _ _ H)
    as (items & body & y' & s0 & s1 & Hitems & Hne & (Hc0 & Hf0 & Hz0) & Hloop & Hev).
  destruct (forEachItem_paginated env items _ _ _ _ _ _ Hc0 Hloop) as (Hpag & _).
  pose proof (forEachItem_rows _ _ _ _ _ _ _ _ Hc0 Hf0 Hz0 Hloop) as Hrows.
  pose (before := (openEvents env order 0 ++ logoEvents env ++ headingEvents env order 1
                   ++ customerEvents (rt env) order user
                   ++ headerEvents tableStartY (tableStartY + 10))%list).
  pose (after := (totalsEvents env order (y' + 20)
                  ++ footerEvents (totalsEnd env order (y' + 20))
                  ++ [EndDocument])%list).
  assert (Hsplit : events = (before ++ body ++ after)%list).
  { rewrite Hev. unfold before, after. rewrite <- !app_assoc. reflexivity. }
  assert (Hb : pagesStarted before = 1%nat).
  { unfold before. rewrite !pagesStarted_app, pagesStarted_open, pagesStarted_logo,
      pagesStarted_customer. reflexivity. }
  assert (Ha : pagesStarted after = 1%nat).
  { unfold after. rewrite !pagesStarted_app, pagesStarted_totals, pagesStarted_footer.
    reflexivity. }
  assert (Hcount : pagesStarted events = pagesStarted body).
  { rewrite Hsplit, !pagesStarted_app, Hb, Ha. pose proof (pagesStarted_pos body). lia. }
  exists items, before, body, after.
  split; [assumption | ]. split; [assumption | ]. split; [exact Hsplit | ].
  split; [exact Hrows | ]. split; [exact Hpag | ].
  split; [exact (paginated_above _ _ _ _ _ Hpag) | ].
  split.
  { apply (Forall_impl (endsOnPageWithin env 250) (P := aboveThreshold));
      [ intros e; apply above_ends_within | exact (paginated_above _ _ _ _ _ Hpag) ]. }
  split; [exact (no_page_started _ Hb) | ].
  split; [exact (no_page_started _ Ha) | ].
  split.
  - intros pre post Heq. rewrite Hsplit in Heq.
    destruct (split_at_page _ _ _ _ Heq (no_page_started _ Hb)) as (pre1 & _ & Heq1).
    destruct (split_before_tail _ _ _ _ Heq1 (no_page_started _ Ha)) as (post1 & Hbody & ->).
    destruct (paginated_header _ _ _ _ _ Hpag _ _ Hbody) as (rest & ->).
    exists (rest ++ after)%list. rewrite <- app_assoc. reflexivity.
  - intros Hlen. rewrite Hcount.
    destruct items as [| item rest]; [congruence | ].
    apply (paginated_pages _ _ _ _ _ Hpag (List.length rest) eq_refl).
    apply first_page_capacity. simpl in Hlen. lia.
Qed.

(** On the sample order of forty items the code starts a second page. *)
Lemma pagination_witness :
  fst (generateInvoicePDF sampleEnv sampleOrder40 sampleUser)
  = Resolved "/uploads/invoices/invoice-ORD-40-1700000000000.pdf"
  /\ (2 <= pagesStarted (snd (generateInvoicePDF sampleEnv sampleOrder40 sampleUser)))%nat.
Proof.
  assert (H : generateInvoicePDF sampleEnv sampleOrder40 sampleUser
              = (Resolved "/uploads/invoices/invoice-ORD-40-1700000000000.pdf",
                 snd (generateInvoicePDF sampleEnv sampleOrder40 sampleUser)))
    by (vm_compute; reflexivity).
  split; [rewrite H; reflexivity | ].
  destruct (pagination _ _ _ _ _ H)
    as (items & before & body & after & Hitems & _ & Hev & _ & _ & _ & _ & _ & _ & _ & Hpages).
  apply Hpages. injection Hitems as <-. simpl. lia.
Defined.

(* ------------------------------------------------------------------ *)
(** ** The totals block *)

Lemma rupees_not_label r n (label : string) :
  (forall rest, label <> String "R" rest) -> rupees r n <> label.
Proof.
  intros H. unfold rupees. cbn [append]. apply not_eq_sym. apply H.
Qed.

Ltac not_a_label :=
  match goal with
  | H : rupees _ _ = _ |- _ =>
      exfalso; revert H; apply rupees_not_label; intros; discriminate
  | H : _ = _ |- _ => discriminate H
  | H : False |- _ => destruct H
  end.

(** The lines of the totals block, whatever height it starts at. *)
Lemma totals_lines env order y :
  In "Subtotal:"%string (contents (totalsEvents env order y))
  /\ (In "Shipping:"%string (contents (totalsEvents env order y))
      <-> gt0 (amount (rt env) order "shippingCost") = true)
  /\ (In "Tax (GST):"%string (contents (totalsEvents env order y))
      <-> gt0 (amount (rt env) order "tax") = true)
  /\ (exists pre yTotal,
        totalsEvents env order y
        = (pre ++ totalsPair (rt env) "Total:" (amount (rt env) order "total") yTotal
                    "Helvetica-Bold" 13 colors.primaryDark)%list
        /\ Forall regularStyle pre)
  /\ (gt0 (amount (rt env) order "shippingCost") = false -> gt0 (amount (rt env) order "tax") = false ->
      contents (totalsEvents env order y)
      = [ "Subtotal:"%string; rupees (rt env) (amount (rt env) order "subtotal");
          "Total:"%string; rupees (rt env) (amount (rt env) order "total") ]).
Proof.
  unfold totalsEvents.
  destruct (gt0 (amount (rt env) order "shippingCost")) eqn:Hs;
    destruct (gt0 (amount (rt env) order "tax")) eqn:Ht;
    cbn [contents app regularPair totalsPair totalsCell content In];
    (split; [left; reflexivity | ]);
    (split; [ split; [ intros H; try reflexivity;
                       repeat (destruct H as [H | H]; try not_a_label); not_a_label
                     | intros H; try discriminate H; tauto ] | ]);
    (split; [ split; [ intros H; try reflexivity;
                       repeat (destruct H as [H | H]; try not_a_label); not_a_label
                     | intros H; try discriminate H; tauto ] | ]);
    (split; [ | intros; try discriminate; reflexivity ]).
  - eexists (_ :: _ :: _ :: _ :: _ :: _ :: nil), _. split; [reflexivity | ].
    repeat constructor.
  - eexists (_ :: _ :: _ :: _ :: nil), _. split; [reflexivity | ].
    repeat constructor.
  - eexists (_ :: _ :: _ :: _ :: nil), _. split; [reflexivity | ].
    repeat constructor.
  - eexists (_ :: _ :: nil), _. split; [reflexivity | ].
    repeat constructor.
Qed.

(** In a render that succeeds the totals block sits between the rows of
    the table and the footer. *)
Lemma resolved_totals env order user reference events :
  generateInvoicePDF env order user = (Resolved reference, events) ->
  exists before y,
    events = (before ++ totalsEvents env order y
              ++ footerEvents (totalsEnd env order y) ++ [EndDocument])%list.
Proof.
  intros H.
  destruct (resolved_sections _ _ _ _ _ H)
    as (items & body & y' & s0 & s1 & _ & _ & _ & _ & Hev).
  exists (openEvents env order 0 ++ logoEvents env ++ headingEvents env order 1
          ++ customerEvents (rt env) order user
          ++ headerEvents tableStartY (tableStartY + 10) ++ body)%list,
    (y' + 20).
  rewrite Hev; rewrite <- !app_assoc; reflexivity.
Qed.

(** C5.  In every render that succeeds, the totals block - the events the
    totals section draws between the rows of the table and the footer -
    contains the Subtotal line; it contains the Shipping line exactly when
    [parseFloat(order.shippingCost || 0)] is greater than zero and the Tax
    line exactly when [parseFloat(order.tax || 0)] is greater than zero,
    each with its amount printed beside the label; and it ends with the
    Total label and value in 13 point bold, everything before them being
    in 10 point regular.  When neither shipping nor tax is greater than
    zero it shows Subtotal and Total only. *)
Theorem totals_block env order user reference events :
  generateInvoicePDF env order user = (Resolved reference, events) ->
  exists before y block,
    events = (before ++ block ++ footerEvents (totalsEnd env order y)
              ++ [EndDocument])%list
    /\ block = totalsEvents env order y
    /\ In "Subtotal:"%string (contents block)
    /\ (In "Shipping:"%string (contents block)
        <-> gt0 (parseFloat (rt env)
                   (jsOr (field order "shippingCost") (VNum (Fin 0)))) = true)
    /\ (In "Tax (GST):"%string (contents block)
        <-> gt0 (parseFloat (rt env) (jsOr (field order "tax") (VNum (Fin 0)))) = true)
    /\ (gt0 (parseFloat (rt env) (jsOr (field order "shippingCost") (VNum (Fin 0)))) = true ->
        exists pre post yLine,
          block
          = (pre
             ++ regularPair (rt env) "Shipping:"
                  (parseFloat (rt env) (jsOr (field order "shippingCost") (VNum (Fin 0))))
                  yLine
             ++ post)%list)
    /\ (gt0 (parseFloat (rt env) (jsOr (field order "tax") (VNum (Fin 0)))) = true ->
        exists pre post yLine,
          block
          = (pre
             ++ regularPair (rt env) "Tax (GST):"
                  (parseFloat (rt env) (jsOr (field order "tax") (VNum (Fin 0)))) yLine
             ++ post)%list)
    /\ (exists pre yTotal,
          block
          = (pre ++ totalsPair (rt env) "Total:"
                      (parseFloat (rt env) (jsOr (field order "total") (VNum (Fin 0))))
                      yTotal "Helvetica-Bold" 13 colors.primaryDark)%list
          /\ Forall regularStyle pre
          /\ Forall emphasisedStyle
               (totalsPair (rt env) "Total:"
                  (parseFloat (rt env) (jsOr (field order "total") (VNum (Fin 0))))
                  yTotal "Helvetica-Bold" 13 colors.primaryDark))
    /\ (gt0 (parseFloat (rt env) (jsOr (field order "shippingCost") (VNum (Fin 0)))) = false ->
        gt0 (parseFloat (rt env) (jsOr (field order "tax") (VNum (Fin 0)))) = false ->
        contents block
        = [ "Subtotal:"%string;
            rupees (rt env)
              (parseFloat (rt env) (jsOr (field order "subtotal") (VNum (Fin 0))));
            "Total:"%string;
            rupees (rt env)
              (parseFloat (rt env) (jsOr (field order "total") (VNum (Fin 0)))) ]).
Proof.
  intros H. destruct (resolved_totals _ _ _ _ _ H) as (before & y & Hev).
  exists before, y, (totalsEvents env order y).
  destruct (totals_lines env order y) as (H1 & H2 & H3 & (pre & yT & H4 & H5) & H6).
  split; [assumption | ]. split; [reflexivity | ].
  split; [assumption | ]. split; [exact H2 | ]. split; [exact H3 | ].
  split; [ | split; [ | split; [ | exact H6 ] ] ].
  - intros Hs. unfold totalsEvents. fold (amount (rt env) order "shippingCost") in Hs.
    rewrite Hs. eexists; eexists; eexists. reflexivity.
  - intros Ht. unfold totalsEvents. fold (amount (rt env) order "tax") in Ht.
    rewrite Ht. eexists (_ ++ _)%list; eexists; eexists.
    rewrite <- app_assoc. reflexivity.
  - exists pre, yT. split; [exact H4 | ]. split; [assumption | ].
    repeat constructor.
Qed.

(** On an order with a tax of 129.95 and a shipping cost of 0 the block
    shows Subtotal, Tax and Total. *)
Lemma totals_block_witness :
  fst (generateInvoicePDF sampleEnv sampleOrderTaxed sampleUser)
  = Resolved "/uploads/invoices/invoice-ORD-7-1700000000000.pdf"
  /\ exists before y block,
       snd (generateInvoicePDF sampleEnv sampleOrderTaxed sampleUser)
       = (before ++ block ++ footerEvents (totalsEnd sampleEnv sampleOrderTaxed y)
          ++ [EndDocument])%list
       /\ contents block
          = [ "Subtotal:"; "Rs. 2599.00"; "Tax (GST):"; "Rs. 129.95";
              "Total:"; "Rs. 2728.95" ]%string.
Proof.
  assert (H : generateInvoicePDF sampleEnv sampleOrderTaxed sampleUser
              = (Resolved "/uploads/invoices/invoice-ORD-7-1700000000000.pdf",
                 snd (generateInvoicePDF sampleEnv sampleOrderTaxed sampleUser)))
    by (vm_compute; reflexivity).
  split; [rewrite H; reflexivity | ].
  destruct (totals_block _ _ _ _ _ H) as (before & y & block & Hev & Hblock & _).
  exists before, y, block. split; [exact Hev | ].
  rewrite Hblock. vm_compute. reflexivity.
Defined.

(** C9.  In every render that succeeds, the last two texts before the
    footer are the Total label and the Total value, and the value is the
    stored [order.total], passed through [parseFloat(order.total || 0)] and
    formatted; no other field of the order, and no line item, enters it. *)
Theorem total_is_stored_total env order user reference events :
  generateInvoicePDF env order user = (Resolved reference, events) ->
  exists before footer yTotal,
    events
    = (before
       ++ [ totalsCell "Total:" (totalsStartX - totalsLabelWidth - 10) yTotal
              totalsLabelWidth "Helvetica-Bold" 13 colors.primaryDark;
            totalsCell
              (rupees (rt env)
                 (parseFloat (rt env) (jsOr (field order "total") (VNum (Fin 0)))))
              totalsStartX yTotal totalsValueWidth
              "Helvetica-Bold" 13 colors.textPrimary ]
       ++ footer ++ [EndDocument])%list
    /\ forall other : Obj,
         field other "total" = field order "total" ->
         grandTotal env other = grandTotal env order.
Proof.
  intros H. destruct (resolved_totals _ _ _ _ _ H) as (before & y & Hev).
  destruct (totals_lines env order y) as (_ & _ & _ & (pre & yT & Htot & _) & _).
  exists (before ++ pre)%list, (footerEvents (totalsEnd env order y)), yT. split.
  - rewrite Hev, Htot. rewrite <- !app_assoc. reflexivity.
  - intros other Hsame. unfold grandTotal. rewrite Hsame. reflexivity.
Qed.

Lemma total_is_stored_total_witness :
  fst (generateInvoicePDF sampleEnv sampleOrder sampleUser)
  = Resolved "/uploads/invoices/invoice-ORD-1-1700000000000.pdf"
  /\ exists yTotal,
       In (totalsCell "Rs. 999.00" totalsStartX yTotal totalsValueWidth
             "Helvetica-Bold" 13 colors.textPrimary)
          (snd (generateInvoicePDF sampleEnv sampleOrder sampleUser)).
Proof.
  assert (H : generateInvoicePDF sampleEnv sampleOrder sampleUser
              = (Resolved "/uploads/invoices/invoice-ORD-1-1700000000000.pdf",
                 snd (generateInvoicePDF sampleEnv sampleOrder sampleUser)))
    by (vm_compute; reflexivity).
  split; [rewrite H; reflexivity | ].
  destruct (total_is_stored_total _ _ _ _ _ H) as (before & footer & yT & Hev & _).
  exists yT. rewrite Hev.
  apply in_or_app. right. right. left.
  unfold totalsCell. f_equal.
Defined.

(* ------------------------------------------------------------------ *)
(** ** Line totals *)

Lemma field_other (k k' : string) (v : JsVal) (fields : Obj) :
  k <> k' -> field ((k, v) :: fields) k' = field fields k'.
Proof.
  intros H. cbn [field]. apply String.eqb_neq in H. rewrite H. reflexivity.
Qed.

(** The Total cell of a row, and the rest of its events. *)
Lemma itemRow_total env item index y s :
  isObject item = true -> clean s ->
  exists before s',
    itemRow env item index y s
    = (Ok (rowY y + rowHeight env item y s),
       (before
        ++ [cell (rupees (rt env)
                    (mul (parseFloat (rt env) (jsOr (getOpt item "price") (VNum (Fin 0))))
                         (toNumber (rt env)
                            (jsOr (getOpt item "quantity") (VNum (Fin 1))))))
                 colTotal (rowY y) colTotalWidth AlignRight])%list,
       s').
Proof.
  intros Hobj Hs.
  destruct (itemRow_run env item index y s Hobj Hs) as (s' & Hrun & _).
  eexists (breakEvents y ++ stripeEvents index (rowY y) (rowHeight env item y s)
           ++ _ :: _ :: _ :: _ :: _ :: nil)%list, s'.
  rewrite Hrun. rewrite <- !app_assoc. reflexivity.
Qed.

(** A property the row does not read does not change the row. *)
Lemma itemRow_unread env fields k v index y s :
  ~ In k readKeys ->
  itemRow env (VObj ((k, v) :: fields)) index y s = itemRow env (VObj fields) index y s.
Proof.
  intros Hk. unfold itemRow, prop. cbn [getProp].
  assert (Hne : forall k', In k' readKeys -> k <> k')
    by (intros k' Hin ->; exact (Hk Hin)).
  rewrite !field_other by (apply Hne; simpl; tauto).
  reflexivity.
Qed.

(** C6.  In every render that succeeds, the rows of the table are those of
    the order's items, and for every item the row ends with its Total
    cell, whose amount is the product, recomputed in the row, of
    [parseFloat(item.price || 0)] and [item.quantity || 1] - for a quantity
    that is a non-zero number, the price times that quantity.  The row
    reads the properties name, product, size, color, quantity and price of
    the item and no other: a stored total, under any other property name,
    changes nothing. *)
Theorem line_total_recomputed env order user reference events :
  generateInvoicePDF env order user = (Resolved reference, events) ->
  exists items before body after,
    field order "items" = VArr items
    /\ events = (before ++ body ++ after)%list
    /\ Paginated (rt env) items 0 firstRowY body
    /\ forall item, In item items ->
         (forall index y s, clean s ->
            exists cells s',
              itemRow env item index y s
              = (Ok (rowY y + rowHeight env item y s),
                 (cells
                  ++ [cell (rupees (rt env)
                              (mul (parseFloat (rt env)
                                      (jsOr (getOpt item "price") (VNum (Fin 0))))
                                   (toNumber (rt env)
                                      (jsOr (getOpt item "quantity") (VNum (Fin 1))))))
                           colTotal (rowY y) colTotalWidth AlignRight])%list,
                 s'))
         /\ (forall q, getOpt item "quantity" = VNum (Fin q) -> isZero q = false ->
               lineTotal (rt env) item
               = mul (parseFloat (rt env) (jsOr (getOpt item "price") (VNum (Fin 0))))
                     (Fin q))
         /\ (forall fields k v index y s,
               item = VObj fields -> ~ In k readKeys ->
               itemRow env (VObj ((k, v) :: fields)) index y s
               = itemRow env item index y s).
Proof.
  intros H.
  destruct (resolved_amounts _ _ _ _ _ H)
    as (items & before & body & y0 & footer & Hitems & Hev & Hpag & Hobj).
  exists items, before, body, (totalsEvents env order y0 ++ footer ++ [EndDocument])%list.
  split; [assumption | ]. split; [assumption | ]. split; [assumption | ].
  intros item Hin.
  assert (Hi : isObject item = true)
    by (rewrite Forall_forall in Hobj; exact (Hobj item Hin)).
  split; [ | split ].
  - intros index y s Hs. exact (itemRow_total env item index y s Hi Hs).
  - intros q Hq Hz. unfold lineTotal, itemPrice, itemQuantity. rewrite Hq.
    rewrite (or_truthy (VNum (Fin q))) by (cbn [truthy]; rewrite Hz; reflexivity).
    reflexivity.
  - intros fields k v index y s -> Hk. apply itemRow_unread. exact Hk.
Qed.

Lemma line_total_recomputed_witness :
  fst (generateInvoicePDF sampleEnv sampleOrder sampleUser)
  = Resolved "/uploads/invoices/invoice-ORD-1-1700000000000.pdf"
  /\ rupees (rt sampleEnv) (lineTotal (rt sampleEnv) sampleItem) = "Rs. 2599.00"%string
  /\ itemRow sampleEnv
       (VObj (("total", VStr "1.00")
              :: [ ("name", VStr "Silk Saree"); ("size", VStr "M"); ("color", VStr "Red");
                   ("quantity", VNum (Fin 2)); ("price", VStr "1299.50") ])%string)
       0 firstRowY initial
     = itemRow sampleEnv sampleItem 0 firstRowY initial.
Proof.
  assert (H : generateInvoicePDF sampleEnv sampleOrder sampleUser
              = (Resolved "/uploads/invoices/invoice-ORD-1-1700000000000.pdf",
                 snd (generateInvoicePDF sampleEnv sampleOrder sampleUser)))
    by (vm_compute; reflexivity).
  split; [rewrite H; reflexivity | ].
  destruct (line_total_recomputed _ _ _ _ _ H) as (items & _ & _ & _ & Hitems & _ & _ & Hrow).
  injection Hitems as <-.
  destruct (Hrow sampleItem (or_introl eq_refl)) as (_ & Hq & Hk).
  split.
  - rewrite (Hq 2 eq_refl eq_refl). vm_compute. reflexivity.
  - apply Hk; [reflexivity | ]. simpl. intuition discriminate.
Defined.

(* ------------------------------------------------------------------ *)
(** ** Amounts *)

Local Open Scope string_scope.

Lemma allDigits_app a b : allDigits (a ++ b) = allDigits a && allDigits b.
Proof. induction a as [| c a IH]; simpl; [reflexivity | ]. rewrite IH. apply andb_assoc. Qed.

Lemma length_app a b : strlen (a ++ b) = (strlen a + strlen b)%nat.
Proof. unfold strlen. induction a as [| c a IH]; simpl; [reflexivity | ]. rewrite IH. reflexivity. Qed.

Lemma substring_all b : substring 0 (String.length b) b = b.
Proof. induction b as [| c b IH]; simpl; [reflexivity | ]. rewrite IH. reflexivity. Qed.

Lemma take_app a b : takeStr (strlen a) (a ++ b) = a.
Proof.
  unfold takeStr, strlen. induction a as [| c a IH]; simpl.
  - destruct b; reflexivity.
  - rewrite IH. reflexivity.
Qed.

Lemma drop_app a b : dropStr (strlen a) (a ++ b) = b.
Proof.
  unfold dropStr. rewrite length_app.
  replace (strlen a + strlen b - strlen a)%nat with (strlen b) by lia.
  unfold strlen. induction a as [| c a IH]; simpl.
  - apply substring_all.
  - exact IH.
Qed.

Lemma last_two m :
  (2 <= strlen m)%nat ->
  exists whole d1 d2, m = whole ++ String d1 (String d2 EmptyString) /\ strlen whole = (strlen m - 2)%nat.
Proof.
  unfold strlen. induction m as [| c m IH]; simpl; intros H; [lia | ].
  destruct m as [| c2 m]; simpl in *; [lia | ].
  destruct m as [| c3 m].
  - exists EmptyString, c, c2. split; reflexivity.
  - destruct IH as (w & d1 & d2 & Hm & Hl); [simpl; lia | ].
    exists (String c w), d1, d2. simpl. rewrite <- Hm. split; [reflexivity | ].
    simpl in Hl. lia.
Qed.

Lemma digits_uint d : allDigits (NilEmpty.string_of_uint d) = true.
Proof. induction d; simpl; auto. Qed.

Lemma decimal_digits n : allDigits (decimal n) = true /\ (1 <= strlen (decimal n))%nat.
Proof.
  unfold decimal, NilZero.string_of_uint.
  destruct (N.to_uint (Z.to_N n)) eqn:E; split; try reflexivity; try (simpl; lia);
  rewrite <- E; apply digits_uint.
Qed.

Lemma repeat_digits n : allDigits (repeatChar "0" n) = true.
Proof. induction n; simpl; auto. Qed.

Lemma repeat_length c n : strlen (repeatChar c n) = n.
Proof. unfold strlen. induction n; simpl; auto. Qed.

Lemma fixedDigits_shape x :
  exists whole d1 d2,
    fixedDigits x = whole ++ "." ++ String d1 (String d2 EmptyString)
    /\ whole <> EmptyString /\ allDigits whole = true /\ isDigit d1 = true /\ isDigit d2 = true.
Proof.
  unfold fixedDigits.
  destruct (decimal_digits (nearestHundredths x)) as [Hd Hl].
  set (m := decimal (nearestHundredths x)) in *.
  set (m' := if (strlen m <=? 2)%nat then repeatChar "0" (3 - strlen m) ++ m else m).
  assert (Hm' : allDigits m' = true /\ (3 <= strlen m')%nat).
  { unfold m'. destruct (strlen m <=? 2)%nat eqn:E.
    - apply Nat.leb_le in E. rewrite allDigits_app, repeat_digits, Hd.
      rewrite length_app, repeat_length. split; [reflexivity | lia].
    - apply Nat.leb_gt in E. split; [assumption | lia]. }
  destruct Hm' as [Hd' Hl']. clearbody m'.
  destruct (last_two m') as (whole & d1 & d2 & Hm & Hw); [lia | ].
  exists whole, d1, d2.
  rewrite <- Hw. subst m'. rewrite take_app, drop_app.
  split; [reflexivity | ].
  rewrite allDigits_app in Hd'. apply andb_true_iff in Hd'. destruct Hd' as [H1 H2].
  simpl in H2. apply andb_true_iff in H2. destruct H2 as [H2 H3].
  apply andb_true_iff in H3. destruct H3 as [H3 _].
  repeat split; try assumption.
  intros ->. unfold strlen in Hl'. simpl in Hl'. lia.
Qed.

Lemma toFixed2_shape f q :
  Qabs q < toFixedThreshold ->
  exists sign whole d1 d2,
    toFixed2 f (Fin q) = sign ++ whole ++ "." ++ String d1 (String d2 EmptyString)
    /\ (sign = EmptyString \/ sign = "-")
    /\ whole <> EmptyString /\ allDigits whole = true
    /\ isDigit d1 = true /\ isDigit d2 = true.
Proof.
  intros Hq. unfold toFixed2.
  assert (Hb : Qle_bool toFixedThreshold (Qabs q) = false).
  { destruct (Qle_bool toFixedThreshold (Qabs q)) eqn:E; [ | reflexivity ].
    apply Qle_bool_iff in E. exfalso. apply (Qlt_not_le _ _ Hq E). }
  rewrite Hb.
  destruct (fixedDigits_shape (Qabs q)) as (whole & d1 & d2 & Hf & Hrest).
  exists (if isNeg q then "-" else EmptyString), whole, d1, d2.
  rewrite Hf. split; [reflexivity | ].
  split; [destruct (isNeg q); auto | exact Hrest].
Qed.

(** Rounding to the nearest hundredth, the larger on a tie; the sign is
    kept for an amount that rounds to zero. *)
Example toFixed2_ex1 : toFixed2 (fun _ => "") (Fin (12995 # 10)) = "1299.50".
Proof. vm_compute. reflexivity. Qed.

Example toFixed2_ex2 : toFixed2 (fun _ => "") (Fin (-(1 # 1000))) = "-0.00".
Proof. vm_compute. reflexivity. Qed.

Example toFixed2_ex3 : toFixed2 (fun _ => "") (Fin (5 # 1000)) = "0.01".
Proof. vm_compute. reflexivity. Qed.

Example toFixed2_ex4 : toFixed2 (fun _ => "") (Fin 0) = "0.00".
Proof. vm_compute. reflexivity. Qed.

Lemma falsy_amount r v : truthy v = false -> parseFloat r (jsOr v (VNum (Fin 0))) = Fin 0.
Proof. intros H. rewrite (or_falsy _ _ H). reflexivity. Qed.

(** C8, as stated, fails: a subtotal that is not a number is not coerced
    to 0; the render succeeds and prints [Rs. NaN]. *)
Lemma bad_amount_prints_NaN :
  field sampleOrderBadAmount "subtotal" = VStr "n/a"
  /\ fst (generateInvoicePDF sampleEnv sampleOrderBadAmount sampleUser)
     = Resolved "/uploads/invoices/invoice-ORD-5-1700000000000.pdf"
  /\ In (totalsCell "Rs. NaN" totalsStartX 413 totalsValueWidth
           "Helvetica" 10 colors.textPrimary)
        (snd (generateInvoicePDF sampleEnv sampleOrderBadAmount sampleUser))
  /\ ~ twoFractionDigits "Rs. NaN".
Proof.
  split; [reflexivity | ]. split; [vm_compute; reflexivity | ].
  split; [vm_compute; tauto | ].
  intros (sign & whole & d1 & d2 & Heq & Hsign & Hne & Hw & _).
  destruct Hsign as [-> | ->]; cbn [append] in Heq;
    injection Heq as Heq; destruct whole as [| c w]; try congruence;
    cbn [append] in Heq; injection Heq as Hc _; subst c; discriminate Hw.
Qed.

(** C8, amended.  In every render that succeeds the amounts are printed in
    the rows of the table (price and line total of each item) and in the
    totals block (subtotal, shipping, tax, total), each as [Rs. ] followed
    by [toFixed(2)] of [parseFloat(value || 0)] (for a line total, of the
    product of price and quantity).  A missing or otherwise falsy value is
    coerced to 0 and prints [Rs. 0.00]; every finite amount below [10^21]
    in magnitude prints with exactly two fraction digits; a non-empty
    string without a numeric prefix is not coerced and prints [Rs. NaN]. *)
Theorem money_format env order user reference events :
  generateInvoicePDF env order user = (Resolved reference, events) ->
  (exists items before body y footer,
     field order "items" = VArr items
     /\ events = (before ++ body ++ totalsEvents env order y ++ footer ++ [EndDocument])%list
     /\ Paginated (rt env) items 0 firstRowY body
     /\ Forall (fun v => isObject v = true) items)
  /\ (forall q, Qabs q < toFixedThreshold -> twoFractionDigits (rupees (rt env) (Fin q)))
  /\ (forall v, truthy v = false ->
        rupees (rt env) (parseFloat (rt env) (jsOr v (VNum (Fin 0)))) = "Rs. 0.00")
  /\ (forall str, str <> EmptyString -> parseFloatStr str = NaN ->
        rupees (rt env) (parseFloat (rt env) (jsOr (VStr str) (VNum (Fin 0)))) = "Rs. NaN").
Proof.
  intros H. split; [exact (resolved_amounts _ _ _ _ _ H) | ].
  split; [ | split ].
  - intros q Hq. unfold twoFractionDigits, rupees.
    destruct (toFixed2_shape (numberToString (rt env)) q Hq)
      as (sign & whole & d1 & d2 & Heq & Hrest).
    exists sign, whole, d1, d2. rewrite Heq. split; [reflexivity | exact Hrest].
  - intros v Hv. rewrite (falsy_amount _ _ Hv). reflexivity.
  - intros str Hne Hnan. rewrite or_truthy by (destruct str; [congruence | reflexivity]).
    unfold rupees. cbn [parseFloat toStr]. rewrite Hnan. reflexivity.
Qed.

Lemma money_format_witness :
  fst (generateInvoicePDF sampleEnv sampleOrder sampleUser)
  = Resolved "/uploads/invoices/invoice-ORD-1-1700000000000.pdf"
  /\ twoFractionDigits (rupees (rt sampleEnv) (Fin (129950 # 100)))
  /\ rupees (rt sampleEnv) (Fin (129950 # 100)) = "Rs. 1299.50".
Proof.
  assert (H : generateInvoicePDF sampleEnv sampleOrder sampleUser
              = (Resolved "/uploads/invoices/invoice-ORD-1-1700000000000.pdf",
                 snd (generateInvoicePDF sampleEnv sampleOrder sampleUser)))
    by (vm_compute; reflexivity).
  split; [rewrite H; reflexivity | ].
  destruct (money_format _ _ _ _ _ H) as (_ & Hfmt & _).
  split; [ | vm_compute; reflexivity ].
  apply Hfmt. vm_compute. reflexivity.
Defined.

(* ------------------------------------------------------------------ *)
(** ** The artifact reference *)

Lemma append_inv_l a b c : a ++ b = a ++ c -> b = c.
Proof.
  induction a as [| x a IH]; simpl; intros H; [assumption | ].
  injection H as H. auto.
Qed.

Lemma append_inv_r a b c : a ++ c = b ++ c -> a = b.
Proof.
  intros H.
  assert (Hlen : strlen a = strlen b).
  { apply (f_equal strlen) in H. rewrite !length_app in H. lia. }
  revert b H Hlen. induction a as [| x a IH]; intros [| y b] H Hlen;
    try (unfold strlen in Hlen; simpl in Hlen; discriminate).
  - reflexivity.
  - simpl in H. injection H as -> H. f_equal. apply IH; [assumption | ].
    unfold strlen in *. simpl in Hlen. lia.
Qed.

Lemma decimal_inj (m n : Z) :
  (0 <= m)%Z -> (0 <= n)%Z -> decimal m = decimal n -> m = n.
Proof.
  intros Hm Hn H. unfold decimal in H.
  assert (Hnil : forall k, N.to_uint k <> Decimal.Nil).
  { intros [| p]; [discriminate | apply DecimalPos.Unsigned.to_uint_nonnil]. }
  assert (Hu : N.to_uint (Z.to_N m) = N.to_uint (Z.to_N n)).
  { pose proof (NilZero.usu _ (Hnil (Z.to_N m))) as H1.
    pose proof (NilZero.usu _ (Hnil (Z.to_N n))) as H2.
    rewrite H in H1. rewrite H1 in H2. injection H2 as H2. exact H2. }
  apply DecimalN.Unsigned.to_uint_inj in Hu.
  apply (f_equal Z.of_N) in Hu. rewrite !Z2N.id in Hu; assumption.
Qed.

(** The clock reading in a file name is its decimal text. *)
Lemma clock_text r (n : Z) :
  (0 <= n < 10 ^ 21)%Z -> numToStr r (Fin (inject_Z n)) = decimal n.
Proof.
  intros [H0 H1]. unfold numToStr.
  assert (Habs : Qabs (inject_Z n) = inject_Z n).
  { unfold Qabs, inject_Z. simpl. rewrite Z.abs_eq; [reflexivity | assumption]. }
  rewrite Habs.
  assert (Hi : isInteger (inject_Z n) = true).
  { unfold isInteger. rewrite Qfloor_Z. apply Qeq_bool_iff. reflexivity. }
  assert (Ht : Qle_bool toFixedThreshold (inject_Z n) = false).
  { destruct (Qle_bool toFixedThreshold (inject_Z n)) eqn:E; [ | reflexivity ].
    apply Qle_bool_iff in E. unfold toFixedThreshold in E.
    rewrite <- Zle_Qle in E. lia. }
  assert (Hn : isNeg (inject_Z n) = false).
  { unfold isNeg. apply negb_false_iff. apply Qle_bool_iff.
    change 0%Q with (inject_Z 0). rewrite <- Zle_Qle. assumption. }
  rewrite Hi, Ht, Hn, Qfloor_Z. reflexivity.
Qed.

Lemma render_unfold env order user :
  render env order user = bind (openOutput env order) (afterOpening env order user).
Proof. reflexivity. Qed.

(** What is drawn after the opening does not depend on the file name. *)
Lemma afterOpening_events env order user f g s :
  snd (fst (afterOpening env order user f s)) = snd (fst (afterOpening env order user g s)).
Proof.
  unfold afterOpening, bind.
  destruct (headerSection env order s) as [[[[] | e] ev1] s1]; [ | reflexivity ].
  destruct (customerSection env order user s1) as [[[[] | e] ev2] s2]; [ | reflexivity ].
  destruct (itemsTable env order s2) as [[[[] | e] ev3] s3]; [ | reflexivity ].
  destruct (totalsSection env order s3) as [[[[] | e] ev4] s4]; [ | reflexivity ].
  destruct (footerSection env s4) as [[[[] | e] ev5] s5]; [ | reflexivity ].
  reflexivity.
Qed.

(** With a date field present, nothing after the opening reads the clock. *)
Lemma headerSection_clock env c order s :
  datePresent order = true ->
  headerSection (withClock env c) order s = headerSection env order s.
Proof.
  unfold datePresent. intros H.
  unfold headerSection, formatInvoiceDate, dateValue, orElse.
  destruct (truthy (field order "createdAt")); [reflexivity | ].
  destruct (truthy (field order "orderDate")); [reflexivity | ].
  destruct (truthy (field order "date")); [reflexivity | discriminate ].
Qed.

Lemma afterOpening_clock env c order user f s :
  datePresent order = true ->
  afterOpening (withClock env c) order user f s = afterOpening env order user f s.
Proof.
  intros H. unfold afterOpening.
  unfold bind at 1. rewrite (headerSection_clock env c order s H). reflexivity.
Qed.

Lemma drawn_app a b : drawn (a ++ b)%list = (drawn a ++ drawn b)%list.
Proof. apply filter_app. Qed.

Lemma drawn_open env order n : drawn (openEvents env order n) = [].
Proof. unfold openEvents. destruct (existsSync env (invoicesDir env)); reflexivity. Qed.

(** The events of a render whose directory step succeeds. *)
Lemma generate_events env order user :
  directoryReady env ->
  snd (generateInvoicePDF env order user)
  = (openEvents env order 0
     ++ snd (fst (afterOpening env order user EmptyString (tick initial))))%list.
Proof.
  intros Hdir. unfold generateInvoicePDF. rewrite render_unfold.
  rewrite (bind_run _ _ _ _ _ _ (openOutput_run env order initial Hdir)).
  rewrite (afterOpening_events env order user EmptyString
             (fileName env order (ticks initial)) (tick initial)).
  destruct (afterOpening env order user (fileName env order (ticks initial)) (tick initial))
    as [[[fn | e] ev] s]; [ | reflexivity ].
  destruct (streamError env); reflexivity.
Qed.

Lemma resolved_ready env order user reference events :
  generateInvoicePDF env order user = (Resolved reference, events) ->
  directoryReady env /\ reference = "/uploads/invoices/" ++ fileName env order 0.
Proof.
  intros H. destruct (generate_resolved _ _ _ _ _ H) as (s & Hr & Href & _).
  destruct (render_ok _ _ _ _ _ _ Hr) as (? & ? & ? & ? & ? & Hdir & _).
  auto.
Qed.

(** C7, as stated, fails: two renders of one order within the same
    millisecond (the second finds the directory in place) return the same
    reference and open the same file, and the stream is opened without any
    flag, that is for plain writing, not in exclusive create mode. *)
Lemma same_millisecond_same_file :
  fst (generateInvoicePDF sampleEnv sampleOrder sampleUser)
  = Resolved "/uploads/invoices/invoice-ORD-1-1700000000000.pdf"
  /\ fst (generateInvoicePDF sampleEnvAgain sampleOrder sampleUser)
     = Resolved "/uploads/invoices/invoice-ORD-1-1700000000000.pdf"
  /\ In (CreateWriteStream
           ["srv"; "backend"; "uploads"; "invoices"; "invoice-ORD-1-1700000000000.pdf"]
           None)
        (snd (generateInvoicePDF sampleEnv sampleOrder sampleUser))
  /\ In (CreateWriteStream
           ["srv"; "backend"; "uploads"; "invoices"; "invoice-ORD-1-1700000000000.pdf"]
           None)
        (snd (generateInvoicePDF sampleEnvAgain sampleOrder sampleUser))
  /\ effectiveFlags None <> "wx".
Proof.
  split; [vm_compute; reflexivity | ]. split; [vm_compute; reflexivity | ].
  split; [vm_compute; tauto | ]. split; [vm_compute; tauto | ].
  discriminate.
Qed.

(** C7, amended.  A render that succeeds returns [/uploads/invoices/]
    followed by [invoice-<orderId>-<epochMillis>.pdf], where the
    milliseconds are the clock reading taken when the name is built.  The
    output stream is created on that file without flags, so with the
    default flag [w].  A second render of the same input under another
    clock returns the same reference when the two readings are equal and a
    different one when they differ; when the order carries a date, what
    the two renders draw is identical. *)
Theorem artifact_reference env order user reference events :
  generateInvoicePDF env order user = (Resolved reference, events) ->
  reference
  = "/uploads/invoices/" ++ "invoice-" ++ toStr (rt env) (field order "orderId") ++ "-"
    ++ numToStr (rt env) (Fin (inject_Z (clock (rt env) 0))) ++ ".pdf"
  /\ ((0 <= clock (rt env) 0 < 10 ^ 21)%Z ->
      numToStr (rt env) (Fin (inject_Z (clock (rt env) 0))) = decimal (clock (rt env) 0))
  /\ In (CreateWriteStream (pathJoin (invoicesDir env) [fileName env order 0]) None) events
  /\ effectiveFlags None = "w"
  /\ forall c reference' events',
       generateInvoicePDF (withClock env c) order user = (Resolved reference', events') ->
       (c 0%nat = clock (rt env) 0 -> reference' = reference)
       /\ ((0 <= c 0%nat < 10 ^ 21)%Z -> (0 <= clock (rt env) 0 < 10 ^ 21)%Z ->
           c 0%nat <> clock (rt env) 0 -> reference' <> reference)
       /\ (datePresent order = true -> drawn events' = drawn events).
Proof.
  intros H. destruct (resolved_ready _ _ _ _ _ H) as (Hdir & Href).
  assert (Hev : events = snd (generateInvoicePDF env order user)) by (rewrite H; reflexivity).
  rewrite (generate_events env order user Hdir) in Hev.
  split; [exact Href | ]. split; [apply clock_text | ].
  split.
  { rewrite Hev. apply in_or_app. left. unfold openEvents.
    apply in_or_app. right. simpl. tauto. }
  split; [reflexivity | ].
  intros c reference' events' H'.
  destruct (resolved_ready _ _ _ _ _ H') as (Hdir' & Href').
  assert (Hev' : events' = snd (generateInvoicePDF (withClock env c) order user))
    by (rewrite H'; reflexivity).
  rewrite (generate_events (withClock env c) order user Hdir') in Hev'.
  change (fileName (withClock env c) order 0)
    with ("invoice-" ++ toStr (rt env) (field order "orderId") ++ "-"
          ++ numToStr (rt env) (Fin (inject_Z (c 0%nat))) ++ ".pdf") in Href'.
  unfold fileName in Href.
  split; [ | split ].
  - intros Hc. rewrite Href', Href, Hc. reflexivity.
  - intros Hc0 Hc1 Hne Heq. rewrite Href', Href in Heq.
    do 4 apply append_inv_l in Heq. apply append_inv_r in Heq.
    rewrite !clock_text in Heq by assumption.
    apply decimal_inj in Heq; [exact (Hne Heq) | tauto | tauto].
  - intros Hd. rewrite Hev', Hev, !drawn_app, !drawn_open.
    rewrite (afterOpening_clock env c order user EmptyString (tick initial) Hd).
    reflexivity.
Qed.

Lemma artifact_reference_witness :
  fst (generateInvoicePDF sampleEnv sampleOrder sampleUser)
  = Resolved "/uploads/invoices/invoice-ORD-1-1700000000000.pdf"
  /\ fileName sampleEnv sampleOrder 0 = "invoice-ORD-1-1700000000000.pdf".
Proof.
  assert (H : generateInvoicePDF sampleEnv sampleOrder sampleUser
              = (Resolved "/uploads/invoices/invoice-ORD-1-1700000000000.pdf",
                 snd (generateInvoicePDF sampleEnv sampleOrder sampleUser)))
    by (vm_compute; reflexivity).
  split; [rewrite H; reflexivity | ].
  destruct (artifact_reference _ _ _ _ _ H) as (Href & _).
  apply (append_inv_l "/uploads/invoices/"). symmetry. exact Href.
Defined.

(* ------------------------------------------------------------------ *)
(** ** Password reset tokens *)

Section ResetFacts.

Import Auth.
Variable env : Auth.Env.
Variable db : Db.

Lemma status_400 msg : status (reply 400 msg) <> 200%Z.
Proof. discriminate. Qed.

Lemma long_not_empty pw : (8 <= strlen pw)%nat -> isEmpty pw = false.
Proof. destruct pw; [unfold strlen; simpl; lia | reflexivity]. Qed.

Lemma not_empty token : token <> EmptyString -> isEmpty token = false.
Proof. destruct token; [congruence | reflexivity]. Qed.

(** The query of [reset-password], as a proposition. *)
Lemma live_query token u :
  sameToken (sha256 env token) (passwordResetToken u)
  && laterThan (now env) (passwordResetExpires u) = true
  <-> tokenLive env token u.
Proof.
  unfold tokenLive, sameToken, laterThan. split.
  - intros H. apply andb_true_iff in H. destruct H as [H1 H2].
    destruct (passwordResetToken u) as [h | ]; [ | discriminate ].
    apply String.eqb_eq in H1. subst h. split; [reflexivity | ].
    destruct (passwordResetExpires u) as [e | ]; [ | discriminate ].
    exists e. split; [reflexivity | ]. apply Z.ltb_lt. exact H2.
  - intros [H1 (e & H2 & H3)]. rewrite H1, H2, String.eqb_refl.
    apply Z.ltb_lt in H3. rewrite H3. reflexivity.
Qed.

(** What [reset-password] does, by cases. *)
Lemma resetPassword_cases token newPassword :
  token <> EmptyString ->
  (exists u,
     (8 <= strlen newPassword)%nat /\ In u db /\ tokenLive env token u
     /\ resetPassword env db (Some token) (Some newPassword)
        = (reply 200 "Password reset successful", save (afterReset u newPassword) db))
  \/ (exists msg,
        resetPassword env db (Some token) (Some newPassword) = (reply 400 msg, db)
        /\ ~ ((8 <= strlen newPassword)%nat /\ exists u, In u db /\ tokenLive env token u)).
Proof.
  intros Ht. unfold resetPassword. rewrite (not_empty _ Ht). cbn [orb].
  destruct (isEmpty newPassword) eqn:Hp.
  { right. eexists. split; [reflexivity | ].
    intros [Hl _]. rewrite (long_not_empty _ Hl) in Hp. discriminate. }
  destruct (strlen newPassword <? 8)%nat eqn:Hl.
  { right. eexists. split; [reflexivity | ].
    intros [Hl' _]. apply Nat.ltb_lt in Hl. lia. }
  apply Nat.ltb_ge in Hl.
  destruct (find _ db) as [u | ] eqn:Hf.
  - left. exists u. apply find_some in Hf. destruct Hf as [Hin Hq].
    apply live_query in Hq.
    split; [exact Hl | ]. split; [exact Hin | ]. split; [exact Hq | reflexivity].
  - right. eexists. split; [reflexivity | ].
    intros [_ (u & Hin & Hlive)].
    pose proof (find_none _ _ Hf u Hin) as Hn. cbv beta in Hn.
    apply live_query in Hlive. rewrite Hlive in Hn. discriminate.
Qed.

Lemma saved_rows (u' : User) w :
  In w (save u' db) -> w = u' \/ (In w db /\ id w <> id u').
Proof.
  unfold save. intros H. apply in_map_iff in H. destruct H as (v & Hv & Hin).
  destruct (id v =? id u')%Z eqn:E.
  - left. auto.
  - right. subst w. split; [assumption | ]. apply Z.eqb_neq. exact E.
Qed.

Lemma saved_row_present (u u' : User) :
  In u db -> id u' = id u -> In u' (save u' db).
Proof.
  intros Hin Hid. unfold save. apply in_map_iff. exists u. split; [ | assumption ].
  rewrite Hid, Z.eqb_refl. reflexivity.
Qed.

End ResetFacts.

(** C10.  For a presented (non-empty) token: [reset-password] succeeds
    exactly when the new password has at least 8 characters and some user
    stores the SHA-256 of the token together with an expiry strictly later
    than now; on success that user's row gets the new password and both
    reset columns are cleared, every other row is kept, and - no other
    user storing the same hash - presenting the token again is refused and
    changes nothing; a refused request changes nothing.  [forgot-password]
    stores for the user found the SHA-256 of the token it issues, not the
    token, with an expiry one hour ahead, and until then that token
    resets the password. *)
Theorem reset_token_single_use env db token newPassword :
  token <> EmptyString ->
  (Auth.status (fst (Auth.resetPassword env db (Some token) (Some newPassword))) = 200%Z
   <-> (8 <= strlen newPassword)%nat /\ exists u, In u db /\ tokenLive env token u)
  /\ (Auth.status (fst (Auth.resetPassword env db (Some token) (Some newPassword))) = 200%Z ->
      exists u,
        In u db /\ tokenLive env token u
        /\ snd (Auth.resetPassword env db (Some token) (Some newPassword))
           = Auth.save (afterReset u newPassword) db
        /\ In (afterReset u newPassword)
              (snd (Auth.resetPassword env db (Some token) (Some newPassword)))
        /\ (forall w,
              In w (snd (Auth.resetPassword env db (Some token) (Some newPassword))) ->
              w = afterReset u newPassword \/ (In w db /\ Auth.id w <> Auth.id u))
        /\ ((forall v, In v db ->
               Auth.passwordResetToken v = Some (Auth.sha256 env token) ->
               Auth.id v = Auth.id u) ->
            forall env' again,
              Auth.sha256 env' = Auth.sha256 env ->
              Auth.resetPassword env'
                (snd (Auth.resetPassword env db (Some token) (Some newPassword)))
                (Some token) (Some again)
              = (fst (Auth.resetPassword env'
                        (snd (Auth.resetPassword env db (Some token) (Some newPassword)))
                        (Some token) (Some again)),
                 snd (Auth.resetPassword env db (Some token) (Some newPassword)))
              /\ Auth.status
                   (fst (Auth.resetPassword env'
                           (snd (Auth.resetPassword env db (Some token) (Some newPassword)))
                           (Some token) (Some again))) = 400%Z))
  /\ (Auth.status (fst (Auth.resetPassword env db (Some token) (Some newPassword))) <> 200%Z ->
      snd (Auth.resetPassword env db (Some token) (Some newPassword)) = db)
  /\ (forall bodyEmail u,
        Auth.trim bodyEmail <> EmptyString ->
        Auth.validEmail (Auth.trim bodyEmail) = true ->
        find (fun v => String.eqb (Auth.email v) (Auth.trim bodyEmail)) db = Some u ->
        snd (fst (Auth.forgotPassword env db (Some bodyEmail)))
        = Auth.save (afterForgot env u) db
        /\ Auth.passwordResetToken (afterForgot env u)
           = Some (Auth.sha256 env (Auth.randomHex env))
        /\ Auth.passwordResetExpires (afterForgot env u)
           = Some (Auth.now env + 3600000)%Z
        /\ forall env' chosen,
             Auth.sha256 env' = Auth.sha256 env ->
             Auth.randomHex env <> EmptyString ->
             (Auth.now env' < Auth.now env + 3600000)%Z ->
             (8 <= strlen chosen)%nat ->
             Auth.status
               (fst (Auth.resetPassword env' (Auth.save (afterForgot env u) db)
                       (Some (Auth.randomHex env)) (Some chosen))) = 200%Z).
Proof.
  intros Ht. split; [ | split; [ | split ] ].
  - destruct (resetPassword_cases env db token newPassword Ht)
      as [(u & Hl & Hin & Hlive & Hrun) | (msg & Hrun & Hno)]; rewrite Hrun.
    + split; [ intros _; split; [assumption | exists u; auto] | intros _; reflexivity ].
    + split; [ intros H; discriminate H | intros H; destruct (Hno H) ].
  - destruct (resetPassword_cases env db token newPassword Ht)
      as [(u & Hl & Hin & Hlive & Hrun) | (msg & Hrun & Hno)]; rewrite Hrun;
      [ | intros H; discriminate H ].
    intros _. exists u. cbn [snd].
    split; [assumption | ]. split; [assumption | ]. split; [reflexivity | ].
    split; [apply (saved_row_present db u); [assumption | reflexivity] | ].
    split; [intros w Hw; apply (saved_rows db _ w Hw) | ].
    intros Hunique env' again Hsha.
    destruct (resetPassword_cases env' (Auth.save (afterReset u newPassword) db)
                token again Ht)
      as [(w & _ & Hw & [Htok _] & _) | (msg & Hrun' & _)].
    + exfalso. rewrite Hsha in Htok.
      destruct (saved_rows db _ w Hw) as [-> | [Hwdb Hid]].
      * discriminate Htok.
      * exact (Hid (Hunique w Hwdb Htok)).
    + rewrite Hrun'. split; reflexivity.
  - destruct (resetPassword_cases env db token newPassword Ht)
      as [(u & Hl & Hin & Hlive & Hrun) | (msg & Hrun & Hno)]; rewrite Hrun.
    + intros H. exfalso. apply H. reflexivity.
    + intros _. reflexivity.
  - intros bodyEmail u Hne Hvalid Hfind.
    assert (Hrun : snd (fst (Auth.forgotPassword env db (Some bodyEmail)))
                   = Auth.save (afterForgot env u) db).
    { unfold Auth.forgotPassword. rewrite (not_empty _ Hne), Hvalid, Hfind. cbn [negb].
      destruct (Auth.mailError env); [reflexivity | ].
      destruct (match Auth.nodeEnv env with
                | Some e => String.eqb e "development"
                | None => false
                end); reflexivity. }
    split; [exact Hrun | ]. split; [reflexivity | ]. split; [reflexivity | ].
    intros env' chosen Hsha Hhex Hnow Hlen.
    apply find_some in Hfind. destruct Hfind as [Hin _].
    destruct (resetPassword_cases env' (Auth.save (afterForgot env u) db)
                (Auth.randomHex env) chosen Hhex)
      as [(w & _ & _ & _ & Hrun') | (msg & _ & Hno)].
    + rewrite Hrun'. reflexivity.
    + exfalso. apply Hno. split; [assumption | ].
      exists (afterForgot env u). split.
      * apply (saved_row_present db u); [assumption | reflexivity].
      * unfold tokenLive. cbn [Auth.passwordResetToken Auth.passwordResetExpires afterForgot].
        rewrite Hsha. split; [reflexivity | ].
        eexists. split; [reflexivity | ]. exact Hnow.
Qed.

Lemma reset_token_single_use_witness :
  "5f2b9c" <> EmptyString
  /\ Auth.resetPassword sampleAuthEnv [sampleAccount] (Some "5f2b9c") (Some "new-password")
     = (Auth.reply 200 "Password reset successful",
        [afterReset sampleAccount "new-password"])
  /\ Auth.status
       (fst (Auth.resetPassword sampleAuthEnv [afterReset sampleAccount "new-password"]
               (Some "5f2b9c") (Some "another-one"))) = 400%Z.
Proof.
  assert (Ht : "5f2b9c" <> EmptyString) by discriminate.
  split; [exact Ht | ]. split; [reflexivity | ].
  destruct (reset_token_single_use sampleAuthEnv [sampleAccount] "5f2b9c" "new-password" Ht)
    as (_ & Hok & _).
  destruct (Hok eq_refl) as (u & Hin & _ & _ & _ & _ & Honce).
  destruct Hin as [<- | []].
  refine (proj2 (Honce _ sampleAuthEnv "another-one" eq_refl)).
  intros v [<- | []] _. reflexivity.
Defined.

(* ------------------------------------------------------------------ *)
(** ** The sample order of forty items *)

(** With rows of the least height the first page holds ten rows and a
    continuation page twenty-one: for forty items the code starts three
    pages. *)
Example forty_items_three_pages :
  pagesStarted (snd (generateInvoicePDF sampleEnv sampleOrder40 sampleUser)) = 3%nat.
Proof. vm_compute. reflexivity. Qed.

(** The loop completes on the sample items from the first row position. *)
Example sample_rows_complete :
  exists y events s,
    forEachItem sampleEnv (repeat sampleItem 40) 0 firstRowY initial = (Ok y, events, s).
Proof.
  apply forEachItem_total; [exact initial_clean | ].
  apply Forall_forall. intros v Hv. apply repeat_spec in Hv. subst v. reflexivity.
Qed.

(* ================================================================== *)
(** * Further properties of the code *)
(* ================================================================== *)

(* ------------------------------------------------------------------ *)
(** ** The server: allowed origins and preflight requests *)

Lemma substring_split s : forall n,
  (n <= String.length s)%nat ->
  substring 0 n s ++ substring n (String.length s - n) s = s.
Proof.
  induction s as [| c s IH]; intros [| n] Hn; simpl in *; try reflexivity; try lia.
  - rewrite substring_all. reflexivity.
  - rewrite IH by lia. reflexivity.
Qed.

(** [endsWith] holds exactly of the strings that are something followed by
    the suffix. *)
Lemma endsWith_iff s suffix :
  Server.endsWith s suffix = true <-> exists p, s = p ++ suffix.
Proof.
  unfold Server.endsWith. split.
  - intros H. apply andb_true_iff in H. destruct H as [Hl He].
    apply Nat.leb_le in Hl. apply String.eqb_eq in He.
    exists (substring 0 (strlen s - strlen suffix) s).
    pose proof (substring_split s (strlen s - strlen suffix)) as Hs.
    unfold strlen in *.
    replace (String.length s - (String.length s - String.length suffix))%nat
      with (String.length suffix) in Hs by lia.
    rewrite He in Hs. symmetry. apply Hs. lia.
  - intros [p ->]. apply andb_true_iff. split.
    + apply Nat.leb_le. rewrite length_app. lia.
    + apply String.eqb_eq.
      pose proof (drop_app p suffix) as H. unfold dropStr in H.
      rewrite length_app in *.
      replace (strlen p + strlen suffix - strlen suffix)%nat with (strlen p) by lia.
      replace (strlen p + strlen suffix - strlen p)%nat with (strlen suffix) in H by lia.
      exact H.
Qed.

Lemma includes_iff l s : Server.includes l s = true <-> In s l.
Proof.
  unfold Server.includes. rewrite existsb_exists. split.
  - intros (x & Hin & He). apply String.eqb_eq in He. subst. assumption.
  - intros H. exists s. split; [assumption | apply String.eqb_refl].
Qed.

(** X1.  An origin is allowed exactly when it is one of the three listed
    origins or ends in [.arudhrafashions.com], whatever comes before that
    suffix (any scheme, any host prefix).  The development origin
    [http://localhost:5173] is allowed under every configuration; the
    production origin [https://arudhrafashions.com] is listed when neither
    FRONTEND_URL nor ADMIN_URL is set. *)
Theorem allowed_origins cfg :
  (forall o, Server.isAllowed cfg o = true
             <-> In o (Server.allowedOrigins cfg)
                 \/ exists p, o = p ++ ".arudhrafashions.com")
  /\ Server.isAllowed cfg "http://localhost:5173" = true
  /\ (forall p, Server.isAllowed cfg (p ++ ".arudhrafashions.com") = true)
  /\ (Server.FRONTEND_URL cfg = None -> Server.ADMIN_URL cfg = None ->
      Server.isAllowed cfg "https://arudhrafashions.com" = true).
Proof.
  assert (Hiff : forall o, Server.isAllowed cfg o = true
                           <-> In o (Server.allowedOrigins cfg)
                               \/ exists p, o = p ++ ".arudhrafashions.com").
  { intros o. unfold Server.isAllowed.
    rewrite orb_true_iff, includes_iff, endsWith_iff. reflexivity. }
  split; [exact Hiff | ]. split; [ | split ].
  - apply Hiff. left. simpl. tauto.
  - intros p. apply Hiff. right. exists p. reflexivity.
  - intros Hf Ha. apply Hiff. left. unfold Server.allowedOrigins.
    rewrite Hf, Ha. simpl. tauto.
Qed.

Lemma header_set_same k v hs : Server.header (Server.setHeader k v hs) k = Some v.
Proof.
  induction hs as [| [k' v'] r IH]; simpl.
  - rewrite String.eqb_refl. reflexivity.
  - destruct (String.eqb k' k) eqn:E; simpl.
    + rewrite String.eqb_refl. reflexivity.
    + rewrite E. exact IH.
Qed.

Lemma header_set_other k k' v hs :
  k <> k' -> Server.header (Server.setHeader k v hs) k' = Server.header hs k'.
Proof.
  intros Hne. apply String.eqb_neq in Hne.
  induction hs as [| [k0 v0] r IH]; simpl.
  - rewrite Hne. reflexivity.
  - destruct (String.eqb k0 k) eqn:E; simpl.
    + apply String.eqb_eq in E. subst k0. rewrite Hne. reflexivity.
    + rewrite IH. reflexivity.
Qed.

Ltac headers :=
  repeat first
    [ rewrite header_set_same
    | rewrite header_set_other by discriminate ].


Lemma corsMiddleware_allowed cfg req hs o :
  Server.origin req = Some o -> o <> "" -> Server.isAllowed cfg o = true ->
  Server.header (corsHeaders (Server.corsMiddleware cfg req hs))
    "Access-Control-Allow-Origin" = Some o
  /\ Server.header (corsHeaders (Server.corsMiddleware cfg req hs))
       "Access-Control-Allow-Credentials" = Some "true".
Proof.
  intros Ho Hne Ha. unfold Server.corsMiddleware. rewrite Ho, (not_empty _ Hne), Ha.
  destruct (String.eqb (Server.method req) "OPTIONS"); cbn [corsHeaders Server.headers];
    headers; split; reflexivity.
Qed.

(** X2.  The CORS middleware never refuses a request.  It answers itself
    only the preflight ([OPTIONS]) of an allowed origin, with status 200;
    a request without an [Origin] header, or from an origin that is not
    allowed, is handed on with the response headers untouched.  Starting
    from no headers, [Access-Control-Allow-Origin] is set exactly when the
    request names an allowed origin, and then it is that very origin, never
    a wildcard. *)
Theorem cors_middleware cfg req :
  (forall hs r,
     Server.corsMiddleware cfg req hs = Server.Sent r ->
     Server.method req = "OPTIONS" /\ Server.status r = 200%Z
     /\ exists o, Server.origin req = Some o /\ Server.isAllowed cfg o = true)
  /\ (forall hs, Server.origin req = None ->
        Server.corsMiddleware cfg req hs = Server.Next hs)
  /\ (forall hs o, Server.origin req = Some o -> Server.isAllowed cfg o = false ->
        Server.corsMiddleware cfg req hs = Server.Next hs)
  /\ (forall v,
        Server.header (corsHeaders (Server.corsMiddleware cfg req []))
          "Access-Control-Allow-Origin" = Some v
        <-> Server.origin req = Some v /\ v <> "" /\ Server.isAllowed cfg v = true).
Proof.
  split; [ | split; [ | split ] ].
  - intros hs r. unfold Server.corsMiddleware.
    destruct (Server.origin req) as [o | ]; [ | discriminate ].
    destruct (isEmpty o); [discriminate | ].
    destruct (Server.isAllowed cfg o) eqn:Ha; [ | discriminate ].
    destruct (String.eqb (Server.method req) "OPTIONS") eqn:Hm; [ | discriminate ].
    intros H. injection H as <-. apply String.eqb_eq in Hm.
    split; [assumption | ]. split; [reflexivity | ]. exists o. auto.
  - intros hs Ho. unfold Server.corsMiddleware. rewrite Ho. reflexivity.
  - intros hs o Ho Ha. unfold Server.corsMiddleware. rewrite Ho, Ha.
    destruct (isEmpty o); reflexivity.
  - intros v. split.
    + unfold Server.corsMiddleware.
      destruct (Server.origin req) as [o | ]; [ | discriminate ].
      destruct (isEmpty o) eqn:He; [discriminate | ].
      destruct (Server.isAllowed cfg o) eqn:Ha; [ | discriminate ].
      destruct (String.eqb (Server.method req) "OPTIONS");
        cbn [corsHeaders Server.headers]; headers; intros H; injection H as <-;
        (split; [reflexivity | split; [ | assumption ] ]);
        intros ->; discriminate He.
    + intros (Ho & Hne & Ha).
      exact (proj1 (corsMiddleware_allowed cfg req [] v Ho Hne Ha)).
Qed.

(** X3.  A preflight request for [/api/diagnostic] is answered with status
    200 for every origin, allowed or not: the answer reflects the origin of
    the request in [Access-Control-Allow-Origin] and allows credentials.
    Without an [Origin] header the answer carries the wildcard, still with
    credentials allowed.  The answer carries the [X-Served-By] mark unless
    the CORS middleware gave it, which it does for the allowed origins. *)
Theorem diagnostic_preflight cfg req :
  Server.method req = "OPTIONS" ->
  exists r,
    Server.diagnostic cfg req = Some r
    /\ Server.status r = 200%Z
    /\ Server.payload r = Server.StatusText "OK"
    /\ Server.header (Server.headers r) "Access-Control-Allow-Origin"
       = Some (Server.originOr req "*")
    /\ Server.header (Server.headers r) "Access-Control-Allow-Credentials" = Some "true"
    /\ (Server.header (Server.headers r) "X-Served-By" = Some "arudhra-backend"
        <-> forall o, Server.origin req = Some o -> o <> "" ->
                      Server.isAllowed cfg o = false).
Proof.
  intros Hm. unfold Server.diagnostic, Server.corsMiddleware, Server.originOr.
  rewrite Hm. cbn [String.eqb Ascii.eqb Bool.eqb].
  destruct (Server.origin req) as [o | ] eqn:Ho.
  - destruct (isEmpty o) eqn:He.
    + eexists. split; [reflexivity | ].
      cbn [Server.diagnosticOptions Server.status Server.payload Server.headers].
      unfold Server.originOr, Server.servedBy. rewrite Ho, He. headers.
      repeat (split; [reflexivity | ]).
      split; [ | reflexivity ].
      intros _ o' Ho' Hne. injection Ho' as <-. destruct o; [congruence | discriminate].
    + destruct (Server.isAllowed cfg o) eqn:Ha.
      * eexists. split; [reflexivity | ].
        cbn [Server.status Server.payload Server.headers]. headers.
        repeat (split; [reflexivity | ]).
        split.
        -- cbn. discriminate.
        -- intros H. specialize (H o eq_refl).
           rewrite Ha in H. exfalso.
           assert (o <> "") by (intros ->; discriminate He). specialize (H H0). discriminate.
      * eexists. split; [reflexivity | ].
        cbn [Server.diagnosticOptions Server.status Server.payload Server.headers].
        unfold Server.originOr, Server.servedBy. rewrite Ho, He. headers.
        repeat (split; [reflexivity | ]).
        split; [ | reflexivity ].
        intros _ o' Ho' _. injection Ho' as <-. exact Ha.
  - eexists. split; [reflexivity | ].
    cbn [Server.diagnosticOptions Server.status Server.payload Server.headers].
    unfold Server.originOr, Server.servedBy. rewrite Ho. headers.
    repeat (split; [reflexivity | ]).
    split; [ | reflexivity ]. intros _ o' Ho'. discriminate.
Qed.

Lemma diagnostic_preflight_witness :
  Server.method samplePreflight = "OPTIONS"
  /\ Server.isAllowed sampleConfig "https://example.org" = false
  /\ exists r,
       Server.diagnostic sampleConfig samplePreflight = Some r
       /\ Server.header (Server.headers r) "Access-Control-Allow-Origin"
          = Some "https://example.org"
       /\ Server.header (Server.headers r) "Access-Control-Allow-Credentials" = Some "true".
Proof.
  split; [reflexivity | ]. split; [reflexivity | ].
  destruct (diagnostic_preflight sampleConfig samplePreflight eq_refl)
    as (r & Hr & _ & _ & Ho & Hc & _).
  exists r. split; [exact Hr | ]. split; [exact Ho | exact Hc].
Defined.

(* ------------------------------------------------------------------ *)
(** ** Session tokens *)

Lemma isEmpty_false s : isEmpty s = false <-> s <> ""%string.
Proof. destruct s; simpl; split; congruence. Qed.

Lemma isEmpty_true s : isEmpty s = true <-> s = ""%string.
Proof. destruct s; simpl; split; congruence. Qed.

(** X4.  [generateToken] returns the signature of the key under the secret
    exactly when [JWT_SECRET] is set and is more than white space;
    otherwise - unset, empty or blank - it throws the
    [ConfigurationError], and nothing else. *)
Theorem generateToken_configured env id :
  (forall t, Token.generateToken env id = inr t
             <-> exists s, Token.JWT_SECRET env = Some s /\ Auth.trim s <> ""%string
                           /\ t = Token.sign env id s)
  /\ (forall e, Token.generateToken env id = inl e
                <-> e = Token.configurationError
                    /\ forall s, Token.JWT_SECRET env = Some s -> Auth.trim s = ""%string).
Proof.
  unfold Token.generateToken. split.
  - intros t. destruct (Token.JWT_SECRET env) as [s | ].
    + destruct (isEmpty s) eqn:E1; cbn [orb].
      * apply isEmpty_true in E1. subst s. split; [discriminate | ].
        intros (s & Hs & Hne & _). injection Hs as <-. exfalso. apply Hne. reflexivity.
      * destruct (isEmpty (Auth.trim s)) eqn:E2.
        -- split; [discriminate | ].
           intros (s' & Hs & Hne & _). injection Hs as <-.
           apply isEmpty_true in E2. congruence.
        -- split.
           ++ intros H. injection H as <-. exists s.
              split; [reflexivity | ]. split; [ | reflexivity ].
              apply isEmpty_false. exact E2.
           ++ intros (s' & Hs & _ & ->). injection Hs as <-. reflexivity.
    + split; [discriminate | ]. intros (s & Hs & _). discriminate.
  - intros e. destruct (Token.JWT_SECRET env) as [s | ].
    + destruct (isEmpty s) eqn:E1; cbn [orb].
      * apply isEmpty_true in E1. subst s. split.
        -- intros H. injection H as <-. split; [reflexivity | ].
           intros s Hs. injection Hs as <-. reflexivity.
        -- intros [-> _]. reflexivity.
      * destruct (isEmpty (Auth.trim s)) eqn:E2.
        -- split.
           ++ intros H. injection H as <-. split; [reflexivity | ].
              intros s' Hs. injection Hs as <-. apply isEmpty_true. exact E2.
           ++ intros [-> _]. reflexivity.
        -- split; [discriminate | ].
           intros [_ H]. specialize (H s eq_refl).
           apply isEmpty_false in E2. congruence.
    + split.
      * intros H. injection H as <-. split; [reflexivity | ]. intros s Hs. discriminate.
      * intros [-> _]. reflexivity.
Qed.

Lemma generateToken_error env id e :
  Token.generateToken env id = inl e -> e = Token.configurationError.
Proof.
  unfold Token.generateToken. destruct (Token.JWT_SECRET env) as [s | ].
  - destruct (isEmpty s || isEmpty (Auth.trim s)); congruence.
  - congruence.
Qed.

(* ------------------------------------------------------------------ *)
(** ** Registration *)

Lemma find_none_iff {A} (f : A -> bool) l :
  find f l = None <-> forall x, In x l -> f x = false.
Proof.
  split; [apply find_none | ].
  intros H. destruct (find f l) as [x | ] eqn:E; [ | reflexivity ].
  apply find_some in E. destruct E as [Hin Hf]. rewrite (H x Hin) in Hf. discriminate.
Qed.

Lemma no_row_with {A} (key : A -> string) (k : string) (l : list A) :
  find (fun u => String.eqb (key u) k) l = None <-> forall u, In u l -> key u <> k.
Proof.
  rewrite find_none_iff. split; intros H u Hin.
  - apply String.eqb_neq. exact (H u Hin).
  - apply String.eqb_neq. exact (H u Hin).
Qed.

(** What [register] does, by cases: a request that passes the checks is
    stored unless [User.create] fails, and answered by what creating the
    token gives; any other request is refused with status 400 and changes
    nothing. *)
Lemma register_cases env table mobile password name email :
  (exists p n,
     Registrable table mobile password name email p n
     /\ Accounts.register env table mobile password name email
        = match Accounts.createError env with
          | Some error => Accounts.registerFailed error table
          | None =>
              let user := Accounts.created env (Accounts.trimmed mobile) p n
                            (Accounts.trimmed email) in
              match Token.generateToken (Accounts.tokens env) (Accounts.id user) with
              | inr token => (Accounts.session 201 user token, (table ++ [user])%list, [])
              | inl error => Accounts.registerFailed error (table ++ [user])%list
              end
          end)
  \/ (exists msg,
        Accounts.register env table mobile password name email
        = (Accounts.reply 400 msg, table, [])
        /\ forall p n, ~ Registrable table mobile password name email p n).
Proof.
  unfold Accounts.register.
  destruct (isEmpty (Accounts.trimmed mobile)) eqn:Hm; cbn [orb].
  { right. eexists. split; [reflexivity | ].
    intros p n (_ & _ & _ & _ & Hl & _). apply isEmpty_true in Hm. rewrite Hm in Hl.
    discriminate Hl. }
  destruct (isEmpty (Accounts.trimmed email)) eqn:He.
  { right. eexists. split; [reflexivity | ].
    intros p n (_ & _ & _ & _ & _ & _ & Hv & _). apply isEmpty_true in He.
    rewrite He in Hv. discriminate Hv. }
  destruct password as [p | ];
    [ | right; eexists; split; [reflexivity | intros p n (H & _); discriminate H] ].
  destruct name as [n | ];
    [ | right; eexists; split; [reflexivity | intros p' n (_ & H & _); discriminate H] ].
  destruct (isEmpty p) eqn:Hp; cbn [orb].
  { right. eexists. split; [reflexivity | ].
    intros p' n' (H & _ & _ & Hl & _). injection H as <-.
    apply isEmpty_true in Hp. subst p. unfold strlen in Hl. simpl in Hl. lia. }
  destruct (isEmpty n) eqn:Hn.
  { right. eexists. split; [reflexivity | ].
    intros p' n' (_ & H & Hne & _). injection H as <-.
    apply isEmpty_true in Hn. congruence. }
  destruct (Nat.eqb (strlen (Accounts.trimmed mobile)) 10) eqn:Hl; cbn [negb orb].
  2:{ right. eexists. split; [reflexivity | ].
      intros p' n' (_ & _ & _ & _ & Hl' & _). apply Nat.eqb_neq in Hl. congruence. }
  unfold Accounts.digitsOnly. rewrite Hm. cbn [negb andb].
  destruct (allDigits (Accounts.trimmed mobile)) eqn:Hd; cbn [negb].
  2:{ right. eexists. split; [reflexivity | ].
      intros p' n' (_ & _ & _ & _ & _ & Hd' & _). congruence. }
  destruct (Auth.validEmail (Accounts.trimmed email)) eqn:Hv; cbn [negb].
  2:{ right. eexists. split; [reflexivity | ].
      intros p' n' (_ & _ & _ & _ & _ & _ & Hv' & _). congruence. }
  destruct (strlen p <? 8)%nat eqn:Hlen.
  { right. eexists. split; [reflexivity | ].
    intros p' n' (H & _ & _ & Hl' & _). injection H as <-.
    apply Nat.ltb_lt in Hlen. lia. }
  destruct (find (fun u => String.eqb (Accounts.mobile u) (Accounts.trimmed mobile)) table)
    eqn:Hfm.
  { right. eexists. split; [reflexivity | ].
    intros p' n' (_ & _ & _ & _ & _ & _ & _ & Hno & _).
    apply no_row_with in Hno. congruence. }
  destruct (find (fun u => String.eqb (Accounts.email u) (Accounts.trimmed email)) table)
    eqn:Hfe.
  { right. eexists. split; [reflexivity | ].
    intros p' n' (_ & _ & _ & _ & _ & _ & _ & _ & Hno).
    apply no_row_with in Hno. congruence. }
  left. exists p, n. split; [ | reflexivity ].
  apply Nat.eqb_eq in Hl. apply Nat.ltb_ge in Hlen. apply isEmpty_false in Hn.
  pose proof (proj1 (no_row_with Accounts.mobile _ _) Hfm) as Hnm.
  pose proof (proj1 (no_row_with Accounts.email _ _) Hfe) as Hne.
  unfold Registrable. auto 10.
Qed.

Lemma registerFailed_status error table :
  Accounts.status (fst (fst (Accounts.registerFailed error table))) <> 201%Z.
Proof.
  unfold Accounts.registerFailed.
  destruct (String.eqb (Token.errorName error) "SequelizeUniqueConstraintError");
    discriminate.
Qed.

Lemma created_columns env m p n e :
  Accounts.id (Accounts.created env m p n e) = Accounts.id (Accounts.fresh env)
  /\ Accounts.mobile (Accounts.created env m p n e) = m
  /\ Accounts.email (Accounts.created env m p n e) = e
  /\ Accounts.name (Accounts.created env m p n e) = n
  /\ Accounts.password (Accounts.created env m p n e) = p
  /\ Accounts.preferences (Accounts.created env m p n e)
     = Accounts.preferences (Accounts.fresh env)
  /\ Auth.passwordResetToken (Accounts.base (Accounts.created env m p n e))
     = Auth.passwordResetToken (Accounts.base (Accounts.fresh env)).
Proof. repeat split. Qed.

(** X5.  [register] answers 201 exactly when the request passes every
    check (password and name present, password of 8 characters or more,
    trimmed mobile of 10 digits, trimmed email of the accepted shape,
    neither taken by a row), [User.create] does not fail and the token can
    be made.  Then exactly one row is appended, holding the trimmed mobile
    and email and the name and password as sent, and the reply carries
    that row's key, mobile, name and email with the token.  A request
    answered with 400 leaves the table as it was. *)
Theorem register_created env table mobile password name email :
  (Accounts.status (fst (fst (Accounts.register env table mobile password name email)))
   = 201%Z
   <-> exists p n token,
         Registrable table mobile password name email p n
         /\ Accounts.createError env = None
         /\ Token.generateToken (Accounts.tokens env) (Accounts.id (Accounts.fresh env))
            = inr token)
  /\ (Accounts.status (fst (fst (Accounts.register env table mobile password name email)))
      = 201%Z ->
      exists p n token,
        Registrable table mobile password name email p n
        /\ Accounts.register env table mobile password name email
           = (Accounts.session 201
                (Accounts.created env (Accounts.trimmed mobile) p n (Accounts.trimmed email))
                token,
              (table ++ [Accounts.created env (Accounts.trimmed mobile) p n
                           (Accounts.trimmed email)])%list,
              [])
        /\ Token.generateToken (Accounts.tokens env) (Accounts.id (Accounts.fresh env))
           = inr token)
  /\ (Accounts.status (fst (fst (Accounts.register env table mobile password name email)))
      = 400%Z ->
      snd (fst (Accounts.register env table mobile password name email)) = table).
Proof.
  destruct (register_cases env table mobile password name email)
    as [(p & n & Hreg & Hrun) | (msg & Hrun & Hno)]; rewrite Hrun; clear Hrun.
  - destruct (Accounts.createError env) as [error | ] eqn:Hc.
    + split; [ | split ].
      * split.
        -- intros H. exfalso. exact (registerFailed_status _ _ H).
        -- intros (p' & n' & t' & _ & H & _). discriminate H.
      * intros H. exfalso. exact (registerFailed_status _ _ H).
      * intros _. unfold Accounts.registerFailed. reflexivity.
    + cbv zeta.
      change (Accounts.id (Accounts.created env (Accounts.trimmed mobile) p n
                             (Accounts.trimmed email)))
        with (Accounts.id (Accounts.fresh env)).
      destruct (Token.generateToken (Accounts.tokens env) (Accounts.id (Accounts.fresh env)))
        as [error | token] eqn:Ht.
      * split; [ | split ].
        -- split.
           ++ intros H. exfalso. exact (registerFailed_status _ _ H).
           ++ intros (p' & n' & t' & _ & _ & H). discriminate H.
        -- intros H. exfalso. exact (registerFailed_status _ _ H).
        -- rewrite (generateToken_error _ _ _ Ht). intros H. discriminate H.
      * split; [ | split ].
        -- split; [ | reflexivity ]. intros _. exists p, n, token. auto.
        -- intros _. exists p, n, token. auto.
        -- intros H. discriminate H.
  - split; [ | split ].
    + split; [intros H; discriminate H | ].
      intros (p & n & _ & Hreg & _). destruct (Hno p n Hreg).
    + intros H. discriminate H.
    + intros _. reflexivity.
Qed.

Lemma NoDup_snoc {A} (l : list A) x : NoDup l -> ~ In x l -> NoDup (l ++ [x]).
Proof.
  intros Hl Hx. apply NoDup_app; [assumption | repeat constructor; intros [] | ].
  intros a Ha [<- | []]. exact (Hx Ha).
Qed.

Lemma NoDup_map_inj {A B} (f : A -> B) (l : list A) x y :
  NoDup (map f l) -> In x l -> In y l -> f x = f y -> x = y.
Proof.
  induction l as [| a l IH]; simpl; intros Hnd Hx Hy Hf; [destruct Hx | ].
  inversion Hnd as [| ? ? Hnot Hrest]; subst.
  destruct Hx as [-> | Hx], Hy as [-> | Hy].
  - reflexivity.
  - exfalso. apply Hnot. rewrite Hf. apply in_map. assumption.
  - exfalso. apply Hnot. rewrite <- Hf. apply in_map. assumption.
  - apply IH; assumption.
Qed.

Lemma findByPk_some k table u :
  Accounts.findByPk k table = Some u -> In u table /\ Accounts.id u = k.
Proof.
  unfold Accounts.findByPk. intros H. apply find_some in H.
  destruct H as [Hin Hk]. apply Z.eqb_eq in Hk. auto.
Qed.

(** Saving an instance leaves a column as it was when the instance agrees
    on it with the row it was read from. *)
Lemma save_map {B} (key : Accounts.Account -> B) a u table :
  NoDup (map Accounts.id table) -> In u table ->
  Accounts.id a = Accounts.id u -> key a = key u ->
  map key (Accounts.save a table) = map key table.
Proof.
  intros Hnd Hin Hid Hkey. unfold Accounts.save. rewrite map_map.
  apply map_ext_in. intros v Hv.
  destruct (Accounts.id v =? Accounts.id a)%Z eqn:E; [ | reflexivity ].
  apply Z.eqb_eq in E. rewrite Hkey. f_equal.
  apply (NoDup_map_inj Accounts.id table); congruence.
Qed.

Lemma save_Forall (P : Accounts.Account -> Prop) a table :
  P a -> Forall P table -> Forall P (Accounts.save a table).
Proof.
  intros Ha Ht. unfold Accounts.save. apply Forall_forall. intros v Hv.
  apply in_map_iff in Hv. destruct Hv as (w & <- & Hw).
  destruct (Accounts.id w =? Accounts.id a)%Z; [assumption | ].
  rewrite Forall_forall in Ht. exact (Ht w Hw).
Qed.

(** Saving an instance that agrees with its row on key, mobile and email. *)
Lemma save_wellFormed a u table :
  WellFormed table -> In u table ->
  Accounts.id a = Accounts.id u -> Accounts.mobile a = Accounts.mobile u ->
  Accounts.email a = Accounts.email u -> rowChecked a ->
  WellFormed (Accounts.save a table).
Proof.
  intros (Hid & Hm & He & Hrows) Hin Ha Hma Hea Hca. unfold WellFormed.
  rewrite (save_map Accounts.id a u table Hid Hin Ha Ha).
  rewrite (save_map Accounts.mobile a u table Hid Hin Ha Hma).
  rewrite (save_map Accounts.email a u table Hid Hin Ha Hea).
  repeat (split; [assumption | ]). apply save_Forall; assumption.
Qed.

Lemma registered_wellFormed env table mobile password name email p n :
  WellFormed table ->
  ~ In (Accounts.id (Accounts.fresh env)) (map Accounts.id table) ->
  Registrable table mobile password name email p n ->
  WellFormed (table ++ [Accounts.created env (Accounts.trimmed mobile) p n
                          (Accounts.trimmed email)])%list.
Proof.
  intros (Hid & Hm & He & Hrows) Hfresh (_ & _ & _ & Hlen & Hl & Hd & Hv & Hnm & Hne).
  unfold WellFormed. rewrite !map_app. cbn [map].
  split; [ | split; [ | split ] ].
  - apply NoDup_snoc; assumption.
  - apply NoDup_snoc; [assumption | ].
    intros Hin. apply in_map_iff in Hin. destruct Hin as (u & Hu & Hin).
    exact (Hnm u Hin Hu).
  - apply NoDup_snoc; [assumption | ].
    intros Hin. apply in_map_iff in Hin. destruct Hin as (u & Hu & Hin).
    exact (Hne u Hin Hu).
  - apply Forall_app. split; [assumption | ].
    constructor; [ | constructor ]. unfold rowChecked. auto.
Qed.

(** X6.  The routes keep the users table well formed - keys, mobiles and
    emails pairwise distinct, every mobile of 10 digits, every email of the
    accepted shape, every password of 8 characters or more: [register]
    whatever it answers (the database handing out a key not in use),
    [change-password], the preferences update, and a profile update that
    sends no email. *)
Theorem table_invariant table :
  WellFormed table ->
  (forall env mobile password name email,
     ~ In (Accounts.id (Accounts.fresh env)) (map Accounts.id table) ->
     WellFormed (snd (fst (Accounts.register env table mobile password name email))))
  /\ (forall env userId currentPassword newPassword,
        WellFormed (snd (Accounts.changePassword env table userId
                           currentPassword newPassword)))
  /\ (forall userId emailNotifications smsNotifications newsletter,
        WellFormed (snd (Accounts.updatePreferences table userId
                           emailNotifications smsNotifications newsletter)))
  /\ (forall userId name,
        WellFormed (snd (Accounts.updateProfile table userId name None))).
Proof.
  intros Hwf. split; [ | split; [ | split ] ].
  - intros env mobile password name email Hfresh.
    destruct (register_cases env table mobile password name email)
      as [(p & n & Hreg & Hrun) | (msg & Hrun & _)]; rewrite Hrun; clear Hrun;
      [ | assumption ].
    pose proof (registered_wellFormed env table _ _ _ _ p n Hwf Hfresh Hreg) as Hnew.
    destruct (Accounts.createError env); [assumption | ].
    cbv zeta.
    destruct (Token.generateToken _ _); assumption.
  - intros env userId currentPassword newPassword. unfold Accounts.changePassword.
    destruct currentPassword as [c | ]; [ | assumption ].
    destruct newPassword as [p | ]; [ | assumption ].
    destruct (isEmpty c || isEmpty p); [assumption | ].
    destruct (strlen p <? 8)%nat eqn:Hlen; [assumption | ].
    destruct (Accounts.findByPk userId table) as [u | ] eqn:Hf; [ | assumption ].
    destruct (Accounts.matchPassword env u c); cbn [negb]; [ | assumption ].
    apply findByPk_some in Hf. destruct Hf as [Hin _].
    apply (save_wellFormed _ u); try assumption; try reflexivity.
    destruct Hwf as (_ & _ & _ & Hrows). rewrite Forall_forall in Hrows.
    destruct (Hrows u Hin) as (H1 & H2 & H3 & _).
    apply Nat.ltb_ge in Hlen. unfold rowChecked. auto.
  - intros userId a b c. unfold Accounts.updatePreferences.
    destruct (Accounts.findByPk userId table) as [u | ] eqn:Hf; [ | assumption ].
    apply findByPk_some in Hf. destruct Hf as [Hin _].
    apply (save_wellFormed _ u); try assumption; try reflexivity.
    destruct Hwf as (_ & _ & _ & Hrows). rewrite Forall_forall in Hrows.
    exact (Hrows u Hin).
  - intros userId name. unfold Accounts.updateProfile.
    destruct (Accounts.findByPk userId table) as [u | ] eqn:Hf; [ | assumption ].
    apply findByPk_some in Hf. destruct Hf as [Hin _].
    destruct Hwf as (H0 & H1 & H2 & Hrows).
    assert (Hu : rowChecked u) by (rewrite Forall_forall in Hrows; exact (Hrows u Hin)).
    destruct name as [n | ]; [destruct (isEmpty n); cbn [negb] | ];
      (apply (save_wellFormed _ u); [repeat split; assumption | assumption | .. ]);
      try reflexivity; exact Hu.
Qed.

Lemma table_invariant_witness :
  WellFormed [sampleRow]
  /\ WellFormed
       (snd (fst (Accounts.register sampleAccounts [sampleRow]
                    (Some " 9123456780 ") (Some "longer-secret") (Some "Bala")
                    (Some "bala@example.com"))))
  /\ List.length
       (snd (fst (Accounts.register sampleAccounts [sampleRow]
                    (Some " 9123456780 ") (Some "longer-secret") (Some "Bala")
                    (Some "bala@example.com")))) = 2%nat.
Proof.
  assert (H : WellFormed [sampleRow]).
  { unfold WellFormed. simpl.
    repeat split; repeat constructor; simpl; try tauto; vm_compute; lia. }
  split; [exact H | ]. split; [ | reflexivity ].
  apply (proj1 (table_invariant [sampleRow] H)).
  simpl. intros [E | []]. discriminate E.
Defined.

(** A request that passed the checks is refused once a row holds its
    mobile, whoever asks and whatever the environment. *)
Lemma register_taken env table table' mobile password name email p n :
  Registrable table mobile password name email p n ->
  (exists u, In u table' /\ Accounts.mobile u = Accounts.trimmed mobile) ->
  Accounts.register env table' mobile password name email
  = (Accounts.reply 400 "Mobile number already registered", table', []).
Proof.
  intros (-> & -> & Hn & Hlen & Hl & Hd & Hv & _ & _) (u & Hin & Hu).
  unfold Accounts.register, Accounts.digitsOnly.
  assert (Hm : isEmpty (Accounts.trimmed mobile) = false).
  { destruct (Accounts.trimmed mobile); [discriminate Hl | reflexivity]. }
  assert (He : isEmpty (Accounts.trimmed email) = false).
  { destruct (Accounts.trimmed email); [discriminate Hv | reflexivity]. }
  rewrite Hm, He, Hl, Hd, Hv. cbn [orb negb andb Nat.eqb].
  rewrite (long_not_empty p Hlen), (proj2 (isEmpty_false n) Hn). cbn [orb].
  apply Nat.ltb_ge in Hlen. rewrite Hlen.
  destruct (find (fun v => String.eqb (Accounts.mobile v) (Accounts.trimmed mobile)) table')
    eqn:Hf; [reflexivity | ].
  exfalso. exact (proj1 (no_row_with Accounts.mobile _ _) Hf u Hin Hu).
Qed.

(** X7.  The row is stored before the token is made.  A request that
    [register] would answer with 201 is, on a server without a usable
    [JWT_SECRET], answered with 500 [Server error] - yet the row has been
    appended all the same, and the error logged; sending the request again
    is then refused with 400 [Mobile number already registered], with or
    without the secret. *)
Theorem register_without_secret env table mobile password name email :
  Accounts.status (fst (fst (Accounts.register env table mobile password name email)))
  = 201%Z ->
  exists user,
    snd (fst (Accounts.register env table mobile password name email))
    = (table ++ [user])%list
    /\ Accounts.register (withoutSecret env) table mobile password name email
       = (Accounts.reply 500 "Server error", (table ++ [user])%list,
          [Accounts.ConsoleError "Register error:" Token.configurationError])
    /\ forall env',
         Accounts.register env' (table ++ [user])%list mobile password name email
         = (Accounts.reply 400 "Mobile number already registered",
            (table ++ [user])%list, []).
Proof.
  intros H201.
  destruct (register_cases env table mobile password name email)
    as [(p & n & Hreg & Hrun) | (msg & Hrun & _)];
    [ | rewrite Hrun in H201; discriminate H201 ].
  rewrite Hrun in H201 |- *.
  destruct (Accounts.createError env) as [error | ] eqn:Hc;
    [exfalso; exact (registerFailed_status _ _ H201) | ].
  cbv zeta in H201 |- *.
  destruct (Token.generateToken (Accounts.tokens env) _) as [error | token];
    [exfalso; exact (registerFailed_status _ _ H201) | ].
  exists (Accounts.created env (Accounts.trimmed mobile) p n (Accounts.trimmed email)).
  split; [reflexivity | ]. split.
  - destruct (register_cases (withoutSecret env) table mobile password name email)
      as [(p' & n' & Hreg' & Hrun') | (msg & _ & Hno)]; [ | destruct (Hno p n Hreg) ].
    rewrite Hrun'. cbn [withoutSecret Accounts.createError]. rewrite Hc.
    destruct Hreg as (Hp & Hn & _), Hreg' as (Hp' & Hn' & _).
    assert (p' = p) by congruence. assert (n' = n) by congruence. subst p' n'.
    reflexivity.
  - intros env'. apply (register_taken env' table _ _ _ _ _ p n Hreg).
    eexists. split; [apply in_or_app; right; left; reflexivity | reflexivity].
Qed.

Lemma register_without_secret_witness :
  Accounts.status
    (fst (fst (Accounts.register sampleAccounts [sampleRow]
                 (Some " 9123456780 ") (Some "longer-secret") (Some "Bala")
                 (Some "bala@example.com")))) = 201%Z
  /\ Accounts.status
       (fst (fst (Accounts.register (withoutSecret sampleAccounts) [sampleRow]
                    (Some " 9123456780 ") (Some "longer-secret") (Some "Bala")
                    (Some "bala@example.com")))) = 500%Z
  /\ List.length
       (snd (fst (Accounts.register (withoutSecret sampleAccounts) [sampleRow]
                    (Some " 9123456780 ") (Some "longer-secret") (Some "Bala")
                    (Some "bala@example.com")))) = 2%nat.
Proof.
  assert (H : Accounts.status
                (fst (fst (Accounts.register sampleAccounts [sampleRow]
                             (Some " 9123456780 ") (Some "longer-secret") (Some "Bala")
                             (Some "bala@example.com")))) = 201%Z) by reflexivity.
  split; [exact H | ].
  destruct (register_without_secret sampleAccounts [sampleRow] _ _ _ _ H)
    as (user & _ & Hrun & _).
  rewrite Hrun. split; [reflexivity | ]. cbn [fst snd]. rewrite List.length_app. reflexivity.
Defined.

(* ------------------------------------------------------------------ *)
(** ** Login *)

Lemma digit_not_white c : isDigit c = true -> isWhite c = false.
Proof.
  destruct c as [[] [] [] [] [] [] [] []]; intros H; try discriminate H; reflexivity.
Qed.

(** A string of digits has nothing to trim. *)
Lemma trim_digits s : allDigits s = true -> Auth.trim s = s.
Proof.
  intros H. unfold Auth.trim.
  assert (Hs : skipWhite s = s).
  { destruct s as [| c r]; [reflexivity | ]. simpl in *.
    apply andb_true_iff in H. destruct H as [Hc _].
    rewrite (digit_not_white c Hc). reflexivity. }
  rewrite Hs. clear Hs. induction s as [| c r IH]; [reflexivity | ].
  simpl in H. apply andb_true_iff in H. destruct H as [Hc Hr].
  cbn [trimRight allWhite]. rewrite (digit_not_white c Hc). cbn [andb].
  rewrite (IH Hr). reflexivity.
Qed.

Lemma find_snoc {A} (f : A -> bool) l x :
  (forall u, In u l -> f u = false) -> f x = true -> find f (l ++ [x]) = Some x.
Proof.
  intros Hl Hx. induction l as [| a l IH]; simpl.
  - rewrite Hx. reflexivity.
  - rewrite (Hl a (or_introl eq_refl)). apply IH. intros u Hu. apply Hl. right. assumption.
Qed.

(** X8.  Registration and login compose.  After [register] answered 201,
    a login - served later, under an environment of its own, for
    [jwt.sign] stamps a token with the time of the call - with the trimmed
    mobile and the password, the model matching the password the row was
    created with, finds the row that was registered, whatever email is
    sent along.  With a secret configured it answers 200 with the same
    key, mobile, name and email as the registration did and a token signed
    for the same key at the time of the login, which need not be the token
    of the registration; without one it answers 500. *)
Theorem register_then_login env later table mobile password name email :
  Accounts.status (fst (fst (Accounts.register env table mobile password name email)))
  = 201%Z ->
  exists user p token,
    password = Some p
    /\ Accounts.password user = p
    /\ Accounts.mobile user = Accounts.trimmed mobile
    /\ Accounts.register env table mobile password name email
       = (Accounts.session 201 user token, (table ++ [user])%list, [])
    /\ Token.generateToken (Accounts.tokens env) (Accounts.id user) = inr token
    /\ (Accounts.matchPassword later user p = true ->
        forall anyEmail,
          Accounts.login later (table ++ [user])%list
            (Some (Accounts.trimmed mobile)) anyEmail password
          = match Token.generateToken (Accounts.tokens later) (Accounts.id user) with
            | inr token' => (Accounts.session 200 user token', [])
            | inl error =>
                (Accounts.reply 500 "Server error",
                 [Accounts.ConsoleError "Login error:" error])
            end).
Proof.
  intros H201.
  destruct (register_cases env table mobile password name email)
    as [(p & n & Hreg & Hrun) | (msg & Hrun & _)];
    [ | rewrite Hrun in H201; discriminate H201 ].
  rewrite Hrun in H201 |- *.
  destruct (Accounts.createError env) as [error | ] eqn:Hc;
    [exfalso; exact (registerFailed_status _ _ H201) | ].
  cbv zeta in H201 |- *.
  destruct (Token.generateToken (Accounts.tokens env) _) as [error | token] eqn:Ht;
    [exfalso; exact (registerFailed_status _ _ H201) | ].
  exists (Accounts.created env (Accounts.trimmed mobile) p n (Accounts.trimmed email)),
    p, token.
  destruct Hreg as (-> & _ & _ & Hlen & Hl & Hd & _ & Hnm & _).
  split; [reflexivity | ]. split; [reflexivity | ]. split; [reflexivity | ].
  split; [reflexivity | ]. split; [exact Ht | ].
  intros Hmatch anyEmail. unfold Accounts.login, Accounts.isBlank.
  rewrite (trim_digits _ Hd).
  assert (Hm : isEmpty (Accounts.trimmed mobile) = false).
  { destruct (Accounts.trimmed mobile); [discriminate Hl | reflexivity]. }
  rewrite Hm, (long_not_empty p Hlen). cbn [orb andb negb].
  rewrite find_snoc.
  - rewrite Hmatch. reflexivity.
  - intros u Hu. apply String.eqb_neq. exact (Hnm u Hu).
  - apply String.eqb_refl.
Qed.

(** A registration and a later login on the sample server: the same row,
    another token. *)
Lemma register_then_login_witness :
  Accounts.status
    (fst (fst (Accounts.register sampleAccounts [sampleRow]
                 (Some " 9123456780 ") (Some "longer-secret") (Some "Bala")
                 (Some "bala@example.com")))) = 201%Z
  /\ exists user,
       Accounts.register sampleAccounts [sampleRow]
         (Some " 9123456780 ") (Some "longer-secret") (Some "Bala")
         (Some "bala@example.com")
       = (Accounts.session 201 user "jwt:8", ([sampleRow] ++ [user])%list, [])
       /\ Accounts.login sampleAccountsLater ([sampleRow] ++ [user])%list
            (Some "9123456780") None (Some "longer-secret")
          = (Accounts.session 200 user "jwt:8:later", []).
Proof.
  assert (H : Accounts.status
                (fst (fst (Accounts.register sampleAccounts [sampleRow]
                             (Some " 9123456780 ") (Some "longer-secret") (Some "Bala")
                             (Some "bala@example.com")))) = 201%Z) by reflexivity.
  split; [exact H | ].
  destruct (register_then_login sampleAccounts sampleAccountsLater [sampleRow] _ _ _ _ H)
    as (user & p & token & Hp & Hpw & _ & Hreg & Htoken & Hlogin).
  exists user.
  assert (E : snd (fst (Accounts.register sampleAccounts [sampleRow]
                          (Some " 9123456780 ") (Some "longer-secret") (Some "Bala")
                          (Some "bala@example.com")))
              = ([sampleRow] ++ [user])%list) by (rewrite Hreg; reflexivity).
  vm_compute in E. injection E as E. subst user.
  vm_compute in Htoken. injection Htoken as <-.
  injection Hp as <-.
  split; [exact Hreg | ].
  exact (Hlogin eq_refl None).
Defined.

(** X9.  [login] answers 200 only for a row of the table that the model
    matches against the password sent, found by the mobile sent - compared
    as it stands - or, when no mobile is sent, by the email sent; the reply
    then carries that row's key, mobile, name and email and a token for its
    key.  [login] takes the table as input only: it writes nothing. *)
Theorem login_session env table mobile email password :
  Accounts.status (fst (Accounts.login env table mobile email password)) = 200%Z ->
  exists user p token,
    password = Some p /\ p <> ""%string
    /\ In user table
    /\ Accounts.matchPassword env user p = true
    /\ Token.generateToken (Accounts.tokens env) (Accounts.id user) = inr token
    /\ Accounts.login env table mobile email password
       = (Accounts.session 200 user token, [])
    /\ ((mobile = Some (Accounts.mobile user) /\ Accounts.mobile user <> ""%string)
        \/ (Accounts.present mobile = false /\ email = Some (Accounts.email user))).
Proof.
  unfold Accounts.login.
  destruct (Accounts.isBlank mobile && Accounts.isBlank email); [discriminate | ].
  destruct password as [p | ]; [ | discriminate ].
  destruct (isEmpty p) eqn:Hp; [discriminate | ].
  apply isEmpty_false in Hp.
  match goal with
  | |- context [match ?u with Some _ => _ | None => _ end] =>
      destruct u as [user | ] eqn:Hfind
  end; [ | discriminate ].
  destruct (Accounts.matchPassword env user p) eqn:Hmatch; [ | discriminate ].
  destruct (Token.generateToken (Accounts.tokens env) (Accounts.id user))
    as [error | token] eqn:Ht; [discriminate | ].
  intros _. exists user, p, token.
  split; [reflexivity | ]. split; [assumption | ].
  assert (Hrow : In user table
                 /\ ((mobile = Some (Accounts.mobile user)
                      /\ Accounts.mobile user <> ""%string)
                     \/ (Accounts.present mobile = false
                         /\ email = Some (Accounts.email user)))).
  { destruct mobile as [m | ].
    - destruct (isEmpty m) eqn:Hm; cbn [negb] in Hfind.
      + destruct email as [e | ]; [ | discriminate Hfind ].
        destruct (isEmpty e); cbn [negb] in Hfind; [discriminate Hfind | ].
        apply find_some in Hfind. destruct Hfind as [Hin He].
        apply String.eqb_eq in He. subst e.
        split; [assumption | ]. right. cbn [Accounts.present]. rewrite Hm. auto.
      + apply find_some in Hfind. destruct Hfind as [Hin He].
        apply String.eqb_eq in He. subst m. apply isEmpty_false in Hm.
        split; [assumption | ]. left. auto.
    - destruct email as [e | ]; [ | discriminate Hfind ].
      destruct (isEmpty e); cbn [negb] in Hfind; [discriminate Hfind | ].
      apply find_some in Hfind. destruct Hfind as [Hin He].
      apply String.eqb_eq in He. subst e.
      split; [assumption | ]. right. auto. }
  destruct Hrow as [Hin Hby]. auto 10.
Qed.

Lemma login_session_witness :
  Accounts.status
    (fst (Accounts.login sampleAccounts [sampleRow] None (Some "asha@example.com")
            (Some "old-password"))) = 200%Z
  /\ exists token,
       Accounts.login sampleAccounts [sampleRow] None (Some "asha@example.com")
         (Some "old-password")
       = (Accounts.session 200 sampleRow token, []).
Proof.
  assert (H : Accounts.status
                (fst (Accounts.login sampleAccounts [sampleRow] None
                        (Some "asha@example.com") (Some "old-password"))) = 200%Z)
    by reflexivity.
  split; [exact H | ].
  destruct (login_session sampleAccounts [sampleRow] _ _ _ H)
    as (user & p & token & _ & _ & Hin & _ & _ & Hrun & _).
  destruct Hin as [<- | []]. exists token. exact Hrun.
Defined.

(** X10.  A mobile that is sent takes the place of the email.  When the
    body carries a non-empty mobile that no row holds as it stands - a
    padded one, say, which [register] would have trimmed - [login] never
    answers 200; with an email and a password sent along it answers 401
    [Invalid credentials], even if they are the email and password of a
    row. *)
Theorem login_mobile_first env table m :
  m <> ""%string ->
  (forall u, In u table -> Accounts.mobile u <> m) ->
  forall email password,
    Accounts.status (fst (Accounts.login env table (Some m) email password)) <> 200%Z
    /\ (forall e p, email = Some e -> Auth.trim e <> ""%string ->
          password = Some p -> p <> ""%string ->
          Accounts.login env table (Some m) email password
          = (Accounts.reply 401 "Invalid credentials", [])).
Proof.
  intros Hm Hno email password.
  assert (Hf : find (fun u => String.eqb (Accounts.mobile u) m) table = None)
    by (apply (no_row_with Accounts.mobile); assumption).
  apply isEmpty_false in Hm.
  split.
  - unfold Accounts.login.
    destruct (Accounts.isBlank (Some m) && Accounts.isBlank email); [discriminate | ].
    destruct password as [p | ]; [ | discriminate ].
    destruct (isEmpty p); [discriminate | ].
    rewrite Hm. cbn [negb]. rewrite Hf. discriminate.
  - intros e p -> He -> Hp. unfold Accounts.login, Accounts.isBlank.
    apply isEmpty_false in He, Hp.
    assert (He' : isEmpty e = false).
    { destruct e; [ | reflexivity ]. discriminate He. }
    rewrite He, He', Hp, Hm. cbn [orb andb negb].
    rewrite andb_false_r. rewrite Hf. reflexivity.
Qed.

Lemma login_mobile_first_witness :
  " 9876543210" <> ""%string
  /\ Accounts.status
       (fst (Accounts.login sampleAccounts [sampleRow] None (Some "asha@example.com")
               (Some "old-password"))) = 200%Z
  /\ Accounts.login sampleAccounts [sampleRow] (Some " 9876543210")
       (Some "asha@example.com") (Some "old-password")
     = (Accounts.reply 401 "Invalid credentials", []).
Proof.
  assert (H1 : " 9876543210" <> ""%string) by discriminate.
  assert (H2 : forall u, In u [sampleRow] -> Accounts.mobile u <> " 9876543210"%string).
  { intros u [<- | []]. discriminate. }
  split; [exact H1 | ]. split; [reflexivity | ].
  refine (proj2 (login_mobile_first sampleAccounts [sampleRow] _ H1 H2
                   (Some "asha@example.com"%string) (Some "old-password"%string))
                _ _ eq_refl _ eq_refl _); discriminate.
Defined.

(* ------------------------------------------------------------------ *)
(** ** Changing the password and the profile *)

(** Reading a row back after saving it. *)
Lemma findByPk_save k table u a :
  Accounts.findByPk k table = Some u -> Accounts.id a = k ->
  Accounts.findByPk k (Accounts.save a table) = Some a.
Proof.
  unfold Accounts.findByPk, Accounts.save. intros Hf Ha. subst k.
  induction table as [| v table IH]; [discriminate Hf | ].
  cbn [map find] in *.
  destruct (Accounts.id v =? Accounts.id a)%Z eqn:E.
  - rewrite Z.eqb_refl. reflexivity.
  - rewrite E. apply IH. exact Hf.
Qed.

Lemma save_rows a table w :
  In w (Accounts.save a table) ->
  w = a \/ (In w table /\ Accounts.id w <> Accounts.id a).
Proof.
  unfold Accounts.save. intros H. apply in_map_iff in H. destruct H as (v & Hv & Hin).
  destruct (Accounts.id v =? Accounts.id a)%Z eqn:E.
  - left. auto.
  - right. subst w. split; [assumption | ]. apply Z.eqb_neq. exact E.
Qed.

(** What [change-password] does, by cases. *)
Lemma changePassword_cases env table userId currentPassword newPassword :
  (exists c p user,
     currentPassword = Some c /\ newPassword = Some p /\ c <> ""%string
     /\ (8 <= strlen p)%nat
     /\ Accounts.findByPk userId table = Some user
     /\ Accounts.matchPassword env user c = true
     /\ Accounts.changePassword env table userId currentPassword newPassword
        = (Accounts.reply 200 "Password changed successfully",
           Accounts.save (Accounts.setPassword p user) table))
  \/ (exists code msg,
        Accounts.changePassword env table userId currentPassword newPassword
        = (Accounts.reply code msg, table)
        /\ (code = 400 \/ code = 404 \/ code = 401)%Z
        /\ ~ exists c p user,
               currentPassword = Some c /\ newPassword = Some p /\ c <> ""%string
               /\ (8 <= strlen p)%nat
               /\ Accounts.findByPk userId table = Some user
               /\ Accounts.matchPassword env user c = true).
Proof.
  unfold Accounts.changePassword.
  destruct currentPassword as [c | ].
  2:{ right. eexists; eexists. split; [reflexivity | ]. split; [auto | ].
      intros (c & p & u & H & _). discriminate H. }
  destruct newPassword as [p | ].
  2:{ right. eexists; eexists. split; [reflexivity | ]. split; [auto | ].
      intros (c' & p & u & _ & H & _). discriminate H. }
  destruct (isEmpty c) eqn:Hc; cbn [orb].
  { right. eexists; eexists. split; [reflexivity | ]. split; [auto | ].
    intros (c' & p' & u & H & _ & Hne & _). injection H as <-.
    apply isEmpty_true in Hc. congruence. }
  destruct (isEmpty p) eqn:Hp.
  { right. eexists; eexists. split; [reflexivity | ]. split; [auto | ].
    intros (c' & p' & u & _ & H & _ & Hl & _). injection H as <-.
    rewrite (long_not_empty _ Hl) in Hp. discriminate Hp. }
  destruct (strlen p <? 8)%nat eqn:Hl.
  { right. eexists; eexists. split; [reflexivity | ]. split; [auto | ].
    intros (c' & p' & u & _ & H & _ & Hl' & _). injection H as <-.
    apply Nat.ltb_lt in Hl. lia. }
  destruct (Accounts.findByPk userId table) as [user | ] eqn:Hf.
  2:{ right. eexists; eexists. split; [reflexivity | ]. split; [auto | ].
      intros (c' & p' & u & _ & _ & _ & _ & H & _). discriminate H. }
  destruct (Accounts.matchPassword env user c) eqn:Hm; cbn [negb].
  - left. exists c, p, user. apply isEmpty_false in Hc. apply Nat.ltb_ge in Hl. auto 10.
  - right. eexists; eexists. split; [reflexivity | ]. split; [auto | ].
    intros (c' & p' & u & H1 & _ & _ & _ & H2 & H3).
    injection H1 as <-. injection H2 as <-. congruence.
Qed.

(** X11.  [change-password] answers 200 exactly when both passwords are
    sent, the new one has 8 characters or more, the authenticated user
    exists and the model matches the current password against the row.
    Then the row read back by its key holds the new password and is
    otherwise as before - mobile, email, name, preferences and the reset
    columns - and every row with another key is kept.  Any other request is
    answered 400, 404 or 401 and changes nothing. *)
Theorem change_password env table userId currentPassword newPassword :
  (Accounts.status (fst (Accounts.changePassword env table userId
                           currentPassword newPassword)) = 200%Z
   <-> exists c p user,
         currentPassword = Some c /\ newPassword = Some p /\ c <> ""%string
         /\ (8 <= strlen p)%nat
         /\ Accounts.findByPk userId table = Some user
         /\ Accounts.matchPassword env user c = true)
  /\ (Accounts.status (fst (Accounts.changePassword env table userId
                              currentPassword newPassword)) = 200%Z ->
      exists p user,
        newPassword = Some p
        /\ Accounts.findByPk userId table = Some user
        /\ Accounts.findByPk userId
             (snd (Accounts.changePassword env table userId currentPassword newPassword))
           = Some (Accounts.setPassword p user)
        /\ Accounts.password (Accounts.setPassword p user) = p
        /\ Accounts.mobile (Accounts.setPassword p user) = Accounts.mobile user
        /\ Accounts.email (Accounts.setPassword p user) = Accounts.email user
        /\ Accounts.name (Accounts.setPassword p user) = Accounts.name user
        /\ Accounts.preferences (Accounts.setPassword p user) = Accounts.preferences user
        /\ Auth.passwordResetToken (Accounts.base (Accounts.setPassword p user))
           = Auth.passwordResetToken (Accounts.base user)
        /\ Auth.passwordResetExpires (Accounts.base (Accounts.setPassword p user))
           = Auth.passwordResetExpires (Accounts.base user)
        /\ forall w,
             In w (snd (Accounts.changePassword env table userId
                          currentPassword newPassword)) ->
             w = Accounts.setPassword p user \/ (In w table /\ Accounts.id w <> userId))
  /\ (Accounts.status (fst (Accounts.changePassword env table userId
                              currentPassword newPassword)) <> 200%Z ->
      snd (Accounts.changePassword env table userId currentPassword newPassword) = table).
Proof.
  destruct (changePassword_cases env table userId currentPassword newPassword)
    as [(c & p & user & Hc & Hp & Hne & Hl & Hf & Hm & Hrun)
       | (code & msg & Hrun & Hcode & Hno)]; rewrite Hrun; cbn [fst snd].
  - split; [ | split ].
    + split; [ | reflexivity ]. intros _. exists c, p, user. auto 10.
    + intros _. exists p, user.
      destruct (findByPk_some _ _ _ Hf) as [Hin Hid].
      split; [assumption | ]. split; [assumption | ].
      split; [apply (findByPk_save userId table user); [assumption | exact Hid] | ].
      do 7 (split; [reflexivity | ]).
      intros w Hw. apply save_rows in Hw.
      change (Accounts.id (Accounts.setPassword p user)) with (Accounts.id user) in Hw.
      rewrite Hid in Hw. exact Hw.
    + intros H. exfalso. apply H. reflexivity.
  - split; [ | split ].
    + split; [ | intros H; destruct (Hno H) ].
      cbn [Accounts.reply Accounts.status]. intros ->.
      destruct Hcode as [H | [H | H]]; discriminate H.
    + cbn [Accounts.reply Accounts.status]. intros ->.
      destruct Hcode as [H | [H | H]]; discriminate H.
    + intros _. reflexivity.
Qed.

(** The reset columns of a table after a row was saved with its reset
    columns as they were. *)
Lemma resetView_live authEnv token a user table :
  NoDup (map Accounts.id table) -> In user table ->
  Accounts.id a = Accounts.id user ->
  Auth.passwordResetToken (Accounts.base a) = Auth.passwordResetToken (Accounts.base user) ->
  Auth.passwordResetExpires (Accounts.base a)
  = Auth.passwordResetExpires (Accounts.base user) ->
  (exists u, In u (resetView table) /\ tokenLive authEnv token u) ->
  exists u, In u (resetView (Accounts.save a table)) /\ tokenLive authEnv token u.
Proof.
  intros Hnd Hin Hid Htok Hexp (u & Hu & Hlive).
  unfold resetView in *. apply in_map_iff in Hu. destruct Hu as (row & <- & Hrow).
  destruct (Accounts.id row =? Accounts.id a)%Z eqn:E.
  - apply Z.eqb_eq in E.
    assert (row = user) by (apply (NoDup_map_inj Accounts.id table); congruence).
    subst row. exists (Accounts.base a). split.
    + apply in_map. unfold Accounts.save. apply in_map_iff. exists user.
      rewrite <- Hid, Z.eqb_refl. auto.
    + unfold tokenLive in *. rewrite Htok, Hexp. exact Hlive.
  - exists (Accounts.base row). split; [ | exact Hlive ].
    apply in_map. unfold Accounts.save. apply in_map_iff. exists row.
    rewrite E. auto.
Qed.

(** X12.  A password change does not cancel a pending reset.  On a table
    with distinct keys, a token that [reset-password] would accept for
    some row before [change-password] answered 200 is still accepted
    after it: the old way into the account stays open. *)
Theorem change_password_keeps_reset authEnv env table userId currentPassword newPassword
    token chosen :
  NoDup (map Accounts.id table) ->
  Accounts.status (fst (Accounts.changePassword env table userId
                          currentPassword newPassword)) = 200%Z ->
  token <> ""%string -> (8 <= strlen chosen)%nat ->
  (exists u, In u (resetView table) /\ tokenLive authEnv token u) ->
  Auth.status
    (fst (Auth.resetPassword authEnv
            (resetView (snd (Accounts.changePassword env table userId
                               currentPassword newPassword)))
            (Some token) (Some chosen))) = 200%Z.
Proof.
  intros Hnd H200 Ht Hl Hlive.
  destruct (changePassword_cases env table userId currentPassword newPassword)
    as [(c & p & user & _ & _ & _ & _ & Hf & _ & Hrun)
       | (code & msg & Hrun & Hcode & _)]; rewrite Hrun in *; cbn [fst snd] in *.
  2:{ cbn [Accounts.reply Accounts.status] in H200. subst code.
      destruct Hcode as [H | [H | H]]; discriminate H. }
  destruct (findByPk_some _ _ _ Hf) as [Hin _].
  pose proof (resetView_live authEnv token (Accounts.setPassword p user) user table
                Hnd Hin eq_refl eq_refl eq_refl Hlive) as Hlive'.
  destruct (resetPassword_cases authEnv
              (resetView (Accounts.save (Accounts.setPassword p user) table))
              token chosen Ht)
    as [(w & _ & _ & _ & Hrun') | (msg & _ & Hno)].
  - rewrite Hrun'. reflexivity.
  - exfalso. apply Hno. split; assumption.
Qed.

Lemma change_password_keeps_reset_witness :
  NoDup (map Accounts.id sampleTable)
  /\ Accounts.status
       (fst (Accounts.changePassword sampleAccounts sampleTable 7
               (Some "old-password") (Some "brand-new-one"))) = 200%Z
  /\ Auth.status
       (fst (Auth.resetPassword sampleAuthEnv
               (resetView (snd (Accounts.changePassword sampleAccounts sampleTable 7
                                  (Some "old-password") (Some "brand-new-one"))))
               (Some "5f2b9c") (Some "chosen-later"))) = 200%Z.
Proof.
  assert (H1 : NoDup (map Accounts.id sampleTable))
    by (repeat constructor; intros []).
  assert (H2 : Accounts.status
                 (fst (Accounts.changePassword sampleAccounts sampleTable 7
                         (Some "old-password") (Some "brand-new-one"))) = 200%Z)
    by reflexivity.
  split; [exact H1 | ]. split; [exact H2 | ].
  apply (change_password_keeps_reset sampleAuthEnv sampleAccounts sampleTable 7
           _ _ "5f2b9c" "chosen-later" H1 H2).
  - discriminate.
  - unfold strlen. simpl. lia.
  - exists sampleAccount. split; [left; reflexivity | ].
    split; [reflexivity | ]. eexists. split; [reflexivity | ]. reflexivity.
Defined.

(** X13.  [profile] answers 200 exactly when the authenticated user
    exists, and 404 otherwise, changing nothing.  On 200 the reply is the
    row as saved, and reading the row back by its key gives it: the name
    is the one sent unless it is missing or empty, in which case the name
    is kept; likewise the email, which is stored as sent - neither trimmed
    nor checked against the shape [register] asks for; key, mobile,
    password, preferences and the reset columns are as before. *)
Theorem profile_update table userId name email :
  (Accounts.findByPk userId table = None ->
   Accounts.updateProfile table userId name email
   = (Accounts.reply 404 "User not found", table))
  /\ (forall user,
        Accounts.findByPk userId table = Some user ->
        exists saved,
          Accounts.updateProfile table userId name email
          = ({| Accounts.status := 200; Accounts.body := Accounts.Profile saved |},
             Accounts.save saved table)
          /\ Accounts.findByPk userId (snd (Accounts.updateProfile table userId name email))
             = Some saved
          /\ Accounts.name saved
             = match name with
               | Some n => if isEmpty n then Accounts.name user else n
               | None => Accounts.name user
               end
          /\ Accounts.email saved
             = match email with
               | Some e => if isEmpty e then Accounts.email user else e
               | None => Accounts.email user
               end
          /\ Accounts.id saved = Accounts.id user
          /\ Accounts.mobile saved = Accounts.mobile user
          /\ Accounts.password saved = Accounts.password user
          /\ Accounts.preferences saved = Accounts.preferences user
          /\ Auth.passwordResetToken (Accounts.base saved)
             = Auth.passwordResetToken (Accounts.base user)
          /\ Auth.passwordResetExpires (Accounts.base saved)
             = Auth.passwordResetExpires (Accounts.base user)).
Proof.
  unfold Accounts.updateProfile. split.
  - intros ->. reflexivity.
  - intros user Hf. rewrite Hf. eexists. split; [reflexivity | ].
    cbn [snd]. destruct (findByPk_some _ _ _ Hf) as [_ Hid].
    split.
    + apply (findByPk_save userId table user); [assumption | ].
      destruct name as [n | ]; [destruct (isEmpty n) | ];
        (destruct email as [e | ]; [destruct (isEmpty e) | ]); exact Hid.
    + destruct name as [n | ]; [destruct (isEmpty n) | ];
        (destruct email as [e | ]; [destruct (isEmpty e) | ]);
        repeat split; reflexivity.
Qed.

(* ------------------------------------------------------------------ *)
(** ** Preferences *)

Lemma field_assign_same k v o : field (Accounts.assign k v o) k = v.
Proof.
  induction o as [| [k' v'] r IH]; cbn [Accounts.assign field].
  - rewrite String.eqb_refl. reflexivity.
  - destruct (String.eqb k' k) eqn:E; cbn [field].
    + rewrite String.eqb_refl. reflexivity.
    + rewrite E. exact IH.
Qed.

Lemma field_assign_other k k' v o :
  k <> k' -> field (Accounts.assign k v o) k' = field o k'.
Proof.
  intros Hne. apply String.eqb_neq in Hne.
  induction o as [| [k0 v0] r IH]; cbn [Accounts.assign field].
  - rewrite Hne. reflexivity.
  - destruct (String.eqb k0 k) eqn:E; cbn [field].
    + apply String.eqb_eq in E. subst k0. rewrite Hne. reflexivity.
    + rewrite IH. reflexivity.
Qed.

(** Defining a property with the value it has changes nothing. *)
Lemma assign_same_value k v o :
  field o k = v -> v <> VUndef -> Accounts.assign k v o = o.
Proof.
  intros Hf Hv. induction o as [| [k' v'] r IH]; cbn [Accounts.assign field] in *.
  - congruence.
  - destruct (String.eqb k' k) eqn:E.
    + apply String.eqb_eq in E. congruence.
    + rewrite (IH Hf). reflexivity.
Qed.

Lemma field_spread_same k v o : field (Accounts.spreadDefined k v o) k = merged v (field o k).
Proof.
  destruct v; cbn [Accounts.spreadDefined merged]; try apply field_assign_same.
  reflexivity.
Qed.

Lemma field_spread_other k k' v o :
  k <> k' -> field (Accounts.spreadDefined k v o) k' = field o k'.
Proof.
  intros H. destruct v; cbn [Accounts.spreadDefined]; try (apply field_assign_other; exact H).
  reflexivity.
Qed.

Lemma spread_same_value k v o :
  field o k = merged v (field o k) -> Accounts.spreadDefined k v o = o.
Proof.
  destruct v; cbn [Accounts.spreadDefined merged]; intros H;
    try reflexivity; apply assign_same_value; try discriminate; exact H.
Qed.

(** The object a preferences update builds. *)
Lemma updatePreferences_run table userId a b c user :
  Accounts.findByPk userId table = Some user ->
  Accounts.updatePreferences table userId a b c
  = ({| Accounts.status := 200;
        Accounts.body :=
          Accounts.Preferences
            (Accounts.spreadDefined "newsletter" c
               (Accounts.spreadDefined "smsNotifications" b
                  (Accounts.spreadDefined "emailNotifications" a
                     (Accounts.currentPreferences user)))) |},
     Accounts.save
       (Accounts.setPreferences
          (Accounts.spreadDefined "newsletter" c
             (Accounts.spreadDefined "smsNotifications" b
                (Accounts.spreadDefined "emailNotifications" a
                   (Accounts.currentPreferences user)))) user) table).
Proof. intros Hf. unfold Accounts.updatePreferences. rewrite Hf. reflexivity. Qed.

(** X14.  Preferences round trip: what the update answers is what a read
    of the preferences answers afterwards - the merged object after a 200,
    the 404 of an unknown user otherwise. *)
Theorem preferences_round_trip table userId emailNotifications smsNotifications newsletter :
  Accounts.getPreferences
    (snd (Accounts.updatePreferences table userId
            emailNotifications smsNotifications newsletter)) userId
  = fst (Accounts.updatePreferences table userId
           emailNotifications smsNotifications newsletter).
Proof.
  destruct (Accounts.findByPk userId table) as [user | ] eqn:Hf.
  - rewrite (updatePreferences_run _ _ _ _ _ user Hf). cbn [fst snd].
    unfold Accounts.getPreferences.
    destruct (findByPk_some _ _ _ Hf) as [_ Hid].
    rewrite (findByPk_save userId table user (Accounts.setPreferences _ user) Hf Hid).
    reflexivity.
  - unfold Accounts.updatePreferences, Accounts.getPreferences. rewrite Hf.
    cbn [fst snd]. rewrite Hf. reflexivity.
Qed.

(** X15.  A preferences update merges.  For an existing user the object
    answered gives each of the three preferences the value sent for it, if
    one was sent, and its current value otherwise; every other property of
    the stored object is kept; and the current values of a user who has
    none stored are the defaults: email notifications on, SMS
    notifications and newsletter off.  The values sent are stored as they
    are, of whatever type. *)
Theorem preferences_merge table userId emailNotifications smsNotifications newsletter user :
  Accounts.findByPk userId table = Some user ->
  exists updated,
    fst (Accounts.updatePreferences table userId
           emailNotifications smsNotifications newsletter)
    = {| Accounts.status := 200; Accounts.body := Accounts.Preferences updated |}
    /\ field updated "emailNotifications"
       = merged emailNotifications
           (field (Accounts.currentPreferences user) "emailNotifications")
    /\ field updated "smsNotifications"
       = merged smsNotifications
           (field (Accounts.currentPreferences user) "smsNotifications")
    /\ field updated "newsletter"
       = merged newsletter (field (Accounts.currentPreferences user) "newsletter")
    /\ (forall k, ~ In k preferenceKeys ->
          field updated k = field (Accounts.currentPreferences user) k)
    /\ (Accounts.preferences user = None ->
        Accounts.currentPreferences user
        = [ ("emailNotifications", VBool true); ("smsNotifications", VBool false);
            ("newsletter", VBool false) ]%string).
Proof.
  intros Hf. rewrite (updatePreferences_run _ _ _ _ _ user Hf). cbn [fst].
  eexists. split; [reflexivity | ].
  split; [ | split; [ | split; [ | split ] ] ].
  - rewrite (field_spread_other "newsletter"), (field_spread_other "smsNotifications")
      by discriminate.
    apply field_spread_same.
  - rewrite (field_spread_other "newsletter") by discriminate.
    rewrite field_spread_same.
    rewrite (field_spread_other "emailNotifications") by discriminate. reflexivity.
  - rewrite field_spread_same.
    rewrite (field_spread_other "smsNotifications"),
      (field_spread_other "emailNotifications") by discriminate.
    reflexivity.
  - intros k Hk.
    rewrite !field_spread_other; [reflexivity | | | ];
      intros <-; apply Hk; simpl; tauto.
  - intros Hnone. unfold Accounts.currentPreferences. rewrite Hnone. reflexivity.
Qed.

Lemma preferences_merge_witness :
  Accounts.findByPk 7 [sampleSubscriber] = Some sampleSubscriber
  /\ exists updated,
       fst (Accounts.updatePreferences [sampleSubscriber] 7 VUndef (VBool true) VUndef)
       = {| Accounts.status := 200; Accounts.body := Accounts.Preferences updated |}
       /\ field updated "emailNotifications" = VBool false
       /\ field updated "smsNotifications" = VBool true
       /\ field updated "newsletter" = VUndef
       /\ field updated "theme" = VStr "dark".
Proof.
  assert (H : Accounts.findByPk 7 [sampleSubscriber] = Some sampleSubscriber)
    by reflexivity.
  split; [exact H | ].
  destruct (preferences_merge [sampleSubscriber] 7 VUndef (VBool true) VUndef
              sampleSubscriber H) as (updated & Hrun & He & Hs & Hn & Hother & _).
  exists updated. split; [exact Hrun | ].
  split; [rewrite He; reflexivity | ]. split; [rewrite Hs; reflexivity | ].
  split; [rewrite Hn; reflexivity | ].
  rewrite Hother; [reflexivity | ]. simpl. intuition discriminate.
Defined.

Lemma save_save a table : Accounts.save a (Accounts.save a table) = Accounts.save a table.
Proof.
  unfold Accounts.save. rewrite map_map. apply map_ext. intros v.
  destruct (Accounts.id v =? Accounts.id a)%Z eqn:E.
  - rewrite Z.eqb_refl. reflexivity.
  - rewrite E. reflexivity.
Qed.

(** X16.  A preferences update is idempotent: sending the same body again
    gives the same answer and leaves the table as the first update left
    it. *)
Theorem preferences_idempotent table userId emailNotifications smsNotifications newsletter :
  Accounts.updatePreferences
    (snd (Accounts.updatePreferences table userId
            emailNotifications smsNotifications newsletter))
    userId emailNotifications smsNotifications newsletter
  = Accounts.updatePreferences table userId emailNotifications smsNotifications newsletter.
Proof.
  destruct (Accounts.findByPk userId table) as [user | ] eqn:Hf.
  - rewrite (updatePreferences_run _ _ _ _ _ user Hf). cbn [snd].
    destruct (findByPk_some _ _ _ Hf) as [_ Hid].
    set (p := Accounts.spreadDefined "newsletter" newsletter
                (Accounts.spreadDefined "smsNotifications" smsNotifications
                   (Accounts.spreadDefined "emailNotifications" emailNotifications
                      (Accounts.currentPreferences user)))).
    rewrite (updatePreferences_run _ _ _ _ _ (Accounts.setPreferences p user)
               (findByPk_save userId table user (Accounts.setPreferences p user) Hf Hid)).
    change (Accounts.currentPreferences (Accounts.setPreferences p user)) with p.
    assert (He : Accounts.spreadDefined "emailNotifications" emailNotifications p = p).
    { apply spread_same_value. unfold p.
      rewrite (field_spread_other "newsletter"), (field_spread_other "smsNotifications")
        by discriminate.
      rewrite field_spread_same. destruct emailNotifications; reflexivity. }
    assert (Hs : Accounts.spreadDefined "smsNotifications" smsNotifications p = p).
    { apply spread_same_value. unfold p.
      rewrite (field_spread_other "newsletter") by discriminate. rewrite field_spread_same.
      destruct smsNotifications; reflexivity. }
    assert (Hn : Accounts.spreadDefined "newsletter" newsletter p = p).
    { apply spread_same_value. unfold p. rewrite field_spread_same.
      destruct newsletter; reflexivity. }
    rewrite He, Hs, Hn.
    change (Accounts.setPreferences p (Accounts.setPreferences p user))
      with (Accounts.setPreferences p user).
    rewrite save_save. reflexivity.
  - unfold Accounts.updatePreferences. rewrite Hf. cbn [snd]. rewrite Hf. reflexivity.
Qed.

(* ------------------------------------------------------------------ *)
(** ** Requests for a password reset *)

(** What [forgot-password] does for a well-formed email that a row holds. *)
Lemma forgotPassword_found env db e u :
  Auth.trim e <> ""%string -> Auth.validEmail (Auth.trim e) = true ->
  find (fun v => String.eqb (Auth.email v) (Auth.trim e)) db = Some u ->
  snd (fst (Auth.forgotPassword env db (Some e))) = Auth.save (afterForgot env u) db
  /\ (forall msg, Auth.mailError env = Some msg ->
        Auth.forgotPassword env db (Some e)
        = (Auth.reply 500 "Server error", Auth.save (afterForgot env u) db,
           [Auth.ConsoleError "Forgot password error:"]))
  /\ (Auth.mailError env = None ->
      Auth.status (fst (fst (Auth.forgotPassword env db (Some e)))) = 200%Z
      /\ In (Auth.SendPasswordResetEmail (Auth.email u) (Auth.randomHex env) (Auth.name u))
            (snd (Auth.forgotPassword env db (Some e)))).
Proof.
  intros Hne Hvalid Hfind. unfold Auth.forgotPassword.
  rewrite (not_empty _ Hne), Hvalid, Hfind. cbn [negb].
  destruct (Auth.mailError env) as [msg | ].
  - split; [reflexivity | ]. split; [ | discriminate ].
    intros msg' H. injection H as <-. reflexivity.
  - split; [ | split; [discriminate | intros _ ] ];
      destruct (match Auth.nodeEnv env with
                | Some e0 => String.eqb e0 "development"
                | None => false
                end); try reflexivity; split; try reflexivity; left; reflexivity.
Qed.

(** After a request the account's row carries the new token, and rows
    with another key are the rows of before. *)
Lemma forgot_rows env db u w :
  In w (Auth.save (afterForgot env u) db) ->
  w = afterForgot env u \/ (In w db /\ Auth.id w <> Auth.id u).
Proof. intros H. exact (saved_rows db _ w H). Qed.

Lemma find_email_saved env db k u :
  find (fun v => String.eqb (Auth.email v) k) db = Some u ->
  find (fun v => String.eqb (Auth.email v) k) (Auth.save (afterForgot env u) db)
  = Some (afterForgot env u).
Proof.
  intros Hf. pose proof (find_some _ _ Hf) as [_ Hu]. cbv beta in Hu.
  unfold Auth.save. induction db as [| v db IH]; [discriminate Hf | ].
  cbn [find map] in *.
  destruct (Auth.id v =? Auth.id (afterForgot env u))%Z eqn:Eid.
  - cbn [afterForgot Auth.email]. rewrite Hu. reflexivity.
  - destruct (String.eqb (Auth.email v) k) eqn:Ee.
    + injection Hf as ->. cbn [afterForgot Auth.id] in Eid. rewrite Z.eqb_refl in Eid.
      discriminate Eid.
    + apply IH. exact Hf.
Qed.

(** A token is refused when no row holds its hash with an expiry ahead. *)
Lemma reset_refused env db token chosen :
  token <> ""%string ->
  (forall w, In w db -> ~ tokenLive env token w) ->
  Auth.status (fst (Auth.resetPassword env db (Some token) (Some chosen))) = 400%Z
  /\ snd (Auth.resetPassword env db (Some token) (Some chosen)) = db.
Proof.
  intros Ht Hno.
  destruct (resetPassword_cases env db token chosen Ht)
    as [(w & _ & Hin & Hlive & _) | (msg & Hrun & _)].
  - destruct (Hno w Hin Hlive).
  - rewrite Hrun. split; reflexivity.
Qed.

(** X17.  The token is stored before the mail is sent.  When sending the
    mail fails, [forgot-password] answers 500 [Server error] and sends
    nothing, yet the row of the account already holds the hash of the new
    token and an expiry one hour ahead - so that token, which nobody was
    sent, would still reset the password within the hour. *)
Theorem forgot_stores_before_mail env db e u msg :
  Auth.trim e <> ""%string -> Auth.validEmail (Auth.trim e) = true ->
  find (fun v => String.eqb (Auth.email v) (Auth.trim e)) db = Some u ->
  Auth.mailError env = Some msg ->
  Auth.status (fst (fst (Auth.forgotPassword env db (Some e)))) = 500%Z
  /\ Auth.resetToken (fst (fst (Auth.forgotPassword env db (Some e)))) = None
  /\ existsb sendsMail (snd (Auth.forgotPassword env db (Some e))) = false
  /\ snd (fst (Auth.forgotPassword env db (Some e))) = Auth.save (afterForgot env u) db
  /\ In (afterForgot env u) (snd (fst (Auth.forgotPassword env db (Some e))))
  /\ forall env' chosen,
       Auth.sha256 env' = Auth.sha256 env -> Auth.randomHex env <> ""%string ->
       (Auth.now env' < Auth.now env + 3600000)%Z -> (8 <= strlen chosen)%nat ->
       Auth.status
         (fst (Auth.resetPassword env' (snd (fst (Auth.forgotPassword env db (Some e))))
                 (Some (Auth.randomHex env)) (Some chosen))) = 200%Z.
Proof.
  intros Hne Hvalid Hfind Hmail.
  destruct (forgotPassword_found env db e u Hne Hvalid Hfind) as (Hdb & Hfail & _).
  rewrite (Hfail msg Hmail). cbn [fst snd].
  apply find_some in Hfind. destruct Hfind as [Hin _].
  assert (Hrow : In (afterForgot env u) (Auth.save (afterForgot env u) db))
    by (apply (saved_row_present db u); [assumption | reflexivity]).
  repeat (split; [reflexivity | ]). split; [exact Hrow | ].
  intros env' chosen Hsha Hhex Hnow Hlen.
  destruct (resetPassword_cases env' (Auth.save (afterForgot env u) db)
              (Auth.randomHex env) chosen Hhex)
    as [(w & _ & _ & _ & Hrun') | (msg' & _ & Hno)].
  - rewrite Hrun'. reflexivity.
  - exfalso. apply Hno. split; [assumption | ].
    exists (afterForgot env u). split; [exact Hrow | ].
    unfold tokenLive. cbn [Auth.passwordResetToken Auth.passwordResetExpires afterForgot].
    rewrite Hsha. split; [reflexivity | ].
    eexists. split; [reflexivity | ]. exact Hnow.
Qed.

Lemma forgot_stores_before_mail_witness :
  Auth.status
    (fst (fst (Auth.forgotPassword sampleAuthEnvNoMail [sampleAccountIdle]
                 (Some " asha@example.com ")))) = 500%Z
  /\ Auth.status
       (fst (Auth.resetPassword sampleAuthEnv
               (snd (fst (Auth.forgotPassword sampleAuthEnvNoMail [sampleAccountIdle]
                            (Some " asha@example.com "))))
               (Some "5f2b9c") (Some "chosen-later"))) = 200%Z.
Proof.
  destruct (forgot_stores_before_mail sampleAuthEnvNoMail [sampleAccountIdle]
              " asha@example.com " sampleAccountIdle "connect ECONNREFUSED")
    as (H500 & _ & _ & _ & _ & Hreset);
    [ discriminate | reflexivity | reflexivity | reflexivity | ].
  split; [exact H500 | ].
  apply (Hreset sampleAuthEnv "chosen-later");
    [ reflexivity | discriminate | reflexivity | unfold strlen; simpl; lia ].
Defined.

(** X18.  What [forgot-password] gives away.  The reply carries the reset
    token only in development mode, and then it is the token issued, with
    status 200; in any other mode no reply carries it.  For a well-formed
    email the answer is 404 exactly when no row holds it, so the route
    tells whether an email is registered; requests answered 400 or 404
    change nothing. *)
Theorem forgot_discloses env db bodyEmail :
  (forall t, Auth.resetToken (fst (fst (Auth.forgotPassword env db bodyEmail))) = Some t ->
     development env = true /\ t = Auth.randomHex env
     /\ Auth.status (fst (fst (Auth.forgotPassword env db bodyEmail))) = 200%Z)
  /\ (development env = true ->
      Auth.status (fst (fst (Auth.forgotPassword env db bodyEmail))) = 200%Z ->
      Auth.resetToken (fst (fst (Auth.forgotPassword env db bodyEmail)))
      = Some (Auth.randomHex env))
  /\ (forall e, bodyEmail = Some e ->
        Auth.trim e <> ""%string -> Auth.validEmail (Auth.trim e) = true ->
        (Auth.status (fst (fst (Auth.forgotPassword env db bodyEmail))) = 404%Z
         <-> forall v, In v db -> Auth.email v <> Auth.trim e))
  /\ (Auth.status (fst (fst (Auth.forgotPassword env db bodyEmail))) = 400%Z
      \/ Auth.status (fst (fst (Auth.forgotPassword env db bodyEmail))) = 404%Z ->
      snd (fst (Auth.forgotPassword env db bodyEmail)) = db).
Proof.
  unfold development. split; [ | split; [ | split ] ].
  - intros t. unfold Auth.forgotPassword.
    destruct (isEmpty _); [discriminate | ].
    destruct (negb _); [discriminate | ].
    destruct (find _ db); [ | discriminate ].
    destruct (Auth.mailError env); [discriminate | ].
    destruct (match Auth.nodeEnv env with
              | Some e0 => String.eqb e0 "development"
              | None => false
              end); [ | discriminate ].
    cbn [fst Auth.resetToken Auth.status]. intros H. injection H as <-. auto.
  - intros Hdev. unfold Auth.forgotPassword.
    destruct (isEmpty _); [discriminate | ].
    destruct (negb _); [discriminate | ].
    destruct (find _ db); [ | discriminate ].
    destruct (Auth.mailError env); [discriminate | ].
    rewrite Hdev. reflexivity.
  - intros e -> Hne Hvalid. rewrite <- (no_row_with Auth.email).
    unfold Auth.forgotPassword. rewrite (not_empty _ Hne), Hvalid. cbn [negb].
    destruct (find _ db) as [u | ].
    + split; [ | discriminate ].
      destruct (Auth.mailError env); [discriminate | ].
      destruct (match Auth.nodeEnv env with
                | Some e0 => String.eqb e0 "development"
                | None => false
                end); discriminate.
    + split; reflexivity.
  - unfold Auth.forgotPassword.
    destruct (isEmpty _); [reflexivity | ].
    destruct (negb _); [reflexivity | ].
    destruct (find _ db); [ | reflexivity ].
    destruct (Auth.mailError env); [intros [H | H]; discriminate H | ].
    destruct (match Auth.nodeEnv env with
              | Some e0 => String.eqb e0 "development"
              | None => false
              end); intros [H | H]; discriminate H.
Qed.

(** X19.  A new request replaces the token.  After [forgot-password] has
    stored a token for an account, a second request for the same email
    stores another one in its place, and the first token - no other
    account holding its hash - is refused by [reset-password] from then
    on, though its hour has not passed. *)
Theorem second_request_replaces_token env1 env2 env3 db e u chosen :
  Auth.trim e <> ""%string -> Auth.validEmail (Auth.trim e) = true ->
  find (fun v => String.eqb (Auth.email v) (Auth.trim e)) db = Some u ->
  Auth.sha256 env2 = Auth.sha256 env1 -> Auth.sha256 env3 = Auth.sha256 env1 ->
  Auth.randomHex env1 <> ""%string ->
  Auth.sha256 env1 (Auth.randomHex env2) <> Auth.sha256 env1 (Auth.randomHex env1) ->
  (forall v, In v db ->
     Auth.passwordResetToken v = Some (Auth.sha256 env1 (Auth.randomHex env1)) ->
     Auth.id v = Auth.id u) ->
  snd (fst (Auth.forgotPassword env2
              (snd (fst (Auth.forgotPassword env1 db (Some e)))) (Some e)))
  = Auth.save (afterForgot env2 (afterForgot env1 u)) (Auth.save (afterForgot env1 u) db)
  /\ Auth.status
       (fst (Auth.resetPassword env3
               (snd (fst (Auth.forgotPassword env2
                            (snd (fst (Auth.forgotPassword env1 db (Some e)))) (Some e))))
               (Some (Auth.randomHex env1)) (Some chosen))) = 400%Z.
Proof.
  intros Hne Hvalid Hfind Hsha2 Hsha3 Hhex Hdiff Hunique.
  destruct (forgotPassword_found env1 db e u Hne Hvalid Hfind) as (Hdb1 & _).
  rewrite Hdb1.
  pose proof (find_email_saved env1 db _ u Hfind) as Hfind1.
  destruct (forgotPassword_found env2 _ e _ Hne Hvalid Hfind1) as (Hdb2 & _).
  rewrite Hdb2. split; [reflexivity | ].
  apply reset_refused; [assumption | ].
  intros w Hw [Htok _]. rewrite Hsha3 in Htok.
  apply forgot_rows in Hw. destruct Hw as [-> | [Hw Hid]].
  - cbn [afterForgot Auth.passwordResetToken] in Htok. rewrite Hsha2 in Htok.
    injection Htok as Htok. exact (Hdiff Htok).
  - apply forgot_rows in Hw. destruct Hw as [-> | [Hw Hid1]].
    + apply Hid. reflexivity.
    + apply Hid1. exact (Hunique w Hw Htok).
Qed.

Lemma second_request_replaces_token_witness :
  Auth.status
    (fst (Auth.resetPassword sampleAuthEnv
            (snd (fst (Auth.forgotPassword sampleAuthEnv [sampleAccountIdle]
                         (Some "asha@example.com"))))
            (Some "5f2b9c") (Some "chosen-later"))) = 200%Z
  /\ Auth.status
       (fst (Auth.resetPassword sampleAuthEnvLater
               (snd (fst (Auth.forgotPassword sampleAuthEnvLater
                            (snd (fst (Auth.forgotPassword sampleAuthEnv [sampleAccountIdle]
                                         (Some "asha@example.com"))))
                            (Some "asha@example.com"))))
               (Some "5f2b9c") (Some "chosen-later"))) = 400%Z.
Proof.
  split; [reflexivity | ].
  refine (proj2 (second_request_replaces_token sampleAuthEnv sampleAuthEnvLater
                   sampleAuthEnvLater [sampleAccountIdle] "asha@example.com"
                   sampleAccountIdle "chosen-later" _ _ _ _ _ _ _ _));
    try reflexivity; try discriminate.
  intros v [<- | []] H. discriminate H.
Defined.

(** X20.  A token expires.  Once the clock has reached the expiry that
    [forgot-password] stored - one hour after the request -
    [reset-password] refuses the token with status 400 and changes
    nothing, no other account holding its hash. *)
Theorem expired_token_refused env env' db e u chosen :
  Auth.trim e <> ""%string -> Auth.validEmail (Auth.trim e) = true ->
  find (fun v => String.eqb (Auth.email v) (Auth.trim e)) db = Some u ->
  Auth.sha256 env' = Auth.sha256 env -> Auth.randomHex env <> ""%string ->
  (Auth.now env + 3600000 <= Auth.now env')%Z ->
  (forall v, In v db ->
     Auth.passwordResetToken v = Some (Auth.sha256 env (Auth.randomHex env)) ->
     Auth.id v = Auth.id u) ->
  Auth.status
    (fst (Auth.resetPassword env' (snd (fst (Auth.forgotPassword env db (Some e))))
            (Some (Auth.randomHex env)) (Some chosen))) = 400%Z
  /\ snd (Auth.resetPassword env' (snd (fst (Auth.forgotPassword env db (Some e))))
            (Some (Auth.randomHex env)) (Some chosen))
     = snd (fst (Auth.forgotPassword env db (Some e))).
Proof.
  intros Hne Hvalid Hfind Hsha Hhex Hlate Hunique.
  destruct (forgotPassword_found env db e u Hne Hvalid Hfind) as (Hdb & _).
  rewrite Hdb. apply reset_refused; [assumption | ].
  intros w Hw [Htok (t & Hexp & Hnow)]. rewrite Hsha in Htok.
  apply forgot_rows in Hw. destruct Hw as [-> | [Hw Hid]].
  - cbn [afterForgot Auth.passwordResetExpires] in Hexp. injection Hexp as <-. lia.
  - apply Hid. exact (Hunique w Hw Htok).
Qed.

Lemma expired_token_refused_witness :
  Auth.status
    (fst (Auth.resetPassword sampleAuthEnvExpired
            (snd (fst (Auth.forgotPassword sampleAuthEnv [sampleAccountIdle]
                         (Some "asha@example.com"))))
            (Some "5f2b9c") (Some "chosen-later"))) = 400%Z
  /\ (Auth.now sampleAuthEnv + 3600000 <= Auth.now sampleAuthEnvExpired)%Z.
Proof.
  assert (Hlate : (Auth.now sampleAuthEnv + 3600000 <= Auth.now sampleAuthEnvExpired)%Z)
    by (vm_compute; discriminate).
  split; [ | exact Hlate ].
  refine (proj1 (expired_token_refused sampleAuthEnv sampleAuthEnvExpired
                   [sampleAccountIdle] "asha@example.com" sampleAccountIdle
                   "chosen-later" _ _ _ _ _ Hlate _));
    try reflexivity; try discriminate.
  intros v [<- | []] H. discriminate H.
Defined.

(* ------------------------------------------------------------------ *)
(** ** When the promise resolves and why it rejects *)

Local Open Scope Q_scope.




(** Arguments of any value. *)















(* ------------------------------------------------------------------ *)
(** ** What holds of every event of an invoice *)

Ltac qcmp := vm_compute; first [reflexivity | discriminate | intros ?H; discriminate].

(** A property of the events of the table body follows from the property
    of a page break, of the header row, of the stripes and of the cells of
    a row drawn at or above the threshold. *)
Lemma paginated_Forall r (P : Event -> Prop) :
  P AddPage -> Forall P continuationHeader ->
  (forall index y h, Forall P (stripeEvents index y h)) ->
  (forall item y, y <= threshold -> Forall P (cellEvents r item y)) ->
  forall items index y events,
    Paginated r items index y events -> Forall P events.
Proof.
  intros Hpage Hheader Hstripe Hcells items index y events.
  induction 1 as [ | item rest index y h events Hg Hh Hrest IH
                   | item rest index y h events Hg Hh Hrest IH ].
  - constructor.
  - apply gtb_false in Hg.
    apply Forall_app. split; [apply Hstripe | ].
    apply Forall_app. split; [apply Hcells; assumption | assumption].
  - constructor; [assumption | ].
    apply Forall_app. split; [assumption | ].
    apply Forall_app. split; [apply Hstripe | ].
    apply Forall_app. split; [ | assumption ].
    apply Hcells. apply continuation_row_above. assumption.
Qed.

(** The same of a whole invoice, section by section. *)
Lemma sections_Forall (P : Event -> Prop) env order user y (body : list Event) :
  Forall P (openEvents env order 0) -> Forall P (logoEvents env) ->
  Forall P (headingEvents env order 1) ->
  Forall P (customerEvents (rt env) order user) ->
  Forall P (headerEvents tableStartY (tableStartY + 10)) ->
  Forall P body ->
  Forall P (totalsEvents env order (y + 20)) ->
  Forall P (footerEvents (totalsEnd env order (y + 20))) ->
  P EndDocument ->
  Forall P
    (openEvents env order 0
     ++ logoEvents env ++ headingEvents env order 1
     ++ customerEvents (rt env) order user
     ++ headerEvents tableStartY (tableStartY + 10) ++ body
     ++ totalsEvents env order (y + 20)
     ++ footerEvents (totalsEnd env order (y + 20))
     ++ [EndDocument])%list.
Proof.
  intros. repeat (apply Forall_app; split; [assumption | ]).
  constructor; [assumption | constructor].
Qed.


Lemma stack_Forall (P : Event -> Prop) lines :
  forall y, (forall l z, P (detail l z)) -> Forall P (stack lines y).
Proof.
  induction lines as [| l rest IH]; intros y H; simpl; constructor; auto.
Qed.


Lemma totals_Forall (P : Event -> Prop) env order y :
  (forall label value z fnt sz col,
     Forall P (totalsPair (rt env) label value z fnt sz col)) ->
  Forall P (totalsEvents env order y).
Proof.
  intros H. unfold totalsEvents, regularPair.
  destruct (gt0 (amount (rt env) order "shippingCost")); destruct (gt0 (amount (rt env) order "tax"));
    repeat (apply Forall_app; split); try apply H; constructor.
Qed.






(* ------------------------------------------------------------------ *)
(** ** Layout *)

Ltac each tac := repeat (apply Forall_cons; [tac | ]); try apply Forall_nil.

Lemma rowY_le y : rowY y <= threshold.
Proof.
  unfold rowY. destruct (gtb y threshold) eqn:E; [qcmp | ].
  apply gtb_false. assumption.
Qed.

Lemma mathMax_le a b c : a <= c -> b <= c -> mathMax a b <= c.
Proof. intros Ha Hb. unfold mathMax. destruct (Qle_bool a b); assumption. Qed.

(** With rows of height [H] at most, the loop over the items ends no
    lower than [H] below the threshold.  The name of an item is measured
    in the font in force when its row starts: the 10 point regular of the
    rows, but the 11 point bold of the header row when the row is the
    first of a new page. *)
Lemma forEachItem_end env items H :
  (forall item, In item items ->
     heightOfString env (toStr (rt env) (itemName item)) (Some colItemWidth)
       "Helvetica" 10 + 12 <= H
     /\ heightOfString env (toStr (rt env) (itemName item)) (Some colItemWidth)
          "Helvetica-Bold" 11 + 12 <= H) ->
  24 <= H ->
  forall index y s y' events s',
    clean s -> gFont s = "Helvetica"%string -> gSize s = 10%Z ->
    y <= threshold + H ->
    forEachItem env items index y s = (Ok y', events, s') ->
    y' <= threshold + H.
Proof.
  intros Hh H24.
  induction items as [| item rest IH]; intros index y s y' events s' Hs Hf Hz Hy Hrun.
  - simpl in Hrun. injection Hrun as <- _ _. assumption.
  - simpl in Hrun. destruct (isObject item) eqn:Hobj.
    + destruct (itemRow_run env item index y s Hobj Hs) as (s1 & Hrow & Hs1 & Hf1 & Hz1).
      rewrite (bind_run _ _ _ _ _ _ Hrow) in Hrun.
      destruct (forEachItem env rest (S index) (rowY y + rowHeight env item y s) s1)
        as [[r ev2] s2] eqn:Hrest.
      injection Hrun as -> _ _.
      apply (IH (fun i Hin => Hh i (or_intror Hin)) _ _ _ _ _ _ Hs1 Hf1 Hz1) in Hrest;
        [assumption | ].
      apply Qplus_le_compat; [apply rowY_le | ].
      unfold rowHeight. rewrite Hf, Hz. apply mathMax_le; [assumption | ].
      destruct (Hh item (or_introl eq_refl)) as [Hregular Hbold].
      destruct (gtb y threshold); assumption.
    + rewrite (bind_throw _ _ _ _ _ _ (itemRow_throws env item index y s Hobj)) in Hrun.
      discriminate Hrun.
Qed.

(** Every text and shape of the customer block lies in its box. *)
Lemma customer_inBox r order user : Forall inBox (customerEvents r order user).
Proof.
  unfold customerEvents, detailLines.
  destruct (truthy (customerAddress order));
    [ destruct (truthy (getOpt (customerAddress order) "address"));
      destruct (negb (isEmpty (cityStateZip r order))) | ];
    destruct (truthy (customerMobile order user));
    destruct (truthy (customerEmail order user));
    cbn [app stack]; unfold detail;
    each ltac:(cbn [inBox tx ty width];
               first [ reflexivity
                     | split; [reflexivity | split; [qcmp | split; [qcmp | ] ] ];
                       first [exact I | qcmp] ]).
Qed.

Lemma logo_Forall (P : Event -> Prop) env :
  (forall file x y w h, P (Image file x y w h)) ->
  (forall msg error, P (ConsoleError msg error)) ->
  Forall P (logoEvents env).
Proof.
  intros Hi Hc. unfold logoEvents. destruct (logoPath env) as [p | ]; [ | constructor ].
  destruct (existsSync env p); [ | constructor ].
  destruct (imageError env); repeat constructor; auto.
Qed.

Lemma open_Forall (P : Event -> Prop) env order n :
  (forall e, isDrawing e = false -> P e) -> Forall P (openEvents env order n).
Proof.
  intros H. unfold openEvents.
  destruct (existsSync env (invoicesDir env)); repeat constructor; apply H; reflexivity.
Qed.

(** X24.  The layout of an invoice.  Every text lies between the left and
    the right margin of the page, whatever the order.  Downwards, a row
    starts at or above the threshold, 250 points above the lower edge of
    the page, and the lowest text of the invoice, the brand name of the
    footer, starts at most 193 points below the end of the last row: 20 to
    the totals, at most 68 through them, 50 to the thanks, 30 to the
    disclaimer and 25 to the brand name.  So when every row is at most [H]
    high - the name of every item measuring at most [H - 12] in the two
    fonts a name is measured in, the 10 point regular of the rows and the
    11 point bold of a header row just redrawn - every text starts at
    [pageHeight - 57 + H] or above, and a text that is at most [57 - H]
    high ends on the page it starts on.  Rows of the least height, 24,
    leave 33 points for the height of a text; rows of 57 points leave
    nothing: the 250 points kept free are not enough for every order. *)
Theorem layout env order user reference events :
  generateInvoicePDF env order user = (Resolved reference, events) ->
  Forall withinMargins events
  /\ (forall H,
        24 <= H ->
        (forall item, In item (elements (field order "items")) ->
           heightOfString env (toStr (rt env) (itemName item)) (Some colItemWidth)
             "Helvetica" 10 + 12 <= H
           /\ heightOfString env (toStr (rt env) (itemName item)) (Some colItemWidth)
                "Helvetica-Bold" 11 + 12 <= H) ->
        Forall (startsBy (pageHeight - 57 + H)) events
        /\ Forall (endsOnPageWithin env (57 - H)) events).
Proof.
  intros H.
  destruct (resolved_sections _ _ _ _ _ H)
    as (items & body & y' & s0 & s1 & Hitems & _ & (Hc0 & Hf0 & Hz0) & Hloop & ->).
  destruct (forEachItem_paginated env items _ _ _ _ _ _ Hc0 Hloop) as (Hpag & _).
  split.
  - apply sections_Forall.
    + apply open_Forall. intros e He. destruct e; try discriminate He; exact I.
    + apply logo_Forall; intros; exact I.
    + each ltac:(cbn [withinMargins headingLine tx width]; split; qcmp).
    + apply (Forall_impl withinMargins (P := inBox)); [ | apply customer_inBox ].
      intros e He. destruct e; try exact I. cbn [inBox withinMargins] in *.
      destruct He as (Hx & _ & _ & Hw). rewrite Hx in *. split; [qcmp | ].
      destruct (width t) as [w | ]; [ | exact I ].
      apply (Qle_trans _ _ _ Hw). qcmp.
    + each ltac:(first [exact I | cbn [withinMargins headerCell tx width]; split; qcmp]).
    + revert Hpag. apply paginated_Forall.
      * exact I.
      * each ltac:(first [exact I | cbn [withinMargins headerCell tx width]; split; qcmp]).
      * intros i z h. unfold stripeEvents.
        destruct (Nat.eqb (i mod 2) 0); repeat constructor.
      * intros item z _.
        each ltac:(cbn [withinMargins cell tx width]; split; qcmp).
    + apply totals_Forall. intros.
      each ltac:(cbn [withinMargins totalsCell tx width]; split; qcmp).
    + each ltac:(cbn [withinMargins headingLine tx width]; split; qcmp).
    + exact I.
  - intros Hmax H24 Hh.
    assert (Hend : y' <= threshold + Hmax).
    { apply (forEachItem_end env items Hmax) with (7 := Hloop); try assumption.
      - intros item Hin. rewrite Hitems in Hh. cbn [elements] in Hh. exact (Hh item Hin).
      - unfold firstRowY, threshold, tableStartY, billToBoxY, billToBoxHeight,
          invoiceInfoY, invoiceTitleY, headerRowHeight, pageHeight, margin. lra. }
    unfold threshold, pageHeight in Hend.
    assert (Hstart :
      Forall (startsBy (pageHeight - 57 + Hmax))
        (openEvents env order 0
         ++ logoEvents env ++ headingEvents env order 1
         ++ customerEvents (rt env) order user
         ++ headerEvents tableStartY (tableStartY + 10) ++ body
         ++ totalsEvents env order (y' + 20)
         ++ footerEvents (totalsEnd env order (y' + 20))
         ++ [EndDocument])%list).
    { apply sections_Forall.
      + apply open_Forall. intros e He. destruct e; try discriminate He; exact I.
      + apply logo_Forall; intros; exact I.
      + each ltac:(cbn [startsBy headingLine ty];
                   unfold pageHeight, invoiceInfoY, invoiceTitleY, margin; lra).
      + apply (Forall_impl (startsBy (pageHeight - 57 + Hmax)) (P := inBox));
          [ | apply customer_inBox ].
        intros e He. destruct e; try exact I. cbn [inBox startsBy] in *.
        destruct He as (_ & _ & Hy & _). apply (Qle_trans _ _ _ Hy).
        unfold pageHeight, billToBoxY, billToBoxHeight, invoiceInfoY, invoiceTitleY, margin.
        lra.
      + each ltac:(first [ exact I
                         | cbn [startsBy headerCell ty];
                           unfold pageHeight, tableStartY, billToBoxY, billToBoxHeight,
                             invoiceInfoY, invoiceTitleY, margin; lra ]).
      + apply (Forall_impl (startsBy (pageHeight - 57 + Hmax)) (P := aboveThreshold));
          [ | exact (paginated_above _ _ _ _ _ Hpag) ].
        intros e He. destruct e; try exact I. cbn [aboveThreshold startsBy] in *.
        apply (Qle_trans _ _ _ He). unfold threshold, pageHeight. lra.
      + unfold totalsEvents, regularPair, totalsPair, totalsCell.
        destruct (gt0 (amount (rt env) order "shippingCost"));
          destruct (gt0 (amount (rt env) order "tax"));
          cbn [app];
          each ltac:(cbn [startsBy ty]; unfold pageHeight; lra).
      + unfold footerEvents, totalsEnd, headingLine.
        destruct (gt0 (amount (rt env) order "shippingCost"));
          destruct (gt0 (amount (rt env) order "tax"));
          each ltac:(cbn [startsBy ty]; unfold pageHeight; lra).
      + exact I. }
    split; [exact Hstart | ].
    apply (Forall_impl (endsOnPageWithin env (57 - Hmax)) (P := startsBy (pageHeight - 57 + Hmax)));
      [ | exact Hstart ].
    intros e He. destruct e; try exact I. cbn [startsBy endsOnPageWithin] in *.
    intros Hfit. lra.
Qed.

(** On the sample order of forty items, whose rows are less than 25 points
    high, every text starts 32 points or more above the lower edge of the
    page. *)
Lemma layout_witness :
  fst (generateInvoicePDF sampleEnv sampleOrder40 sampleUser)
  = Resolved "/uploads/invoices/invoice-ORD-40-1700000000000.pdf"
  /\ Forall (startsBy (pageHeight - 57 + 25))
       (snd (generateInvoicePDF sampleEnv sampleOrder40 sampleUser))
  /\ Forall (endsOnPageWithin sampleEnv (57 - 25))
       (snd (generateInvoicePDF sampleEnv sampleOrder40 sampleUser)).
Proof.
  assert (H : generateInvoicePDF sampleEnv sampleOrder40 sampleUser
              = (Resolved "/uploads/invoices/invoice-ORD-40-1700000000000.pdf",
                 snd (generateInvoicePDF sampleEnv sampleOrder40 sampleUser)))
    by (vm_compute; reflexivity).
  split; [rewrite H; reflexivity | ].
  refine (proj2 (layout _ _ _ _ _ H) 25 _ _).
  - vm_compute. discriminate.
  - intros item Hin. split; vm_compute; discriminate.
Defined.

(* ------------------------------------------------------------------ *)
(** ** Pages *)

(** A page the code starts belongs to a row: over the table body it
    starts at most one page more than there are rows, and no more pages
    than rows when the first row does not break. *)
Lemma paginated_pages_le r items index y events :
  Paginated r items index y events ->
  (pagesStarted events <= S (List.length items))%nat
  /\ (gtb y threshold = false -> items <> [] ->
      (pagesStarted events <= List.length items)%nat).
Proof.
  induction 1 as [ | item rest index y h events Hg Hh Hrest [IH _]
                   | item rest index y h events Hg Hh Hrest [IH _] ].
  - simpl. split; [lia | congruence].
  - rewrite !pagesStarted_app, pagesStarted_stripe, pagesStarted_cells.
    pose proof (pagesStarted_pos events). simpl. split; intros; lia.
  - cbn [pagesStarted]. rewrite !pagesStarted_app, pagesStarted_stripe, pagesStarted_cells.
    change (pagesStarted continuationHeader) with 1%nat.
    pose proof (pagesStarted_pos events). simpl.
    split; [lia | intros Hg'; congruence].
Qed.

(** X25.  The code starts no more pages than there are line items:
    [doc.addPage()] is called only before a row, at most once for a row
    and never for the first, which starts above the threshold.  For an
    order of a single item the code does not call [doc.addPage()] at all;
    any further page of such a file is PDFKit's own, started for a text
    that runs past the lower edge of the page. *)
Theorem pages_at_most_items env order user reference events :
  generateInvoicePDF env order user = (Resolved reference, events) ->
  (1 <= pagesStarted events)%nat
  /\ (pagesStarted events <= List.length (elements (field order "items")))%nat
  /\ (List.length (elements (field order "items")) = 1%nat -> ~ In AddPage events).
Proof.
  intros H.
  destruct (resolved_sections _ _ _ _ _ H)
    as (items & body & y' & s0 & s1 & Hitems & Hne & (Hc0 & _) & Hloop & ->).
  destruct (forEachItem_paginated env items _ _ _ _ _ _ Hc0 Hloop) as (Hpag & _).
  destruct (paginated_pages_le _ _ _ _ _ Hpag) as (_ & Hle).
  assert (Hfirst : gtb firstRowY threshold = false) by (vm_compute; reflexivity).
  specialize (Hle Hfirst Hne).
  rewrite Hitems. cbn [elements].
  assert (Hpages :
    pagesStarted
      (openEvents env order 0 ++ logoEvents env ++ headingEvents env order 1
       ++ customerEvents (rt env) order user
       ++ headerEvents tableStartY (tableStartY + 10) ++ body
       ++ totalsEvents env order (y' + 20)
       ++ footerEvents (totalsEnd env order (y' + 20)) ++ [EndDocument])%list
    = pagesStarted body).
  { rewrite !pagesStarted_app, pagesStarted_open, pagesStarted_logo, pagesStarted_customer,
      pagesStarted_totals.
    pose proof (pagesStarted_pos body). simpl. lia. }
  pose proof (pagesStarted_pos body).
  split; [rewrite Hpages; assumption | ]. split; [rewrite Hpages; assumption | ].
  intros H1. apply no_page_started. rewrite Hpages. lia.
Qed.

Lemma pages_at_most_items_witness :
  fst (generateInvoicePDF sampleEnv sampleOrder sampleUser)
  = Resolved "/uploads/invoices/invoice-ORD-1-1700000000000.pdf"
  /\ ~ In AddPage (snd (generateInvoicePDF sampleEnv sampleOrder sampleUser)).
Proof.
  assert (H : generateInvoicePDF sampleEnv sampleOrder sampleUser
              = (Resolved "/uploads/invoices/invoice-ORD-1-1700000000000.pdf",
                 snd (generateInvoicePDF sampleEnv sampleOrder sampleUser)))
    by (vm_compute; reflexivity).
  split; [rewrite H; reflexivity | ].
  apply (proj2 (proj2 (pages_at_most_items _ _ _ _ _ H))). reflexivity.
Defined.

(* ------------------------------------------------------------------ *)
(** ** Opacity *)

(** X26.  The reduced opacity of the footer does not leak.  Of all the
    texts of an invoice only the disclaimer of the footer is drawn at
    opacity 0.8; every other text, before and after it, is drawn at full
    opacity. *)
Theorem opacity_restored env order user reference events :
  generateInvoicePDF env order user = (Resolved reference, events) ->
  Forall fullOpacity events
  /\ exists before y,
       events
       = (before
          ++ [ Text {| content := disclaimer; tx := margin; ty := y;
                       width := Some contentWidth; align := Some AlignCenter;
                       font := "Helvetica"; size := 9; color := colors.textSecondary;
                       alpha := 8 # 10 |};
               Text {| content := "Arudhra Fashions"; tx := pageWidth - margin - 150;
                       ty := y + 25; width := Some 150; align := Some AlignRight;
                       font := "Times-Italic"; size := 15; color := colors.primaryDark;
                       alpha := 1 |};
               EndDocument ])%list.
Proof.
  intros H.
  destruct (resolved_sections _ _ _ _ _ H)
    as (items & body & y' & s0 & s1 & _ & _ & (Hc0 & _) & Hloop & ->).
  destruct (forEachItem_paginated env items _ _ _ _ _ _ Hc0 Hloop) as (Hpag & _).
  split.
  - apply sections_Forall.
    + apply open_Forall. intros e He. destruct e; try discriminate He; exact I.
    + apply logo_Forall; intros; exact I.
    + each ltac:(left; reflexivity).
    + unfold customerEvents. apply Forall_app. split.
      * each ltac:(first [exact I | left; reflexivity]).
      * apply stack_Forall. intros l z. left. reflexivity.
    + each ltac:(first [exact I | left; reflexivity]).
    + revert Hpag. apply paginated_Forall.
      * exact I.
      * each ltac:(first [exact I | left; reflexivity]).
      * intros i z h. unfold stripeEvents.
        destruct (Nat.eqb (i mod 2) 0); repeat constructor.
      * intros item z _. each ltac:(left; reflexivity).
    + apply totals_Forall. intros. each ltac:(left; reflexivity).
    + each ltac:(first [left; reflexivity | right; split; reflexivity]).
    + exact I.
  - eexists (openEvents env order 0 ++ logoEvents env ++ headingEvents env order 1
             ++ customerEvents (rt env) order user
             ++ headerEvents tableStartY (tableStartY + 10) ++ body
             ++ totalsEvents env order (y' + 20) ++ [_])%list, _.
    rewrite <- !app_assoc. reflexivity.
Qed.

Lemma opacity_restored_witness :
  fst (generateInvoicePDF sampleEnv sampleOrder sampleUser)
  = Resolved "/uploads/invoices/invoice-ORD-1-1700000000000.pdf"
  /\ Forall fullOpacity (snd (generateInvoicePDF sampleEnv sampleOrder sampleUser)).
Proof.
  assert (H : generateInvoicePDF sampleEnv sampleOrder sampleUser
              = (Resolved "/uploads/invoices/invoice-ORD-1-1700000000000.pdf",
                 snd (generateInvoicePDF sampleEnv sampleOrder sampleUser)))
    by (vm_compute; reflexivity).
  split; [rewrite H; reflexivity | ].
  exact (proj1 (opacity_restored _ _ _ _ _ H)).
Defined.

(* ------------------------------------------------------------------ *)
(** ** The order number *)

(** X27.  The order number.  The heading shows [order.orderId], or [N/A]
    when it is missing or otherwise falsy; the name of the file is built
    from [order.orderId] as it is.  So the two agree when an order number
    is present, and an order without one is headed [N/A] but stored as
    [invoice-undefined-<epochMillis>.pdf]. *)
Theorem order_number env order user reference events :
  generateInvoicePDF env order user = (Resolved reference, events) ->
  In (headingLine (toStr (rt env) (jsOr (field order "orderId") (VStr "N/A")))
        (invoiceInfoY + 15) "Helvetica-Bold" 12 colors.textPrimary) events
  /\ reference
     = ("/uploads/invoices/invoice-" ++ toStr (rt env) (field order "orderId") ++ "-"
        ++ numToStr (rt env) (Fin (inject_Z (clock (rt env) 0))) ++ ".pdf")%string
  /\ (truthy (field order "orderId") = true ->
      toStr (rt env) (jsOr (field order "orderId") (VStr "N/A"))
      = toStr (rt env) (field order "orderId"))
  /\ (truthy (field order "orderId") = false ->
      In (headingLine "N/A" (invoiceInfoY + 15) "Helvetica-Bold" 12 colors.textPrimary)
         events)
  /\ (field order "orderId" = VUndef ->
      reference
      = ("/uploads/invoices/invoice-undefined-"
         ++ numToStr (rt env) (Fin (inject_Z (clock (rt env) 0))) ++ ".pdf")%string).
Proof.
  intros H.
  destruct (resolved_ready _ _ _ _ _ H) as (_ & Href).
  destruct (resolved_sections _ _ _ _ _ H)
    as (items & body & y' & s0 & s1 & _ & _ & _ & _ & Hev).
  assert (Hhead : In (headingLine (toStr (rt env) (jsOr (field order "orderId") (VStr "N/A")))
                        (invoiceInfoY + 15) "Helvetica-Bold" 12 colors.textPrimary) events).
  { rewrite Hev. apply in_or_app. right. apply in_or_app. right.
    apply in_or_app. left. simpl. tauto. }
  split; [exact Hhead | ]. split; [exact Href | ]. split; [ | split ].
  - intros Ht. rewrite (or_truthy _ _ Ht). reflexivity.
  - intros Hf. rewrite (or_falsy _ _ Hf) in Hhead. exact Hhead.
  - intros Hu. rewrite Href. unfold fileName. rewrite Hu. reflexivity.
Qed.

Lemma order_number_witness :
  fst (generateInvoicePDF sampleEnv sampleOrderNoId sampleUser)
  = Resolved "/uploads/invoices/invoice-undefined-1700000000000.pdf"
  /\ In (headingLine "N/A" (invoiceInfoY + 15) "Helvetica-Bold" 12 colors.textPrimary)
        (snd (generateInvoicePDF sampleEnv sampleOrderNoId sampleUser)).
Proof.
  assert (H : generateInvoicePDF sampleEnv sampleOrderNoId sampleUser
              = (Resolved "/uploads/invoices/invoice-undefined-1700000000000.pdf",
                 snd (generateInvoicePDF sampleEnv sampleOrderNoId sampleUser)))
    by (vm_compute; reflexivity).
  split; [rewrite H; reflexivity | ].
  destruct (order_number _ _ _ _ _ H) as (_ & _ & _ & Hna & _).
  apply Hna. reflexivity.
Defined.

(* ------------------------------------------------------------------ *)
(** ** Quantities *)

Lemma Qmult_1_r_eq (p : Q) : p * 1 = p.
Proof.
  destruct p as [n d]. unfold Qmult. cbn [Qnum Qden].
  rewrite Z.mul_1_r, Pos.mul_1_r. reflexivity.
Qed.

Lemma clip_small p : Qabs p < overflowBound -> clip p = Fin p.
Proof.
  intros H. unfold clip. destruct (Qle_bool overflowBound (Qabs p)) eqn:E; [ | reflexivity ].
  apply Qle_bool_iff in E. exfalso. exact (Qlt_not_le _ _ H E).
Qed.

(** X28.  A quantity that is missing, zero or otherwise falsy counts as
    one.  The row of such an item shows [1] in the quantity column, and
    its line total is the price times one: the price itself, for every
    price a number can hold - so an item of quantity zero is billed
    once. *)
Theorem quantity_defaults env item index y s :
  isObject item = true -> clean s ->
  truthy (getOpt item "quantity") = false ->
  (exists before s',
     itemRow env item index y s
     = (Ok (rowY y + rowHeight env item y s),
        (before
         ++ [ cell "1" colQty (rowY y) colQtyWidth AlignCenter;
              cell (rupees (rt env) (itemPrice (rt env) item))
                colPrice (rowY y) colPriceWidth AlignRight;
              cell (rupees (rt env) (mul (itemPrice (rt env) item) (Fin 1)))
                colTotal (rowY y) colTotalWidth AlignRight ])%list,
        s'))
  /\ (forall p, itemPrice (rt env) item = Fin p -> Qabs p < overflowBound ->
        mul (itemPrice (rt env) item) (Fin 1) = Fin p)
  /\ (itemPrice (rt env) item = NaN -> mul (itemPrice (rt env) item) (Fin 1) = NaN).
Proof.
  intros Hobj Hs Hq.
  destruct (itemRow_run env item index y s Hobj Hs) as (s' & Hrun & _).
  split; [ | split ].
  - eexists (breakEvents y ++ stripeEvents index (rowY y) (rowHeight env item y s)
             ++ _ :: _ :: _ :: nil)%list, s'.
    rewrite Hrun. unfold cellEvents, lineTotal, itemQuantity.
    rewrite (or_falsy _ _ Hq). rewrite <- !app_assoc. reflexivity.
  - intros p Hp Hsmall. rewrite Hp. cbn [mul]. rewrite Qmult_1_r_eq.
    apply clip_small. assumption.
  - intros Hp. rewrite Hp. reflexivity.
Qed.

Lemma quantity_defaults_witness :
  truthy (getOpt sampleItemZeroQuantity "quantity") = false
  /\ rupees (rt sampleEnv)
       (mul (itemPrice (rt sampleEnv) sampleItemZeroQuantity) (Fin 1)) = "Rs. 1299.50"%string
  /\ exists before s',
       itemRow sampleEnv sampleItemZeroQuantity 0 firstRowY initial
       = (Ok (rowY firstRowY + rowHeight sampleEnv sampleItemZeroQuantity firstRowY initial),
          (before
           ++ [ cell "1" colQty (rowY firstRowY) colQtyWidth AlignCenter;
                cell (rupees (rt sampleEnv) (itemPrice (rt sampleEnv) sampleItemZeroQuantity))
                  colPrice (rowY firstRowY) colPriceWidth AlignRight;
                cell (rupees (rt sampleEnv)
                        (mul (itemPrice (rt sampleEnv) sampleItemZeroQuantity) (Fin 1)))
                  colTotal (rowY firstRowY) colTotalWidth AlignRight ])%list,
          s').
Proof.
  assert (Hq : truthy (getOpt sampleItemZeroQuantity "quantity") = false) by reflexivity.
  split; [exact Hq | ]. split; [vm_compute; reflexivity | ].
  exact (proj1 (quantity_defaults sampleEnv sampleItemZeroQuantity 0 firstRowY initial
                  eq_refl initial_clean Hq)).
Defined.

(* ------------------------------------------------------------------ *)
(** ** The customer block *)

Lemma customerName_truthy order user : truthy (customerName order user) = true.
Proof.
  unfold customerName, jsOr.
  destruct (truthy (field user "name")) eqn:E1; [assumption | ].
  destruct (truthy (getOpt (field order "shippingAddress") "name")) eqn:E2;
    [assumption | reflexivity].
Qed.

Lemma detailLines_length r order user :
  (List.length (detailLines r order user) <= 4)%nat.
Proof.
  unfold detailLines. rewrite !List.length_app.
  destruct (truthy (customerAddress order));
    [ rewrite List.length_app;
      destruct (truthy (getOpt (customerAddress order) "address"));
      destruct (negb (isEmpty (cityStateZip r order))) | ];
    destruct (truthy (customerMobile order user));
    destruct (truthy (customerEmail order user)); simpl; lia.
Qed.

(** X29.  The customer block.  Every invoice carries the block between
    the heading and the table: the box, 280 by 100, filled and outlined;
    [Bill To:]; the name of the customer, which falls back to the name of
    the shipping address and then to [Customer] and so is never missing;
    and at most four lines of details 15 points apart.  Every text of the
    block starts inside the box, 10 points from its left edge, and none is
    wider than the box. *)
Theorem customer_block env order user reference events :
  generateInvoicePDF env order user = (Resolved reference, events) ->
  (exists before after,
     events = (before ++ customerEvents (rt env) order user ++ after)%list
     /\ before = (openEvents env order 0 ++ logoEvents env
                  ++ headingEvents env order 1)%list)
  /\ Forall inBox (customerEvents (rt env) order user)
  /\ billToBox = {| rx := margin; ry := billToBoxY; rw := 280; rh := 100 |}
  /\ (List.length (detailLines (rt env) order user) <= 4)%nat
  /\ truthy (customerName order user) = true
  /\ (truthy (field user "name") = false ->
      truthy (getOpt (field order "shippingAddress") "name") = false ->
      customerName order user = VStr "Customer").
Proof.
  intros H.
  destruct (resolved_sections _ _ _ _ _ H)
    as (items & body & y' & s0 & s1 & _ & _ & _ & _ & Hev).
  split; [ | split; [ | split; [ | split; [ | split ] ] ] ].
  - eexists; eexists. split; [ | reflexivity ].
    rewrite Hev. rewrite <- !app_assoc. reflexivity.
  - apply customer_inBox.
  - reflexivity.
  - apply detailLines_length.
  - apply customerName_truthy.
  - intros H1 H2. unfold customerName. rewrite (or_falsy _ _ H1), (or_falsy _ _ H2).
    reflexivity.
Qed.

Lemma customer_block_witness :
  fst (generateInvoicePDF sampleEnv sampleOrder sampleUser)
  = Resolved "/uploads/invoices/invoice-ORD-1-1700000000000.pdf"
  /\ contents (customerEvents (rt sampleEnv) sampleOrder sampleUser)
     = [ "Bill To:"; "Asha"; "Mobile: 9876543210"; "Email: asha@example.com" ]%string
  /\ Forall inBox (customerEvents (rt sampleEnv) sampleOrder sampleUser).
Proof.
  assert (H : generateInvoicePDF sampleEnv sampleOrder sampleUser
              = (Resolved "/uploads/invoices/invoice-ORD-1-1700000000000.pdf",
                 snd (generateInvoicePDF sampleEnv sampleOrder sampleUser)))
    by (vm_compute; reflexivity).
  split; [rewrite H; reflexivity | ]. split; [reflexivity | ].
  exact (proj1 (proj2 (customer_block _ _ _ _ _ H))).
Defined.

(* ------------------------------------------------------------------ *)
(** ** Colours *)

Local Open Scope Z_scope.

Lemma radixDigit_range c d : radixDigit c = Some d -> 0 <= d < 16.
Proof.
  unfold radixDigit.
  destruct ((48 <=? nat_of_ascii c)%nat && (nat_of_ascii c <=? 57)%nat) eqn:E1.
  - apply andb_true_iff in E1. destruct E1 as [H1 H2].
    apply Nat.leb_le in H1, H2. intros H. injection H as <-. lia.
  - destruct ((97 <=? nat_of_ascii c)%nat && (nat_of_ascii c <=? 102)%nat) eqn:E2.
    + apply andb_true_iff in E2. destruct E2 as [H1 H2].
      apply Nat.leb_le in H1, H2. intros H. injection H as <-. lia.
    + destruct ((65 <=? nat_of_ascii c)%nat && (nat_of_ascii c <=? 70)%nat) eqn:E3;
        [ | discriminate ].
      apply andb_true_iff in E3. destruct E3 as [H1 H2].
      apply Nat.leb_le in H1, H2. intros H. injection H as <-. lia.
Qed.

(** The value of two hexadecimal digits. *)
Lemma hexPair_value a b v :
  hexPair a b = Some v
  <-> exists va vb, radixDigit a = Some va /\ radixDigit b = Some vb /\ v = 16 * va + vb.
Proof.
  unfold hexPair. cbn -[Z.mul Z.add Z.ltb radixDigit]. split.
  - destruct (radixDigit a) as [va | ] eqn:Ha; [ | discriminate ].
    destruct (va <? 16); [ | discriminate ].
    destruct (radixDigit b) as [vb | ] eqn:Hb; [ | discriminate ].
    destruct (vb <? 16); [ | discriminate ].
    intros H. exists va, vb.
    split; [reflexivity | ]. split; [reflexivity | ].
    assert (E : 16 * (16 * 0 + va) + vb = v) by congruence. lia.
  - intros (va & vb & Ha & Hb & ->). rewrite Ha, Hb.
    pose proof (radixDigit_range _ _ Ha) as Ra. pose proof (radixDigit_range _ _ Hb) as Rb.
    assert (E1 : (va <? 16) = true) by (apply Z.ltb_lt; lia).
    assert (E2 : (vb <? 16) = true) by (apply Z.ltb_lt; lia).
    rewrite E1, E2. apply f_equal. lia.
Qed.

Lemma hexPair_range a b v : hexPair a b = Some v -> 0 <= v <= 255.
Proof.
  intros H. apply hexPair_value in H. destruct H as (va & vb & Ha & Hb & ->).
  pose proof (radixDigit_range _ _ Ha). pose proof (radixDigit_range _ _ Hb). lia.
Qed.

(** The optional leading [#]. *)
Lemma strip_hash hex :
  (exists rest, hex = String "#" rest
                /\ match hex with String "#" r => r | _ => hex end = rest)
  \/ ((forall rest, hex <> String "#" rest)
      /\ match hex with String "#" r => r | _ => hex end = hex).
Proof.
  destruct hex as [| c rest]; [right; split; [discriminate | reflexivity] | ].
  destruct c as [[] [] [] [] [] [] [] []];
    first [ left; exists rest; split; reflexivity
          | right; split; [intros r H; discriminate H | reflexivity] ].
Qed.

(** [hexToRgb] on six characters without the [#]. *)
Lemma hexToRgb_six a1 a2 a3 a4 a5 a6 :
  (match hexPair a1 a2, hexPair a3 a4, hexPair a5 a6 with
   | Some r, Some g, Some b => Some (r, g, b)
   | _, _, _ => None
   end)
  = match radixValue 16 0 (String a1 (String a2 EmptyString)),
          radixValue 16 0 (String a3 (String a4 EmptyString)),
          radixValue 16 0 (String a5 (String a6 EmptyString)) with
    | Some r, Some g, Some b => Some (r, g, b)
    | _, _, _ => None
    end.
Proof. reflexivity. Qed.

Lemma hexToRgb_body hex rgb :
  hexToRgb hex = Some rgb ->
  exists a1 a2 a3 a4 a5 a6 r g b,
    (hex = six a1 a2 a3 a4 a5 a6 \/ hex = String "#" (six a1 a2 a3 a4 a5 a6))
    /\ hexPair a1 a2 = Some r /\ hexPair a3 a4 = Some g /\ hexPair a5 a6 = Some b
    /\ rgb = (r, g, b).
Proof.
  unfold hexToRgb. cbv zeta.
  destruct (strip_hash hex) as [(rest & Hhex & ->) | (_ & ->)].
  - destruct rest as [| a1 [| a2 [| a3 [| a4 [| a5 [| a6 [| a7 more] ] ] ] ] ] ];
      try discriminate.
    rewrite <- hexToRgb_six.
    destruct (hexPair a1 a2) as [r | ] eqn:H1; [ | discriminate ].
    destruct (hexPair a3 a4) as [g | ] eqn:H2; [ | discriminate ].
    destruct (hexPair a5 a6) as [b | ] eqn:H3; [ | discriminate ].
    intros H. injection H as <-. exists a1, a2, a3, a4, a5, a6, r, g, b.
    split; [right; exact Hhex | auto].
  - destruct hex as [| a1 [| a2 [| a3 [| a4 [| a5 [| a6 [| a7 more] ] ] ] ] ] ];
      try discriminate.
    rewrite <- hexToRgb_six.
    destruct (hexPair a1 a2) as [r | ] eqn:H1; [ | discriminate ].
    destruct (hexPair a3 a4) as [g | ] eqn:H2; [ | discriminate ].
    destruct (hexPair a5 a6) as [b | ] eqn:H3; [ | discriminate ].
    intros H. injection H as <-. exists a1, a2, a3, a4, a5, a6, r, g, b.
    split; [left; reflexivity | auto].
Qed.

Lemma hexToRgb_accepts a1 a2 a3 a4 a5 a6 r g b :
  hexPair a1 a2 = Some r -> hexPair a3 a4 = Some g -> hexPair a5 a6 = Some b ->
  hexToRgb (six a1 a2 a3 a4 a5 a6) = Some (r, g, b)
  /\ hexToRgb (String "#" (six a1 a2 a3 a4 a5 a6)) = Some (r, g, b).
Proof.
  intros H1 H2 H3. split.
  - unfold hexToRgb. cbv zeta.
    destruct (strip_hash (six a1 a2 a3 a4 a5 a6)) as [(rest & Hhex & _) | (_ & ->)].
    + exfalso. unfold six in Hhex. injection Hhex as -> _.
      apply hexPair_value in H1. destruct H1 as (va & vb & Ha & _). discriminate Ha.
    + unfold six. rewrite <- hexToRgb_six. rewrite H1, H2, H3. reflexivity.
  - unfold hexToRgb, six. cbv zeta. cbv iota. rewrite <- hexToRgb_six.
    rewrite H1, H2, H3. reflexivity.
Qed.

(** X30.  [hexToRgb] reads a colour exactly from an optional [#] followed
    by six hexadecimal digits, in either case: the three components are
    the values of the three pairs of digits, each between 0 and 255.  Of
    any other string - the three-digit short form, a string that is too
    long or has another character - it returns [null].  Every colour of
    the palette is read, so building the fill colour of the header row
    never fails. *)
Theorem hexToRgb_spec :
  (forall hex r g b,
     hexToRgb hex = Some (r, g, b) ->
     (0 <= r <= 255 /\ 0 <= g <= 255 /\ 0 <= b <= 255)
     /\ exists a1 a2 a3 a4 a5 a6,
          (hex = six a1 a2 a3 a4 a5 a6 \/ hex = String "#" (six a1 a2 a3 a4 a5 a6))
          /\ hexPair a1 a2 = Some r /\ hexPair a3 a4 = Some g /\ hexPair a5 a6 = Some b)
  /\ (forall a1 a2 a3 a4 a5 a6 r g b,
        hexPair a1 a2 = Some r -> hexPair a3 a4 = Some g -> hexPair a5 a6 = Some b ->
        hexToRgb (six a1 a2 a3 a4 a5 a6) = Some (r, g, b)
        /\ hexToRgb (String "#" (six a1 a2 a3 a4 a5 a6)) = Some (r, g, b))
  /\ (forall a b v,
        hexPair a b = Some v
        <-> exists va vb,
              radixDigit a = Some va /\ radixDigit b = Some vb /\ v = 16 * va + vb)
  /\ (forall hex, hexToRgb hex <> None ->
        String.length hex = 6%nat \/ String.length hex = 7%nat)
  /\ Forall (fun c => hexToRgb c <> None) palette
  /\ hexToRgb "#7a5051" = hexToRgb colors.primaryDark.
Proof.
  split; [ | split; [ | split; [ | split; [ | split ] ] ] ].
  - intros hex r g b H. apply hexToRgb_body in H.
    destruct H as (a1 & a2 & a3 & a4 & a5 & a6 & r' & g' & b' & Hhex & H1 & H2 & H3 & E).
    injection E as -> -> ->.
    split.
    + pose proof (hexPair_range _ _ _ H1). pose proof (hexPair_range _ _ _ H2).
      pose proof (hexPair_range _ _ _ H3). auto.
    + exists a1, a2, a3, a4, a5, a6. auto.
  - apply hexToRgb_accepts.
  - apply hexPair_value.
  - intros hex H. destruct (hexToRgb hex) as [rgb | ] eqn:E; [ | congruence ].
    apply hexToRgb_body in E.
    destruct E as (a1 & a2 & a3 & a4 & a5 & a6 & _ & _ & _ & [-> | ->] & _);
      [left | right]; reflexivity.
  - unfold palette. repeat constructor; discriminate.
  - reflexivity.
Qed.
